(** * ssl-cert-server: the certificate lifecycle engine

A shallow embedding of the renewal timers of [autocert/renewal.go]
([domainRenewal], [ocspUpdater]) and of the self-signed provisioning
path of the server package ([GetSelfSignedCertificate] and friends),
followed by the properties the specification states about them.

Conventions.
- A [time.Duration] is an [int64] count of nanoseconds: it is a [Z]
  and every addition or subtraction the source performs on it goes
  through [wrap64].  A [time.Time] is an instant in nanoseconds.
- A Go result [(v, err)] of code that is not part of the embedded
  sources is a [Result]; where the embedded code itself inspects the
  two components independently the pair is kept as a pair of options.
- A nil pointer dereference is the outcome [Fault].
- Taking and releasing a mutex is put on record in the trace; the
  mutual exclusion [timerMu] provides between goroutines is modelled
  in [Race], where each method is a critical section.
- Code the sources call but do not contain (the Manager's cache and
  issuance methods, the store backend, the crypto primitives, the
  clock and the random source) is taken as a parameter: the classes
  [AutocertEnv] and [ServerEnv] over an abstract external state. *)

From Stdlib Require Import ZArith List String Lia Bool.
From stdpp Require Import base gmap strings list.
Import ListNotations.
Local Open Scope Z_scope.

Abbreviation bytes := (list Byte.byte) (only parsing).

(** ** Go's [int64] durations and [time.Time] *)

Module GoTime.

Definition minInt64 : Z := - 2 ^ 63.
Definition maxInt64 : Z := 2 ^ 63 - 1.

(** Two's complement wrap-around of [int64] arithmetic. *)
Definition wrap64 (z : Z) : Z := (z + 2 ^ 63) mod 2 ^ 64 - 2 ^ 63.

Definition Nanosecond : Z := 1.
Definition Second : Z := 1000000000 * Nanosecond.
Definition Minute : Z := 60 * Second.
Definition Hour : Z := 60 * Minute.

(** [t.Sub(u)]: the difference, saturated to the range of a Duration. *)
Definition Sub (t u : Z) : Z :=
  if t - u <? minInt64 then minInt64
  else if maxInt64 <? t - u then maxInt64
  else t - u.

(** [t.Add(d)]. *)
Definition Add (t d : Z) : Z := t + d.

End GoTime.

(** ** Data *)

Inductive error : Type :=
| ErrCacheMiss                                (* autocert.ErrCacheMiss *)
| ErrOther (msg : string)                     (* any other error value *)
| Errorf (format : string) (cause : error).   (* fmt.Errorf(format, cause) *)

#[global] Instance error_eq_dec : EqDecision error.
Proof. solve_decision. Defined.

Inductive Result (A : Type) : Type :=
| Ok (a : A)
| Err (e : error).
Arguments Ok {A} a.
Arguments Err {A} e.

(** [crypto.Signer] / [*ecdsa.PrivateKey]: opaque key material. *)
Record Signer : Type := { key_id : Z }.

Module x509.
Definition KeyUsageDigitalSignature : Z := Z.shiftl 1 0.
Definition KeyUsageKeyEncipherment : Z := Z.shiftl 1 2.
Definition KeyUsageCertSign : Z := Z.shiftl 1 5.
Inductive ExtKeyUsage : Type := ExtKeyUsageServerAuth | ExtKeyUsageClientAuth.

Record Certificate : Type := {
  SerialNumber : Z;
  Organization : list string;          (* Subject.Organization *)
  NotBefore : Z;
  NotAfter : Z;
  KeyUsage : Z;
  ExtKeyUsages : list ExtKeyUsage;
  BasicConstraintsValid : bool
}.
End x509.

Module tls.
(** A non-nil [*tls.Certificate].  [Leaf] is the parsed leaf. *)
Record Certificate : Type := {
  Chain : list bytes;                  (* the Certificate field: DER chain *)
  PrivateKey : Signer;
  Leaf : x509.Certificate
}.
End tls.

Module ocsp.
Record Response : Type := { NextUpdate : Z }.
End ocsp.

(** [certState]: the Manager's per-domain record. *)
Record certState : Type := {
  key : Signer;
  cert : list bytes;
  leaf : x509.Certificate
}.

(** The per-domain OCSP record held in [Manager.ocspStates]. *)
Record ocspState : Type := {
  ocsp_leaf : x509.Certificate;
  ocsp_issuer : x509.Certificate;
  ocspDER : bytes;
  nextUpdate : Z
}.

(** The Manager, as far as renewal.go touches it.  [renewBefore] is the
    value [m.renewBefore()] returns. *)
Record Manager : Type := {
  state : gmap string certState;
  ocspStates : gmap string ocspState;
  renewBefore : Z
}.

(** [Cfg.SelfSigned]. *)
Module Cfg.
Record SelfSigned : Type := {
  Enable : bool;
  CheckSNI : bool;
  ValidDays : Z;
  Organization : list string;
  CertKey : string
}.
End Cfg.

(** ** The runtime's timers *)

Inductive Callback : Type :=
| CbRenew (domain : string)     (* dr.renew of the domain's domainRenewal *)
| CbUpdate (domain : string).   (* ou.update of the domain's ocspUpdater *)

Inductive TimerStatus : Type := Pending | Fired | Stopped.

Record Timer : Type := {
  t_after : Z;
  t_func : Callback;
  t_status : TimerStatus
}.

#[global] Instance Callback_eq_dec : EqDecision Callback.
Proof. solve_decision. Defined.
#[global] Instance TimerStatus_eq_dec : EqDecision TimerStatus.
Proof. solve_decision. Defined.

(** ** Calls that leave the embedded code, as a log (newest first) *)

Inductive Event : Type :=
| EvCacheGet (domain : string)              (* m.cacheGet *)
| EvCachePut (domain : string)              (* m.cachePut *)
| EvIssue (domain : string)                 (* m.authorizedCert *)
| EvOCSP (domain : string)                  (* m.updateOCSPStapling *)
| EvLock (mu : string)
| EvUnlock (mu : string)
| EvDidRenewLoop (next : Z) (err : option error)
| EvDidUpdateLoop (next : Z) (err : option error)
| EvStoreGet (k : string)                   (* Cfg.Storage.Cache.Get *)
| EvStorePut (k : string) (data : bytes)    (* Cfg.Storage.Cache.Put *)
| EvGenerateKey                             (* ecdsa.GenerateKey *)
| EvCreateCertificate.                      (* x509.CreateCertificate *)

(** ** Collaborators the sources call but do not contain *)

Class AutocertEnv (Ext : Type) : Type := {
  timeNow : Ext -> Z * Ext;
  (** [pseudoRand.int63n(n)], for [0 < n]: some value of [[0, n)]. *)
  int63n : Z -> Ext -> Z * Ext;
  int63n_range : forall n x, 0 < n -> 0 <= fst (int63n n x) < n;
  (** The context argument is the timeout it was built with. *)
  cacheGet : Z -> string -> Ext -> Result tls.Certificate * Ext;
  cachePut : Z -> string -> tls.Certificate -> Ext -> option error * Ext;
  authorizedCert :
    Z -> Signer -> string -> Ext -> Result (list bytes * x509.Certificate) * Ext;
  tlscert : certState -> Result tls.Certificate;
  updateOCSPStapling :
    Z -> x509.Certificate -> x509.Certificate -> Ext ->
    Result (bytes * ocsp.Response) * Ext
}.

Class ServerEnv (Ext : Type) : Type := {
  (** [Cfg.Storage.Cache]: the Certificate Store backend. *)
  storage_Get : string -> Ext -> Result bytes * Ext;
  storage_Put : string -> bytes -> Ext -> option error * Ext;
  (** [parseCertificate(data)]: a possibly nil certificate and an error. *)
  parseCertificate : bytes -> option tls.Certificate * option error;
  ecdsa_GenerateKey : Ext -> Result Signer * Ext;
  rand_Int : Z -> Ext -> Result Z * Ext;
  time_Now : Ext -> Z * Ext;
  x509_CreateCertificate :
    x509.Certificate -> Signer -> Ext -> Result bytes * Ext;
  pem_EncodeToMemory : string -> bytes -> bytes;
  EncodeECDSAKey : Signer -> bytes;
  checkHostIsValid : string -> Ext -> option error * Ext
}.

(** ** The world and the monad the embedded code runs in *)

Record World (Ext : Type) : Type := mkWorld {
  ext : Ext;                                      (* state of the collaborators *)
  trace : list Event;                             (* newest first *)
  timers : list Timer;                            (* every timer ever created *)
  mgr : Manager;                                  (* the *Manager *)
  selfSignedCert : option (option tls.Certificate); (* the atomic.Value *)
  cfg : Cfg.SelfSigned
}.
Arguments mkWorld {Ext}.
Arguments ext {Ext}.
Arguments trace {Ext}.
Arguments timers {Ext}.
Arguments mgr {Ext}.
Arguments selfSignedCert {Ext}.
Arguments cfg {Ext}.

Inductive outcome (Ext A : Type) : Type :=
| Done (a : A) (w : World Ext)
| Fault (w : World Ext).          (* run-time panic: nil dereference *)
Arguments Done {Ext A} a w.
Arguments Fault {Ext A} w.

Definition M (Ext A : Type) : Type := World Ext -> outcome Ext A.

Definition ret {Ext A} (a : A) : M Ext A := fun w => Done a w.

Definition bind {Ext A B} (m : M Ext A) (k : A -> M Ext B) : M Ext B :=
  fun w => match m w with
           | Done a w' => k a w'
           | Fault w' => Fault w'
           end.

Notation "x <- m ;; k" := (bind m (fun x => k))
  (at level 90, m at level 80, right associativity, only parsing).
Notation "m ;;; k" := (bind m (fun _ => k))
  (at level 90, right associativity, only parsing).

Section Primitives.
Context {Ext : Type}.

Definition panic {A} : M Ext A := fun w => Fault w.

Definition get_world : M Ext (World Ext) := fun w => Done w w.

Definition set_ext (x : Ext) (w : World Ext) : World Ext :=
  mkWorld x (trace w) (timers w) (mgr w) (selfSignedCert w) (cfg w).
Definition set_trace (t : list Event) (w : World Ext) : World Ext :=
  mkWorld (ext w) t (timers w) (mgr w) (selfSignedCert w) (cfg w).
Definition set_timers (ts : list Timer) (w : World Ext) : World Ext :=
  mkWorld (ext w) (trace w) ts (mgr w) (selfSignedCert w) (cfg w).
Definition set_mgr (m : Manager) (w : World Ext) : World Ext :=
  mkWorld (ext w) (trace w) (timers w) m (selfSignedCert w) (cfg w).
Definition set_selfSignedCert (c : option (option tls.Certificate))
    (w : World Ext) : World Ext :=
  mkWorld (ext w) (trace w) (timers w) (mgr w) c (cfg w).

Definition emit (e : Event) : M Ext unit :=
  fun w => Done tt (set_trace (e :: trace w) w).

(** A call into a collaborator: it is logged, then it acts on [ext]. *)
Definition call {A} (e : Event) (f : Ext -> A * Ext) : M Ext A :=
  fun w => let '(a, x) := f (ext w) in
           Done a (set_ext x (set_trace (e :: trace w) w)).

(** Reading the clock or the random source: not logged. *)
Definition ask {A} (f : Ext -> A * Ext) : M Ext A :=
  fun w => let '(a, x) := f (ext w) in Done a (set_ext x w).

(** [time.AfterFunc(d, f)]: a fresh pending timer; its handle is its
    index in the timer table. *)
Definition AfterFunc (d : Z) (f : Callback) : M Ext nat :=
  fun w => Done (length (timers w))
                (set_timers (timers w ++ [Build_Timer d f Pending]) w).

Definition stop_timer (t : Timer) : Timer :=
  match t_status t with
  | Pending => Build_Timer (t_after t) (t_func t) Stopped
  | _ => t
  end.

(** [t.Stop()]: prevents a pending timer from firing; no effect on one
    that has fired or was stopped. *)
Definition Stop (h : nat) : M Ext unit :=
  fun w => Done tt (set_timers (alter stop_timer h (timers w)) w).

(** [m.state[domain] = st]. *)
Definition put_state (domain : string) (st : certState) : M Ext unit :=
  fun w => Done tt (set_mgr
    {| state := <[domain := st]> (state (mgr w));
       ocspStates := ocspStates (mgr w);
       renewBefore := renewBefore (mgr w) |} w).

(** [m.ocspStates[domain]]: the pointer stored there, nil when absent. *)
Definition get_ocspState (domain : string) : M Ext (option ocspState) :=
  fun w => Done (ocspStates (mgr w) !! domain) w.

(** A write through the pointer read from [m.ocspStates[domain]]. *)
Definition put_ocspState (domain : string) (st : ocspState) : M Ext unit :=
  fun w => Done tt (set_mgr
    {| state := state (mgr w);
       ocspStates := <[domain := st]> (ocspStates (mgr w));
       renewBefore := renewBefore (mgr w) |} w).

(** [mu.Lock(); defer mu.Unlock()] around the rest of a function body:
    the unlock runs on every way out, a panic included. *)
Definition locked {A} (mu : string) (body : M Ext A) : M Ext A :=
  fun w => match body (set_trace (EvLock mu :: trace w) w) with
           | Done a w' => Done a (set_trace (EvUnlock mu :: trace w') w')
           | Fault w' => Fault (set_trace (EvUnlock mu :: trace w') w')
           end.

End Primitives.

(** renewJitter is the maximum deviation from Manager.RenewBefore. *)
Definition renewJitter : Z := GoTime.Hour.

(** The interval [renew] and [update] both retry after when the attempt
    failed: [next = renewJitter / 2; next += int63n(int64(next))]. *)
Definition backoff {Ext : Type} `{!AutocertEnv Ext} : M Ext Z :=
  let nxt := Z.quot renewJitter 2 in
  r <- ask (int63n nxt) ;;
  ret (GoTime.wrap64 (nxt + r)).

(** ** autocert/renewal.go: domainRenewal *)

Module domainRenewal.

Record t : Type := {
  domain : string;
  key : Signer;
  timer : option nat      (* nil, or the handle of the timer last armed *)
}.

Definition with_timer (dr : t) (h : option nat) : t :=
  {| domain := domain dr; key := key dr; timer := h |}.

Section WithEnv.
Context {Ext : Type} `{!AutocertEnv Ext}.

Definition next (dr : t) (expiry : Z) : M Ext Z :=
  now <- ask timeNow ;;
  w <- get_world ;;
  let d := GoTime.wrap64 (GoTime.Sub expiry now - renewBefore (mgr w)) in
  (* add a bit of randomness to renew deadline *)
  n <- ask (int63n renewJitter) ;;
  let d := GoTime.wrap64 (d - n) in
  if d <? 0 then ret 0 else ret d.

(** The issuing half of [do]: everything after the cache check. *)
Definition do_issue (dr : t) (ctx : Z) : M Ext (Z * option error) :=
  r <- call (EvIssue (domain dr)) (authorizedCert ctx (key dr) (domain dr)) ;;
  match r with
  | Err e => ret (0, Some e)
  | Ok (der, leaf) =>
      let st := Build_certState (key dr) der leaf in
      match tlscert st with
      | Err e => ret (0, Some e)
      | Ok tlscert =>
          (* dr.m.cachePut(ctx, dr.domain, tlscert): the result is dropped *)
          _ <- call (EvCachePut (domain dr)) (cachePut ctx (domain dr) tlscert) ;;
          locked "stateMu"
            ((* m.state is guaranteed to be non-nil at this point *)
             put_state (domain dr) st ;;;
             nxt <- next dr (x509.NotAfter leaf) ;;
             ret (nxt, None))
      end
  end.

(** do is similar to Manager.createCert but it doesn't lock a
    Manager.state item.  It may return immediately if the expiration
    date of the currently cached cert is far enough in the future.
    The returned value is a time interval after which the renewal
    should occur again. *)
Definition do (dr : t) (ctx : Z) : M Ext (Z * option error) :=
  r <- call (EvCacheGet (domain dr)) (cacheGet ctx (domain dr)) ;;
  early <- match r with
           | Ok tlscert =>
               nxt <- next dr (x509.NotAfter (tls.Leaf tlscert)) ;;
               w <- get_world ;;
               if GoTime.wrap64 (renewBefore (mgr w) + renewJitter) <? nxt
               then ret (Some nxt)
               else ret None
           | Err _ => ret None
           end ;;
  match early with
  | Some nxt => ret (nxt, None)
  | None => do_issue dr ctx
  end.

(** The part of [start] run once the timer is known to be nil. *)
Definition start_idle (dr : t) (exp : Z) : M Ext t :=
  d <- next dr exp ;;
  h <- AfterFunc d (CbRenew (domain dr)) ;;
  ret (with_timer dr (Some h)).

(** start starts a cert renewal timer at the time defined by the
    certificate expiration time exp.  If the timer is already
    started, calling start is a noop. *)
Definition start (dr : t) (exp : Z) : M Ext t :=
  locked "timerMu"
    match timer dr with
    | Some _ => ret dr
    | None => start_idle dr exp
    end.

(** The part of [stop] run once the timer is known to be armed. *)
Definition stop_armed (dr : t) (h : nat) : M Ext t :=
  Stop h ;;;
  ret (with_timer dr None).

(** stop stops the cert renewal timer.  If the timer is already
    stopped, calling stop is a noop. *)
Definition stop (dr : t) : M Ext t :=
  locked "timerMu"
    match timer dr with
    | None => ret dr
    | Some h => stop_armed dr h
    end.

(** The part of [renew] run once the timer is known to be armed. *)
Definition renew_armed (dr : t) : M Ext t :=
  let ctx := 10 * GoTime.Minute in
  r <- do dr ctx ;;
  nxt <- match snd r with
         | Some _ => backoff
         | None => ret (fst r)
         end ;;
  h <- AfterFunc nxt (CbRenew (domain dr)) ;;
  emit (EvDidRenewLoop nxt (snd r)) ;;;
  ret (with_timer dr (Some h)).

(** renew is called periodically by a timer.  The first renew call
    is kicked off by dr.start. *)
Definition renew (dr : t) : M Ext t :=
  locked "timerMu"
    match timer dr with
    | None => ret dr
    | Some _ => renew_armed dr
    end.

End WithEnv.
End domainRenewal.

(** ** autocert/renewal.go: ocspUpdater *)

Module ocspUpdater.

Record t : Type := {
  domain : string;
  timer : option nat
}.

Definition with_timer (ou : t) (h : option nat) : t :=
  {| domain := domain ou; timer := h |}.

Section WithEnv.
Context {Ext : Type} `{!AutocertEnv Ext}.

Definition next (ou : t) (expiry : Z) : M Ext Z :=
  now <- ask timeNow ;;
  let d := GoTime.wrap64 (GoTime.Sub expiry now - 48 * GoTime.Hour) in
  (* add a bit randomness to renew deadline *)
  n <- ask (int63n renewJitter) ;;
  let d := GoTime.wrap64 (d - n) in
  if d <? 0 then ret 0 else ret d.

Definition start_idle (ou : t) (nxt : Z) : M Ext t :=
  d <- next ou nxt ;;
  h <- AfterFunc d (CbUpdate (domain ou)) ;;
  ret (with_timer ou (Some h)).

Definition start (ou : t) (nxt : Z) : M Ext t :=
  locked "timerMu"
    match timer ou with
    | Some _ => ret ou
    | None => start_idle ou nxt
    end.

Definition stop_armed (ou : t) (h : nat) : M Ext t :=
  Stop h ;;;
  ret (with_timer ou None).

Definition stop (ou : t) : M Ext t :=
  locked "timerMu"
    match timer ou with
    | None => ret ou
    | Some h => stop_armed ou h
    end.

(** The part of [update] run once the timer is known to be armed. *)
Definition update_armed (ou : t) : M Ext t :=
  let ctx := 5 * GoTime.Minute in
  (* state will not be nil *)
  o <- get_ocspState (domain ou) ;;
  match o with
  | None => panic        (* state.leaf through a nil pointer *)
  | Some st =>
      r <- call (EvOCSP (domain ou))
             (updateOCSPStapling ctx (ocsp_leaf st) (ocsp_issuer st)) ;;
      match r with
      | Err e =>
          (* failed *)
          nxt <- backoff ;;
          h <- AfterFunc nxt (CbUpdate (domain ou)) ;;
          emit (EvDidUpdateLoop nxt (Some e)) ;;;
          ret (with_timer ou (Some h))
      | Ok (der, response) =>
          (* success *)
          locked "ocspState"
            (put_ocspState (domain ou)
               {| ocsp_leaf := ocsp_leaf st; ocsp_issuer := ocsp_issuer st;
                  ocspDER := der; nextUpdate := ocsp.NextUpdate response |} ;;;
             nxt <- next ou (ocsp.NextUpdate response) ;;
             h <- AfterFunc nxt (CbUpdate (domain ou)) ;;
             emit (EvDidUpdateLoop nxt None) ;;;
             ret (with_timer ou (Some h)))
      end
  end.

Definition update (ou : t) : M Ext t :=
  locked "timerMu"
    match timer ou with
    | None => ret ou
    | Some _ => update_armed ou
    end.

End WithEnv.
End ocspUpdater.

(** ** The server package: self-signed provisioning *)

Module server.
  Section WithEnv.
    Context {Ext : Type} `{!ServerEnv Ext}.

Definition store_selfSignedCert (c : option tls.Certificate) : M Ext unit :=
  fun w => Done tt (set_selfSignedCert (Some c) w).

Definition IsSelfSignedAllowed (domain : string) : M Ext bool :=
  w <- get_world ;;
  if negb (Cfg.Enable (cfg w)) then ret false
  else if Cfg.CheckSNI (cfg w) then
    err <- ask (checkHostIsValid domain) ;;
    match err with
    | Some _ => ret false
    | None => ret true
    end
  else ret true.

(** Modelled from the spec: [loadCertificateFromStore] is called by the
    sources but is not among them.  It loads prior material from the
    Certificate Store ([get(key) -> bytes | NotFound], any other I/O
    error surfaced) under the name it is given and, if found, parses
    it. *)
Definition loadCertificateFromStore (certKey : string)
    : M Ext (option tls.Certificate * option error) :=
  r <- call (EvStoreGet certKey) (storage_Get certKey) ;;
  match r with
  | Err e => ret (None, Some e)
  | Ok data => ret (parseCertificate data)
  end.

Definition CreateSelfSignedCertificate (validDays : Z)
    (organization : list string) : M Ext (bytes * bytes * option error) :=
  r <- call EvGenerateKey ecdsa_GenerateKey ;;
  match r with
  | Err e =>
      ret ([], [], Some (Errorf "self_singed: failed generate private key: %v" e))
  | Ok privKey =>
      let serialNumberLimit := Z.shiftl 1 128 in
      r <- ask (rand_Int serialNumberLimit) ;;
      match r with
      | Err e =>
          ret ([], [], Some (Errorf "self_signed: failed generate serial number: %v" e))
      | Ok serialNumber =>
          now <- ask time_Now ;;
          let validDuration :=
            GoTime.wrap64 (GoTime.wrap64 (validDays * 24) * GoTime.Hour) in
          let certificate :=
            {| x509.SerialNumber := serialNumber;
               x509.Organization := organization;
               x509.NotBefore := now;
               x509.NotAfter := GoTime.Add now validDuration;
               x509.KeyUsage :=
                 Z.lor (Z.lor x509.KeyUsageDigitalSignature
                              x509.KeyUsageKeyEncipherment)
                       x509.KeyUsageCertSign;
               x509.ExtKeyUsages :=
                 [x509.ExtKeyUsageClientAuth; x509.ExtKeyUsageServerAuth];
               x509.BasicConstraintsValid := true |} in
          r <- call EvCreateCertificate
                 (x509_CreateCertificate certificate privKey) ;;
          match r with
          | Err e =>
              ret ([], [], Some (Errorf "self_signed: failed create certificate: %v" e))
          | Ok certBytes =>
              let certPEM := pem_EncodeToMemory "CERTIFICATE" certBytes in
              (* _ = EncodeECDSAKey(privKeyBuf, privKey) *)
              let privKeyPEM := EncodeECDSAKey privKey in
              ret (certPEM, privKeyPEM, None)
          end
      end
  end.

Definition createAndSaveSelfSignedCertificate
    : M Ext (option tls.Certificate * option error) :=
  w <- get_world ;;
  let validDays := Cfg.ValidDays (cfg w) in
  let organization := Cfg.Organization (cfg w) in
  r <- CreateSelfSignedCertificate validDays organization ;;
  match r with
  | (_, _, Some err) => ret (None, Some err)
  | (certPEM, privKeyPEM, None) =>
      let cacheData := privKeyPEM ++ certPEM in
      err <- call (EvStorePut (Cfg.CertKey (cfg w)) cacheData)
               (storage_Put (Cfg.CertKey (cfg w)) cacheData) ;;
      match err with
      | Some e =>
          ret (None, Some (Errorf "self_signed: failed put certificate: %v" e))
      | None =>
          (* tlscert, _ := parseCertificate(cacheData) *)
          ret (fst (parseCertificate cacheData), None)
      end
  end.

(** The slow path of [GetSelfSignedCertificate], run under
    [selfSignedMu] once the singleton was found unset twice. *)
Definition provision (domain : string)
    : M Ext (option tls.Certificate * option error) :=
  (* check storage first *)
  r <- loadCertificateFromStore domain ;;
  match r with
  | (tlscert, err) =>
      if match err with
         | Some e => bool_decide (e <> ErrCacheMiss)
         | None => false
         end
      then ret (None, option_map (Errorf "self_signed: %v") err)
      else
        match tlscert with
        | Some c =>
            store_selfSignedCert (Some c) ;;;
            ret (Some c, None)
        | None =>
            (* cache not available, create new certificate *)
            r <- createAndSaveSelfSignedCertificate ;;
            match r with
            | (_, Some err) => ret (None, Some err)
            | (tlscert, None) =>
                store_selfSignedCert tlscert ;;;
                ret (tlscert, None)
            end
        end
  end.

Definition GetSelfSignedCertificate (domain : string)
    : M Ext (option tls.Certificate * option error) :=
  w <- get_world ;;
  match selfSignedCert w with
  | Some tlscert => ret (tlscert, None)
  | None =>
      locked "selfSignedMu"
        (w <- get_world ;;
         match selfSignedCert w with
         | Some tlscert => ret (tlscert, None)
         | None => provision domain
         end)
  end.

End WithEnv.
End server.

(** ** Goroutines on one scheduler or updater

    A domainRenewal and an ocspUpdater have the same shape: a timer
    field guarded by [timerMu], a callback that re-arms it and a [stop]
    that clears it.  [Loop] is that shape; the system below runs one
    [stop] call against the callbacks the runtime launches when a timer
    expires.  Every method body is a critical section of [timerMu]: a
    goroutine takes the mutex (it cannot move while another holds it),
    looks at the timer field, does its work and releases the mutex.
    The system is closed: the timers that can expire are the ones this
    object armed, and a callback that panics takes the process down. *)

Record Loop (Ext Obj : Type) : Type := {
  loop_timer : Obj -> option nat;
  loop_armed : Obj -> M Ext Obj;           (* the callback, timer known armed *)
  loop_stop : Obj -> nat -> M Ext Obj      (* stop, timer known armed *)
}.
Arguments loop_timer {Ext Obj}.
Arguments loop_armed {Ext Obj}.
Arguments loop_stop {Ext Obj}.

Definition renewalLoop {Ext : Type} `{!AutocertEnv Ext} : Loop Ext domainRenewal.t :=
  {| loop_timer := domainRenewal.timer;
     loop_armed := domainRenewal.renew_armed;
     loop_stop := domainRenewal.stop_armed |}.

Definition ocspLoop {Ext : Type} `{!AutocertEnv Ext} : Loop Ext ocspUpdater.t :=
  {| loop_timer := ocspUpdater.timer;
     loop_armed := ocspUpdater.update_armed;
     loop_stop := ocspUpdater.stop_armed |}.

Module Race.

(** Where a goroutine stands in its method. *)
Inductive PC : Type :=
| AtLock        (* about to take timerMu *)
| AtCheck       (* holds it, about to test the timer field *)
| AtWork        (* holds it, found the timer armed *)
| AtUnlock      (* about to run the deferred unlock *)
| Finished.

Inductive Holder : Type := HStop | HCb (i : nat).

Inductive Action : Type :=
| RunStop               (* the goroutine calling stop() moves *)
| RunCb (i : nat)       (* the i-th callback goroutine moves *)
| Fire (h : nat).       (* the runtime: timer h expires *)

#[global] Instance PC_eq_dec : EqDecision PC.
Proof. solve_decision. Defined.
#[global] Instance Holder_eq_dec : EqDecision Holder.
Proof. solve_decision. Defined.

Record Sys (Ext Obj : Type) : Type := mkSys {
  obj : Obj;
  world : World Ext;
  mutex : option Holder;
  stopper : PC;
  callbacks : list PC;
  attempts : nat;              (* armed callback bodies run so far *)
  crashed : bool               (* a callback panicked: the process is gone *)
}.
Arguments mkSys {Ext Obj}.
Arguments obj {Ext Obj}.
Arguments world {Ext Obj}.
Arguments mutex {Ext Obj}.
Arguments stopper {Ext Obj}.
Arguments callbacks {Ext Obj}.
Arguments attempts {Ext Obj}.
Arguments crashed {Ext Obj}.

Definition fire_timer (t : Timer) : Timer :=
  {| t_after := t_after t; t_func := t_func t; t_status := Fired |}.

Definition log {Ext : Type} (e : Event) (w : World Ext) : World Ext :=
  set_trace (e :: trace w) w.

Section Steps.
Context {Ext Obj : Type} (L : Loop Ext Obj).

Definition step_stop (s : Sys Ext Obj) : option (Sys Ext Obj) :=
  match stopper s with
  | AtLock =>
      match mutex s with
      | None =>
          Some (mkSys (obj s) (log (EvLock "timerMu") (world s)) (Some HStop)
                  AtCheck (callbacks s) (attempts s) (crashed s))
      | Some _ => None
      end
  | AtCheck =>
      match loop_timer L (obj s) with
      | None =>
          Some (mkSys (obj s) (world s) (mutex s) AtUnlock
                  (callbacks s) (attempts s) (crashed s))
      | Some _ =>
          Some (mkSys (obj s) (world s) (mutex s) AtWork
                  (callbacks s) (attempts s) (crashed s))
      end
  | AtWork =>
      match loop_timer L (obj s) with
      | None =>
          Some (mkSys (obj s) (world s) (mutex s) AtUnlock
                  (callbacks s) (attempts s) (crashed s))
      | Some h =>
          match loop_stop L (obj s) h (world s) with
          | Done o w =>
              Some (mkSys o w (mutex s) AtUnlock
                      (callbacks s) (attempts s) (crashed s))
          | Fault w =>
              Some (mkSys (obj s) w (mutex s) AtWork
                      (callbacks s) (attempts s) true)
          end
      end
  | AtUnlock =>
      Some (mkSys (obj s) (log (EvUnlock "timerMu") (world s)) None
              Finished (callbacks s) (attempts s) (crashed s))
  | Finished => None
  end.

Definition step_cb (i : nat) (s : Sys Ext Obj) : option (Sys Ext Obj) :=
  match callbacks s !! i with
  | Some AtLock =>
      match mutex s with
      | None =>
          Some (mkSys (obj s) (log (EvLock "timerMu") (world s)) (Some (HCb i))
                  (stopper s) (<[i := AtCheck]> (callbacks s))
                  (attempts s) (crashed s))
      | Some _ => None
      end
  | Some AtCheck =>
      match loop_timer L (obj s) with
      | None =>
          Some (mkSys (obj s) (world s) (mutex s) (stopper s)
                  (<[i := AtUnlock]> (callbacks s)) (attempts s) (crashed s))
      | Some _ =>
          Some (mkSys (obj s) (world s) (mutex s) (stopper s)
                  (<[i := AtWork]> (callbacks s)) (attempts s) (crashed s))
      end
  | Some AtWork =>
      match loop_armed L (obj s) (world s) with
      | Done o w =>
          Some (mkSys o w (mutex s) (stopper s)
                  (<[i := AtUnlock]> (callbacks s)) (S (attempts s)) (crashed s))
      | Fault w =>
          Some (mkSys (obj s) w (mutex s) (stopper s)
                  (callbacks s) (S (attempts s)) true)
      end
  | Some AtUnlock =>
      Some (mkSys (obj s) (log (EvUnlock "timerMu") (world s)) None
              (stopper s) (<[i := Finished]> (callbacks s))
              (attempts s) (crashed s))
  | Some Finished | None => None
  end.

(** A pending timer expires: the runtime marks it fired and launches its
    callback in a goroutine of its own. *)
Definition step_fire (h : nat) (s : Sys Ext Obj) : option (Sys Ext Obj) :=
  match timers (world s) !! h with
  | Some t =>
      match t_status t with
      | Pending =>
          Some (mkSys (obj s)
                  (set_timers (<[h := fire_timer t]> (timers (world s))) (world s))
                  (mutex s) (stopper s) (callbacks s ++ [AtLock])
                  (attempts s) (crashed s))
      | _ => None
      end
  | None => None
  end.

(** One move; [None] when the move is not possible (the goroutine is
    blocked or done, the timer is not pending, the process is gone). *)
Definition step (a : Action) (s : Sys Ext Obj) : option (Sys Ext Obj) :=
  if crashed s then None
  else match a with
       | RunStop => step_stop s
       | RunCb i => step_cb i s
       | Fire h => step_fire h s
       end.

(** An interleaving is a list of moves, each possible when its turn comes. *)
Fixpoint exec (sched : list Action) (s : Sys Ext Obj) : option (Sys Ext Obj) :=
  match sched with
  | [] => Some s
  | a :: rest =>
      match step a s with
      | Some s' => exec rest s'
      | None => None
      end
  end.

(** The race: the timer of an armed [o] has just expired, its callback
    is launched, and another goroutine calls [stop]; neither has taken
    the mutex yet. *)
Definition racing (o : Obj) (w : World Ext) : Sys Ext Obj :=
  mkSys o w None AtLock [AtLock] 0 false.

(** The method a callback goroutine runs, as one function. *)
Definition callback (o : Obj) : M Ext Obj :=
  locked "timerMu"
    match loop_timer L o with
    | None => ret o
    | Some _ => loop_armed L o
    end.

(** The method the stopping goroutine runs, as one function. *)
Definition stopping (o : Obj) : M Ext Obj :=
  locked "timerMu"
    match loop_timer L o with
    | None => ret o
    | Some h => loop_stop L o h
    end.

End Steps.

Definition is_fire (a : Action) : bool :=
  match a with
  | Fire _ => true
  | _ => false
  end.

Definition stop_done {Ext Obj : Type} (s : Sys Ext Obj) : Prop :=
  stopper s = AtUnlock \/ stopper s = Finished.

Definition settled {Ext Obj : Type} (s : Sys Ext Obj) : Prop :=
  stopper s = Finished /\ Forall (fun pc => pc = Finished) (callbacks s).

Definition pending (ts : list Timer) (h : nat) : Prop :=
  exists t, ts !! h = Some t /\ t_status t = Pending.


(** The part of a method before its work, and its critical section. *)
Definition prework (pc : PC) : Prop := pc = AtLock \/ pc = AtCheck \/ pc = AtWork.

Definition in_crit (pc : PC) : Prop := pc = AtCheck \/ pc = AtWork \/ pc = AtUnlock.

(** What the race needs of a loop: its callback, run armed, either adds
    one pending timer and makes it the current one, or panics leaving
    the timers alone; its stop, run armed, stops the current timer and
    clears the field. *)
Definition LoopOk {Ext Obj : Type} (L : Loop Ext Obj) : Prop :=
  (forall o w,
     (exists o' w' t,
        loop_armed L o w = Done o' w' /\
        timers w' = timers w ++ [t] /\
        t_status t = Pending /\
        loop_timer L o' = Some (length (timers w))) \/
     (exists w', loop_armed L o w = Fault w' /\ timers w' = timers w)) /\
  (forall o h w,
     exists o' w',
       loop_stop L o h w = Done o' w' /\
       loop_timer L o' = None /\
       timers w' = alter stop_timer h (timers w)).

Section Outcome.
Context {Ext Obj : Type}.


End Outcome.

End Race.

(** ** A simulated environment

Scripted collaborators on a concrete external state: a settable
clock, a list of random draws, an in-memory cache and store that can
be switched to unreachable, and canned answers of the authority and
of the OCSP responder.  It instantiates both classes, so the embedded
code can be run on concrete inputs. *)

Module Sim.

Record Ext : Type := {
  clock : Z;
  draws : list Z;                              (* raw random outputs *)
  cache : gmap string tls.Certificate;         (* the Manager's cache *)
  cacheDown : bool;
  authority : Result (list bytes * x509.Certificate);
  responder : Result (bytes * ocsp.Response);
  store : gmap string bytes;                   (* Cfg.Storage.Cache *)
  storeDown : bool;
  keygen : Result Signer
}.

Definition unreachable : error := ErrOther "dial tcp: connection refused".

Definition take_draw (n : Z) (x : Ext) : Z * Ext :=
  match draws x with
  | [] => (0 mod n, x)
  | r :: rs =>
      (r mod n,
       {| clock := clock x; draws := rs; cache := cache x;
          cacheDown := cacheDown x; authority := authority x;
          responder := responder x; store := store x;
          storeDown := storeDown x; keygen := keygen x |})
  end.

Definition cache_get (d : string) (x : Ext) : Result tls.Certificate * Ext :=
  if cacheDown x then (Err unreachable, x)
  else match cache x !! d with
       | Some c => (Ok c, x)
       | None => (Err ErrCacheMiss, x)
       end.

Definition cache_put (d : string) (c : tls.Certificate) (x : Ext)
    : option error * Ext :=
  if cacheDown x then (Some unreachable, x)
  else (None,
        {| clock := clock x; draws := draws x; cache := <[d := c]> (cache x);
           cacheDown := cacheDown x; authority := authority x;
           responder := responder x; store := store x;
           storeDown := storeDown x; keygen := keygen x |}).

(** [certState.tlscert] as autocert has it: it needs a certificate chain. *)
Definition state_tlscert (s : certState) : Result tls.Certificate :=
  match cert s with
  | [] => Err (ErrOther "acme/autocert: missing certificate")
  | _ => Ok {| tls.Chain := cert s; tls.PrivateKey := key s; tls.Leaf := leaf s |}
  end.

Definition store_get (k : string) (x : Ext) : Result bytes * Ext :=
  if storeDown x then (Err unreachable, x)
  else match store x !! k with
       | Some b => (Ok b, x)
       | None => (Err ErrCacheMiss, x)
       end.

Definition store_put (k : string) (b : bytes) (x : Ext) : option error * Ext :=
  if storeDown x then (Some unreachable, x)
  else (None,
        {| clock := clock x; draws := draws x; cache := cache x;
           cacheDown := cacheDown x; authority := authority x;
           responder := responder x; store := <[k := b]> (store x);
           storeDown := storeDown x; keygen := keygen x |}).

(** A toy text encoding: a key block is ["K"; id], and cannot be
    written for a key whose id is not a byte; a certificate block is
    ["C"; serial]. *)
Definition encode_key (k : Signer) : bytes :=
  if (0 <=? key_id k) && (key_id k <? 256)
  then [Byte.x4b; default Byte.x00 (Byte.of_N (Z.to_N (key_id k)))]
  else [].

Definition encode_block (ty : string) (der : bytes) : bytes := Byte.x43 :: der.

Definition parsed_leaf (serial : Byte.byte) : x509.Certificate :=
  {| x509.SerialNumber := Z.of_N (Byte.to_N serial);
     x509.Organization := [];
     x509.NotBefore := 0;
     x509.NotAfter := 0;
     x509.KeyUsage := 0;
     x509.ExtKeyUsages := [];
     x509.BasicConstraintsValid := true |}.

Definition parse (data : bytes) : option tls.Certificate * option error :=
  match data with
  | Byte.x4b :: k :: Byte.x43 :: s :: _ =>
      (Some {| tls.Chain := [[s]];
               tls.PrivateKey := {| key_id := Z.of_N (Byte.to_N k) |};
               tls.Leaf := parsed_leaf s |}, None)
  | _ => (None, Some (ErrOther "tls: failed to find any PEM data in key input"))
  end.

Definition create_certificate (tmpl : x509.Certificate) (k : Signer) (x : Ext)
    : Result bytes * Ext :=
  (Ok [default Byte.x00 (Byte.of_N (Z.to_N (x509.SerialNumber tmpl mod 256)))], x).

Lemma take_draw_range (n : Z) (x : Ext) : 0 < n -> 0 <= fst (take_draw n x) < n.
Proof.
  intros Hn. unfold take_draw. destruct (draws x); simpl; apply Z.mod_pos_bound; lia.
Qed.

#[global] Instance autocert : AutocertEnv Ext := {|
  timeNow := fun x => (clock x, x);
  int63n := take_draw;
  int63n_range := take_draw_range;
  cacheGet := fun _ => cache_get;
  cachePut := fun _ => cache_put;
  authorizedCert := fun _ _ _ x => (authority x, x);
  tlscert := state_tlscert;
  updateOCSPStapling := fun _ _ _ x => (responder x, x)
|}.

#[global] Instance server : ServerEnv Ext := {|
  storage_Get := store_get;
  storage_Put := store_put;
  parseCertificate := parse;
  ecdsa_GenerateKey := fun x => (keygen x, x);
  rand_Int := fun lim x => (Ok (fst (take_draw lim x)), snd (take_draw lim x));
  time_Now := fun x => (clock x, x);
  x509_CreateCertificate := create_certificate;
  pem_EncodeToMemory := encode_block;
  EncodeECDSAKey := encode_key;
  checkHostIsValid := fun _ x => (None, x)
|}.

End Sim.

(** ** Concrete scenarios in the simulated environment *)

Module Scenario.

Definition day : Z := 24 * GoTime.Hour.

Definition leaf_until (notAfter : Z) : x509.Certificate :=
  {| x509.SerialNumber := 1;
     x509.Organization := [];
     x509.NotBefore := 0;
     x509.NotAfter := notAfter;
     x509.KeyUsage := 0;
     x509.ExtKeyUsages := [];
     x509.BasicConstraintsValid := true |}.

Definition cert_until (notAfter : Z) : tls.Certificate :=
  {| tls.Chain := [[Byte.x01]];
     tls.PrivateKey := {| key_id := 7 |};
     tls.Leaf := leaf_until notAfter |}.

(** The clock reads 0, every jitter draw is 0, the cache and the store
    are empty and reachable, the authority issues a 90-day certificate
    and the responder answers with a staple good for 7 days. *)
Definition ext0 : Sim.Ext :=
  {| Sim.clock := 0;
     Sim.draws := [];
     Sim.cache := ∅;
     Sim.cacheDown := false;
     Sim.authority := Ok ([[Byte.x02]], leaf_until (90 * day));
     Sim.responder := Ok ([Byte.x03], {| ocsp.NextUpdate := 7 * day |});
     Sim.store := ∅;
     Sim.storeDown := false;
     Sim.keygen := Ok {| key_id := 7 |} |}.

(** [ext0] with the domain's certificate in the cache. *)
Definition ext_cached (c : tls.Certificate) : Sim.Ext :=
  {| Sim.clock := 0;
     Sim.draws := [];
     Sim.cache := {[ "example.com"%string := c ]};
     Sim.cacheDown := false;
     Sim.authority := Ok ([[Byte.x02]], leaf_until (90 * day));
     Sim.responder := Ok ([Byte.x03], {| ocsp.NextUpdate := 7 * day |});
     Sim.store := ∅;
     Sim.storeDown := false;
     Sim.keygen := Ok {| key_id := 7 |} |}.

(** [ext0] with the cache backend unreachable. *)
Definition ext_cache_down : Sim.Ext :=
  {| Sim.clock := 0;
     Sim.draws := [];
     Sim.cache := ∅;
     Sim.cacheDown := true;
     Sim.authority := Ok ([[Byte.x02]], leaf_until (90 * day));
     Sim.responder := Ok ([Byte.x03], {| ocsp.NextUpdate := 7 * day |});
     Sim.store := ∅;
     Sim.storeDown := false;
     Sim.keygen := Ok {| key_id := 7 |} |}.

(** [ext0] with the authority and the responder failing. *)
Definition ext_failing : Sim.Ext :=
  {| Sim.clock := 0;
     Sim.draws := [4000000000000];
     Sim.cache := ∅;
     Sim.cacheDown := false;
     Sim.authority := Err (ErrOther "acme: rate limited");
     Sim.responder := Err (ErrOther "ocsp: responder unavailable");
     Sim.store := ∅;
     Sim.storeDown := false;
     Sim.keygen := Ok {| key_id := 7 |} |}.

Definition manager0 : Manager :=
  {| state := ∅; ocspStates := ∅; renewBefore := 30 * day |}.

Definition ocsp0 : ocspState :=
  {| ocsp_leaf := leaf_until (90 * day);
     ocsp_issuer := leaf_until (3650 * day);
     ocspDER := [];
     nextUpdate := 0 |}.

Definition manager_ocsp : Manager :=
  {| state := ∅;
     ocspStates := {[ "example.com"%string := ocsp0 ]};
     renewBefore := 30 * day |}.

Definition cfg0 : Cfg.SelfSigned :=
  {| Cfg.Enable := true;
     Cfg.CheckSNI := false;
     Cfg.ValidDays := 3650;
     Cfg.Organization := ["SSL Cert Server Self-Signed"%string];
     Cfg.CertKey := "self_signed" |}.

Definition world (x : Sim.Ext) (m : Manager) (ts : list Timer) : World Sim.Ext :=
  mkWorld x [] ts m None cfg0.

Definition dr_idle : domainRenewal.t :=
  {| domainRenewal.domain := "example.com";
     domainRenewal.key := {| key_id := 7 |};
     domainRenewal.timer := None |}.

(** A scheduler whose timer 0 has just fired. *)
Definition dr_armed : domainRenewal.t :=
  {| domainRenewal.domain := "example.com";
     domainRenewal.key := {| key_id := 7 |};
     domainRenewal.timer := Some 0%nat |}.

Definition ou_armed : ocspUpdater.t :=
  {| ocspUpdater.domain := "example.com"; ocspUpdater.timer := Some 0%nat |}.

Definition fired (f : Callback) : list Timer :=
  [ {| t_after := 0; t_func := f; t_status := Fired |} ].

(** [ext0] with a key generator whose keys the encoder cannot write. *)
Definition ext_bad_key : Sim.Ext :=
  {| Sim.clock := 0;
     Sim.draws := [];
     Sim.cache := ∅;
     Sim.cacheDown := false;
     Sim.authority := Ok ([[Byte.x02]], leaf_until (90 * day));
     Sim.responder := Ok ([Byte.x03], {| ocsp.NextUpdate := 7 * day |});
     Sim.store := ∅;
     Sim.storeDown := false;
     Sim.keygen := Ok {| key_id := 1000 |} |}.


(** A new process on the store a previous one left behind: the singleton
    is unset again, the next key and serial number are fresh. *)
Definition restarted (x : Sim.Ext) : World Sim.Ext :=
  mkWorld
    {| Sim.clock := Sim.clock x;
       Sim.draws := [5];
       Sim.cache := Sim.cache x;
       Sim.cacheDown := Sim.cacheDown x;
       Sim.authority := Sim.authority x;
       Sim.responder := Sim.responder x;
       Sim.store := Sim.store x;
       Sim.storeDown := Sim.storeDown x;
       Sim.keygen := Ok {| key_id := 9 |} |}
    [] [] manager0 None cfg0.

End Scenario.

(** ** Vocabulary of the statements *)

(** The clamp at the end of [next]. *)
Definition clamp (d : Z) : Z := if d <? 0 then 0 else d.


(** The calls a generation can make: the key, the certificate, and one
    write to the store under the configured key. *)
Definition generation_event (k : string) (e : Event) : Prop :=
  e = EvGenerateKey \/ e = EvCreateCertificate \/ exists data, e = EvStorePut k data.


Section Vocabulary.
Context {Ext : Type}.

(** An attempt creates no timer, stops none, and changes nothing of the
    Manager but [state]. *)
Definition frame (w w' : World Ext) : Prop :=
  timers w' = timers w /\
  ocspStates (mgr w') = ocspStates (mgr w) /\
  renewBefore (mgr w') = renewBefore (mgr w) /\
  selfSignedCert w' = selfSignedCert w /\
  cfg w' = cfg w.

(** The world [do] is in once [cacheGet] has answered. *)
Definition after_cacheGet (dr : domainRenewal.t) (x1 : Ext) (w : World Ext) : World Ext :=
  set_ext x1 (set_trace (EvCacheGet (domainRenewal.domain dr) :: trace w) w).

(** The world once [timerMu] is taken. *)
Definition under_timerMu (w : World Ext) : World Ext :=
  set_trace (EvLock "timerMu" :: trace w) w.

(** The world the slow path is in once the store has answered the
    lookup under [k]. *)
Definition after_lookup (k : string) (x1 : Ext) (w : World Ext) : World Ext :=
  set_ext x1 (set_trace (EvStoreGet k :: EvLock "selfSignedMu" :: trace w) w).

End Vocabulary.

(** ** Further vocabulary *)

(** The timer table after [t.Stop()] on the handle in a timer field, if any. *)
Definition stopped_timers (o : option nat) (ts : list Timer) : list Timer :=
  match o with
  | Some h => alter stop_timer h ts
  | None => ts
  end.

(** The world after a method that took and released [mu] and did
    nothing else. *)
Definition lock_unlock {Ext : Type} (mu : string) (w : World Ext) : World Ext :=
  set_trace (EvUnlock mu :: EvLock mu :: trace w) w.

(** The interval the updater's [next] computes, in full. *)
Definition ocsp_interval {Ext : Type} `{!AutocertEnv Ext} (E : Z) (x : Ext) : Z :=
  clamp (GoTime.wrap64
    (GoTime.wrap64 (GoTime.Sub E (fst (timeNow x)) - 48 * GoTime.Hour)
     - fst (int63n renewJitter (snd (timeNow x))))).

(** The certificate [CreateSelfSignedCertificate] asks to be signed with
    its own key, for a serial number and a reading of the clock. *)
Definition selfSignedTemplate (validDays : Z) (organization : list string)
    (serialNumber now : Z) : x509.Certificate :=
  let validDuration :=
    GoTime.wrap64 (GoTime.wrap64 (validDays * 24) * GoTime.Hour) in
  {| x509.SerialNumber := serialNumber;
     x509.Organization := organization;
     x509.NotBefore := now;
     x509.NotAfter := GoTime.Add now validDuration;
     x509.KeyUsage :=
       Z.lor (Z.lor x509.KeyUsageDigitalSignature x509.KeyUsageKeyEncipherment)
             x509.KeyUsageCertSign;
     x509.ExtKeyUsages :=
       [x509.ExtKeyUsageClientAuth; x509.ExtKeyUsageServerAuth];
     x509.BasicConstraintsValid := true |}.

(** Counting, for the race: the timer expiries of a schedule and the
    callbacks that have not yet got to their work. *)
Definition fires (sched : list Race.Action) : nat :=
  length (filter (fun a => Race.is_fire a = true) sched).

Definition is_prework (pc : Race.PC) : bool :=
  match pc with
  | Race.AtLock | Race.AtCheck | Race.AtWork => true
  | _ => false
  end.

Definition waiting (cbs : list Race.PC) : nat :=
  length (filter (fun pc => is_prework pc = true) cbs).

(** Attempts made and attempts still to come never exceed the budget
    [n]: one for the callback the race starts with, one more for every
    timer expiry since; and every timer created was created by an
    attempt. *)
Definition within_budget {Ext Obj : Type} (n0 n : nat) (s : Race.Sys Ext Obj) : Prop :=
  (Race.crashed s = false ->
   (Race.attempts s + waiting (Race.callbacks s) <= n)%nat) /\
  (Race.attempts s <= n)%nat /\
  (length (timers (Race.world s)) <= n0 + Race.attempts s)%nat.

(** Further scenarios in the simulated environment. *)
Module Cases.

Definition ou_idle : ocspUpdater.t :=
  {| ocspUpdater.domain := "example.com"; ocspUpdater.timer := None |}.

(** [Scenario.ext0] with a key generator that fails. *)
Definition ext_no_keygen : Sim.Ext :=
  {| Sim.clock := 0;
     Sim.draws := [];
     Sim.cache := ∅;
     Sim.cacheDown := false;
     Sim.authority := Ok ([[Byte.x02]], Scenario.leaf_until (90 * Scenario.day));
     Sim.responder := Ok ([Byte.x03], {| ocsp.NextUpdate := 7 * Scenario.day |});
     Sim.store := ∅;
     Sim.storeDown := false;
     Sim.keygen := Err (ErrOther "ecdsa: entropy source failed") |}.

(** [Scenario.ext0] with a pair saved in the store under the name of the
    domain that is asked for. *)
Definition ext_stored : Sim.Ext :=
  {| Sim.clock := 0;
     Sim.draws := [];
     Sim.cache := ∅;
     Sim.cacheDown := false;
     Sim.authority := Ok ([[Byte.x02]], Scenario.leaf_until (90 * Scenario.day));
     Sim.responder := Ok ([Byte.x03], {| ocsp.NextUpdate := 7 * Scenario.day |});
     Sim.store := {[ "test.local"%string := [Byte.x4b; Byte.x07; Byte.x43; Byte.x05] ]};
     Sim.storeDown := false;
     Sim.keygen := Ok {| key_id := 7 |} |}.

(** The renewal callback runs to its end and re-arms; the new timer
    expires and its callback runs to its end as well. *)
Definition two_rounds : list Race.Action :=
  repeat (Race.RunCb 0) 4 ++ [Race.Fire 1] ++ repeat (Race.RunCb 1) 4.

(** [Scenario.ext0] with an authority whose certificates are good for
    10 days: inside the 30-day window as soon as they are issued. *)
Definition ext_short_lived : Sim.Ext :=
  {| Sim.clock := 0;
     Sim.draws := [];
     Sim.cache := ∅;
     Sim.cacheDown := false;
     Sim.authority := Ok ([[Byte.x02]], Scenario.leaf_until (10 * Scenario.day));
     Sim.responder := Ok ([Byte.x03], {| ocsp.NextUpdate := 7 * Scenario.day |});
     Sim.store := ∅;
     Sim.storeDown := false;
     Sim.keygen := Ok {| key_id := 7 |} |}.

(** The timer of [f] has just fired; beside it a timer of [g], which
    belongs to another object, is pending. *)
Definition beside (f g : Callback) : list Timer :=
  [ {| t_after := 0; t_func := f; t_status := Fired |};
    {| t_after := 7 * Scenario.day; t_func := g; t_status := Pending |} ].

(** A third round: the timer the second callback armed expires and its
    callback runs to its end. *)
Definition three_rounds : list Race.Action :=
  two_rounds ++ [Race.Fire 2] ++ repeat (Race.RunCb 2) 4.

End Cases.

(** ** The race in a process that has other timers

    The same goroutines, in a process whose timer table holds the
    timers of other objects as well.  The timers of an object are those
    that carry its callback: [time.AfterFunc(next, dr.renew)] binds the
    method to [dr].  A move of the runtime launches the object's
    callback only for one of its own timers; the timers of the others
    stay as they are, pending or not, and their goroutines, which touch
    neither [timerMu] nor the timer field nor the timers of this
    object, are left out. *)

Module Cancel.

Definition renewalFunc (dr : domainRenewal.t) : Callback :=
  CbRenew (domainRenewal.domain dr).

Definition ocspFunc (ou : ocspUpdater.t) : Callback :=
  CbUpdate (ocspUpdater.domain ou).

Definition mine (f : Callback) (t : Timer) : bool := bool_decide (t_func t = f).

(** Timer [h] is pending and carries [f]. *)
Definition armed (f : Callback) (ts : list Timer) (h : nat) : Prop :=
  exists t, ts !! h = Some t /\ t_status t = Pending /\ t_func t = f.

Section Moves.
Context {Ext Obj : Type} (L : Loop Ext Obj) (func : Obj -> Callback).

(** A pending timer of the object expires. *)
Definition expire (h : nat) (s : Race.Sys Ext Obj) : option (Race.Sys Ext Obj) :=
  match timers (Race.world s) !! h with
  | Some t => if mine (func (Race.obj s)) t then Race.step_fire h s else None
  | None => None
  end.

Definition move (a : Race.Action) (s : Race.Sys Ext Obj) : option (Race.Sys Ext Obj) :=
  if Race.crashed s then None
  else match a with
       | Race.RunStop => Race.step_stop L s
       | Race.RunCb i => Race.step_cb L i s
       | Race.Fire h => expire h s
       end.

Fixpoint run (sched : list Race.Action) (s : Race.Sys Ext Obj)
    : option (Race.Sys Ext Obj) :=
  match sched with
  | [] => Some s
  | a :: rest =>
      match move a s with
      | Some s' => run rest s'
      | None => None
      end
  end.

(** What the race needs of a loop: its callback, run armed, either adds
    one pending timer of the object and makes it the current one, or
    panics leaving the timers alone; its stop, run armed, stops the
    current timer and clears the field; neither changes whose the
    object's timers are. *)
Definition OwnerOk : Prop :=
  (forall o w,
     (exists o' w' t,
        loop_armed L o w = Done o' w' /\
        timers w' = timers w ++ [t] /\
        t_status t = Pending /\
        t_func t = func o /\
        loop_timer L o' = Some (length (timers w)) /\
        func o' = func o) \/
     (exists w', loop_armed L o w = Fault w' /\ timers w' = timers w)) /\
  (forall o h w,
     exists o' w',
       loop_stop L o h w = Done o' w' /\
       loop_timer L o' = None /\
       timers w' = alter stop_timer h (timers w) /\
       func o' = func o).

(** The invariant of the race. *)
Record Safe (s : Race.Sys Ext Obj) : Prop := {
  safe_mutex_stop :
    Race.in_crit (Race.stopper s) <-> Race.mutex s = Some Race.HStop;
  safe_mutex_cb : forall i pc,
    Race.callbacks s !! i = Some pc ->
    (Race.in_crit pc <-> Race.mutex s = Some (Race.HCb i));
  safe_holder : forall i,
    Race.mutex s = Some (Race.HCb i) -> is_Some (Race.callbacks s !! i);
  (** a pending timer of the object and a callback yet to work never
      coexist *)
  safe_token : forall h i pc,
    armed (func (Race.obj s)) (timers (Race.world s)) h ->
    Race.callbacks s !! i = Some pc -> ~ Race.prework pc;
  safe_single : forall i j pci pcj,
    Race.callbacks s !! i = Some pci -> Race.callbacks s !! j = Some pcj ->
    Race.prework pci -> Race.prework pcj -> i = j;
  (** the only timer of the object that can be pending is the one in its
      timer field *)
  safe_current : forall h,
    armed (func (Race.obj s)) (timers (Race.world s)) h ->
    loop_timer L (Race.obj s) = Some h;
  safe_stopped : Race.stop_done s ->
    loop_timer L (Race.obj s) = None /\
    (forall h, ~ armed (func (Race.obj s)) (timers (Race.world s)) h) /\
    (forall i, Race.callbacks s !! i <> Some Race.AtWork)
}.

(** The goroutines of the race are the methods [cb] and [stp]: run
    without interruption from the start of the race, the moves of the
    stopping goroutine compute [stp], which returns, and those of the
    callback compute [cb], counting one attempt when the timer field is
    not nil; where [cb] panics, the process is gone at the point of the
    panic, on the way to the deferred unlock. *)
Definition methods (cb stp : Obj -> M Ext Obj) : Prop :=
  forall (o : Obj) (w : World Ext),
    (exists k o' w',
       stp o w = Done o' w' /\
       run (repeat Race.RunStop k) (Race.racing o w)
       = Some (Race.mkSys o' w' None Race.Finished [Race.AtLock] 0 false)) /\
    (exists k,
       match cb o w with
       | Done o' w' =>
           run (repeat (Race.RunCb 0) k) (Race.racing o w)
           = Some (Race.mkSys o' w' None Race.AtLock [Race.Finished]
                     (match loop_timer L o with Some _ => 1 | None => 0 end) false)
       | Fault w' =>
           exists w1,
             w' = Race.log (EvUnlock "timerMu") w1 /\
             run (repeat (Race.RunCb 0) k) (Race.racing o w)
             = Some (Race.mkSys o w1 (Some (Race.HCb 0)) Race.AtLock
                       [Race.AtWork] 1 true)
       end).

(** What every interleaving of the race ends up with.  [ts0] is the
    timer table the race started from, [sched] the moves made. *)
Definition outcome (ts0 : list Timer) (sched : list Race.Action)
    (s : Race.Sys Ext Obj) : Prop :=
  (* once stop() has done its work the timer field is nil and no timer
     of the object is pending, and it stays so: whatever moves later, no
     callback works and no timer is created *)
  (Race.stop_done s ->
   loop_timer L (Race.obj s) = None /\
   (forall h, ~ armed (func (Race.obj s)) (timers (Race.world s)) h) /\
   (forall more s', run more s = Some s' ->
      loop_timer L (Race.obj s') = None /\
      timers (Race.world s') = timers (Race.world s) /\
      Race.attempts s' = Race.attempts s)) /\
  (* in particular once all have settled *)
  (Race.settled s ->
   loop_timer L (Race.obj s) = None /\
   (forall h, ~ armed (func (Race.obj s)) (timers (Race.world s)) h)) /\
  (* until then: one attempt for the callback the race starts with and
     one for every timer that expired since, and one timer at most for
     every attempt *)
  (Race.attempts s <= 1 + fires sched)%nat /\
  (length (timers (Race.world s)) <= length ts0 + Race.attempts s)%nat.

End Moves.

End Cancel.


(** * Properties *)

(** ** Arithmetic of durations *)

Lemma wrap64_id (z : Z) :
  GoTime.minInt64 <= z <= GoTime.maxInt64 -> GoTime.wrap64 z = z.
Proof.
  unfold GoTime.minInt64, GoTime.maxInt64, GoTime.wrap64. intros Hz.
  rewrite Z.mod_small; lia.
Qed.

Lemma Sub_exact (t u : Z) :
  GoTime.minInt64 <= t - u <= GoTime.maxInt64 -> GoTime.Sub t u = t - u.
Proof.
  intros Hz. unfold GoTime.Sub.
  destruct (Z.ltb_spec (t - u) GoTime.minInt64); [lia|].
  destruct (Z.ltb_spec GoTime.maxInt64 (t - u)); [lia|]. reflexivity.
Qed.

Lemma renewJitter_value : renewJitter = 3600000000000.
Proof. reflexivity. Qed.

Lemma half_jitter_value : Z.quot renewJitter 2 = 1800000000000.
Proof. reflexivity. Qed.

(** ** The clamp of [next] *)

Lemma clamp_nonneg (d : Z) : 0 <= clamp d.
Proof. unfold clamp. destruct (Z.ltb_spec d 0); lia. Qed.

Lemma clamp_max (d : Z) : clamp d = Z.max 0 d.
Proof. unfold clamp. destruct (Z.ltb_spec d 0); lia. Qed.

Section RenewalFacts.
Context {Ext : Type} `{!AutocertEnv Ext}.

(** [next] always returns: it reads the clock, draws the jitter and
    clamps; only the collaborators' state changes. *)
Lemma dr_next_eq (dr : domainRenewal.t) (E : Z) (w : World Ext) :
  domainRenewal.next dr E w =
  Done (clamp (GoTime.wrap64
          (GoTime.wrap64 (GoTime.Sub E (fst (timeNow (ext w))) - renewBefore (mgr w))
           - fst (int63n renewJitter (snd (timeNow (ext w)))))))
       (set_ext (snd (int63n renewJitter (snd (timeNow (ext w))))) w).
Proof.
  unfold domainRenewal.next, bind, ask, get_world, ret, clamp.
  destruct (timeNow (ext w)) as [now x1]; simpl.
  destruct (int63n renewJitter x1) as [n x2]; simpl.
  match goal with |- context [?d <? 0] => destruct (d <? 0) end; reflexivity.
Qed.

Lemma ou_next_eq (ou : ocspUpdater.t) (E : Z) (w : World Ext) :
  ocspUpdater.next ou E w =
  Done (clamp (GoTime.wrap64
          (GoTime.wrap64 (GoTime.Sub E (fst (timeNow (ext w))) - 48 * GoTime.Hour)
           - fst (int63n renewJitter (snd (timeNow (ext w)))))))
       (set_ext (snd (int63n renewJitter (snd (timeNow (ext w))))) w).
Proof.
  unfold ocspUpdater.next, bind, ask, get_world, ret, clamp.
  destruct (timeNow (ext w)) as [now x1]; simpl.
  destruct (int63n renewJitter x1) as [n x2]; simpl.
  match goal with |- context [?d <? 0] => destruct (d <? 0) end; reflexivity.
Qed.

Lemma jitter_range (x : Ext) : 0 <= fst (int63n renewJitter x) < renewJitter.
Proof. apply int63n_range. reflexivity. Qed.

End RenewalFacts.

(** ** [next] *)

Section NextBounds.
Context {Ext : Type} `{!AutocertEnv Ext}.

(** [next] never returns a negative duration, whatever the expiry. *)
Lemma dr_next_nonneg (dr : domainRenewal.t) (E : Z) (w : World Ext) :
  exists d w', domainRenewal.next dr E w = Done d w' /\ 0 <= d.
Proof.
  rewrite dr_next_eq. eexists _, _. split; [reflexivity|]. apply clamp_nonneg.
Qed.

(** C3, amended.  Where the int64 arithmetic does not overflow,
    [next(E)] returns [max 0 (E - now - renewBefore - j)] for the jitter
    [j] drawn from [[0, renewJitter)].  It is non-negative and at least
    [E - now - renewBefore - renewJitter]; it is at most
    [max 0 (E - now - renewBefore)], hence at most [E - now - renewBefore]
    only when that difference is not negative. *)
Theorem next_clamped_bounds (dr : domainRenewal.t) (E : Z) (w : World Ext) :
  let now := fst (timeNow (ext w)) in
  let rb := renewBefore (mgr w) in
  GoTime.minInt64 <= E - now <= GoTime.maxInt64 ->
  GoTime.minInt64 <= E - now - rb - renewJitter ->
  E - now - rb <= GoTime.maxInt64 ->
  exists d j w',
    domainRenewal.next dr E w = Done d w' /\
    0 <= j < renewJitter /\
    d = Z.max 0 (E - now - rb - j) /\
    0 <= d /\
    E - now - rb - renewJitter <= d /\
    d <= Z.max 0 (E - now - rb) /\
    (0 <= E - now - rb -> d <= E - now - rb).
Proof.
  intros now rb Hsub Hlo Hhi.
  rewrite dr_next_eq. fold now. fold rb.
  pose proof (jitter_range (snd (timeNow (ext w)))) as Hj.
  set (j := fst (int63n renewJitter (snd (timeNow (ext w))))) in *.
  exists (clamp (GoTime.wrap64 (GoTime.wrap64 (GoTime.Sub E now - rb) - j))), j.
  eexists. split; [reflexivity|].
  rewrite Sub_exact by assumption.
  rewrite (wrap64_id (E - now - rb)) by lia.
  rewrite wrap64_id by lia.
  rewrite clamp_max. repeat split; lia.
Qed.

End NextBounds.

(** C3, witness: a certificate that expires in 90 days, a 30-day window. *)
Lemma next_clamped_bounds_witness :
  let w := Scenario.world Scenario.ext0 Scenario.manager0 [] in
  let E := 90 * Scenario.day in
  let now := fst (timeNow (ext w)) in
  let rb := renewBefore (mgr w) in
  exists d j w',
    domainRenewal.next Scenario.dr_idle E w = Done d w' /\
    0 <= j < renewJitter /\
    d = Z.max 0 (E - now - rb - j) /\
    0 <= d /\
    E - now - rb - renewJitter <= d /\
    d <= Z.max 0 (E - now - rb) /\
    (0 <= E - now - rb -> d <= E - now - rb).
Proof.
  intros w E now rb.
  apply (next_clamped_bounds Scenario.dr_idle E w);
    vm_compute; try split; congruence.
Defined.

(** C3 as stated fails: a certificate that expires in 5 days under a
    30-day window makes [next] return 0 (fire at once), which is above
    [E - now - renewBefore = -25 days].  The lower bound fails as well
    once [E - now] does not fit a Duration: the subtraction saturates. *)
Lemma next_upper_bound_counterexample :
  let w := Scenario.world Scenario.ext0 Scenario.manager0 [] in
  fst (timeNow (ext w)) = 0 /\
  renewBefore (mgr w) = 30 * Scenario.day /\
  domainRenewal.next Scenario.dr_idle (5 * Scenario.day) w = Done 0 w /\
  ~ (0 <= 5 * Scenario.day - 0 - 30 * Scenario.day) /\
  domainRenewal.next Scenario.dr_idle (10 ^ 20) w
    = Done (GoTime.maxInt64 - 30 * Scenario.day) w /\
  ~ (10 ^ 20 - 0 - 30 * Scenario.day - renewJitter
     <= GoTime.maxInt64 - 30 * Scenario.day).
Proof.
  intros w. repeat split; try reflexivity.
  - vm_compute. intros H. apply H. reflexivity.
  - vm_compute. intros H. apply H. reflexivity.
Qed.

(** ** [do]: what a renewal attempt leaves untouched *)

Section DoFacts.
Context {Ext : Type} `{!AutocertEnv Ext}.

Lemma frame_refl (w : World Ext) : frame w w.
Proof. repeat split. Qed.

Lemma frame_trans (w1 w2 w3 : World Ext) : frame w1 w2 -> frame w2 w3 -> frame w1 w3.
Proof. unfold frame. intuition congruence. Qed.

Lemma do_issue_total (dr : domainRenewal.t) (ctx : Z) (w : World Ext) :
  exists r w', domainRenewal.do_issue dr ctx w = Done r w' /\ frame w w'.
Proof.
  unfold domainRenewal.do_issue, bind, call, ret.
  destruct (authorizedCert ctx (domainRenewal.key dr) (domainRenewal.domain dr) (ext w))
    as [[[der lf]|e] x1]; simpl.
  - destruct (tlscert _) as [c|e]; simpl.
    + destruct (cachePut ctx (domainRenewal.domain dr) c x1) as [pe x2]; simpl.
      unfold locked, bind, put_state. simpl. rewrite dr_next_eq. simpl.
      eexists _, _. split; [reflexivity|]. repeat split.
    + eexists _, _. split; [reflexivity|]. repeat split.
  - eexists _, _. split; [reflexivity|]. repeat split.
Qed.

Lemma do_total (dr : domainRenewal.t) (ctx : Z) (w : World Ext) :
  exists r w', domainRenewal.do dr ctx w = Done r w' /\ frame w w'.
Proof.
  unfold domainRenewal.do, bind, call.
  destruct (cacheGet ctx (domainRenewal.domain dr) (ext w)) as [[c|e] x1]; simpl.
  - rewrite dr_next_eq. simpl. unfold get_world, ret.
    match goal with |- context [if ?b then _ else _] => destruct b end; simpl.
    + eexists _, _. split; [reflexivity|]. repeat split.
    + destruct (do_issue_total dr ctx
        (set_ext (snd (int63n renewJitter (snd (timeNow x1))))
           (set_ext x1 (set_trace (EvCacheGet (domainRenewal.domain dr) :: trace w) w))))
        as (r & w' & Hr & Hf).
      simpl in Hr. rewrite Hr. eexists _, _. split; [reflexivity|].
      destruct Hf as (? & ? & ? & ? & ?). repeat split; assumption.
  - unfold ret.
    destruct (do_issue_total dr ctx
        (set_ext x1 (set_trace (EvCacheGet (domainRenewal.domain dr) :: trace w) w)))
        as (r & w' & Hr & Hf).
    rewrite Hr. eexists _, _. split; [reflexivity|].
    destruct Hf as (? & ? & ? & ? & ?). repeat split; assumption.
Qed.

End DoFacts.

(** ** [do]: the stale check and the issuing path *)

Section DoPaths.
Context {Ext : Type} `{!AutocertEnv Ext}.

(** A cache hit whose recomputed interval exceeds renewBefore + renewJitter:
    [do] returns that interval and goes no further. *)
Lemma do_early (dr : domainRenewal.t) (ctx : Z) (w : World Ext)
    (c : tls.Certificate) (x1 : Ext) (nxt : Z) (w2 : World Ext) :
  cacheGet ctx (domainRenewal.domain dr) (ext w) = (Ok c, x1) ->
  domainRenewal.next dr (x509.NotAfter (tls.Leaf c)) (after_cacheGet dr x1 w)
    = Done nxt w2 ->
  GoTime.wrap64 (renewBefore (mgr w) + renewJitter) < nxt ->
  domainRenewal.do dr ctx w = Done (nxt, None) w2.
Proof.
  intros Hget Hnext Hlt.
  unfold domainRenewal.do, bind, call. rewrite Hget. simpl.
  unfold after_cacheGet in Hnext. rewrite Hnext.
  rewrite dr_next_eq in Hnext. injection Hnext as Hn Hw. subst w2.
  unfold get_world, ret. simpl.
  destruct (Z.ltb_spec (GoTime.wrap64 (renewBefore (mgr w) + renewJitter)) nxt);
    [reflexivity | lia].
Qed.

(** A cache hit whose recomputed interval does not exceed
    renewBefore + renewJitter: [do] goes on to issue. *)
Lemma do_due (dr : domainRenewal.t) (ctx : Z) (w : World Ext)
    (c : tls.Certificate) (x1 : Ext) (nxt : Z) (w2 : World Ext) :
  cacheGet ctx (domainRenewal.domain dr) (ext w) = (Ok c, x1) ->
  domainRenewal.next dr (x509.NotAfter (tls.Leaf c)) (after_cacheGet dr x1 w)
    = Done nxt w2 ->
  nxt <= GoTime.wrap64 (renewBefore (mgr w) + renewJitter) ->
  domainRenewal.do dr ctx w = domainRenewal.do_issue dr ctx w2.
Proof.
  intros Hget Hnext Hle.
  unfold domainRenewal.do, bind, call. rewrite Hget. simpl.
  unfold after_cacheGet in Hnext. rewrite Hnext.
  rewrite dr_next_eq in Hnext. injection Hnext as Hn Hw. subst w2.
  unfold get_world, ret. simpl.
  destruct (Z.ltb_spec (GoTime.wrap64 (renewBefore (mgr w) + renewJitter)) nxt);
    [lia | reflexivity].
Qed.

(** A cache miss, or a cache that cannot be read: [do] goes on to issue. *)
Lemma do_uncached (dr : domainRenewal.t) (ctx : Z) (w : World Ext)
    (e : error) (x1 : Ext) :
  cacheGet ctx (domainRenewal.domain dr) (ext w) = (Err e, x1) ->
  domainRenewal.do dr ctx w = domainRenewal.do_issue dr ctx (after_cacheGet dr x1 w).
Proof.
  intros Hget. unfold domainRenewal.do, bind, call. rewrite Hget. reflexivity.
Qed.

(** Once the certificate is issued and assembled, the issuing path
    installs the new state and reports success whatever [cachePut]
    answers: its result is not looked at. *)
Lemma do_issue_installs (dr : domainRenewal.t) (ctx : Z) (w : World Ext)
    (der : list bytes) (lf : x509.Certificate) (x1 x2 : Ext)
    (c : tls.Certificate) (pe : option error) :
  authorizedCert ctx (domainRenewal.key dr) (domainRenewal.domain dr) (ext w)
    = (Ok (der, lf), x1) ->
  tlscert (Build_certState (domainRenewal.key dr) der lf) = Ok c ->
  cachePut ctx (domainRenewal.domain dr) c x1 = (pe, x2) ->
  exists nxt w',
    domainRenewal.do_issue dr ctx w = Done (nxt, None) w' /\
    state (mgr w') !! domainRenewal.domain dr
      = Some (Build_certState (domainRenewal.key dr) der lf).
Proof.
  intros Hissue Htls Hput.
  unfold domainRenewal.do_issue, bind, call, ret. rewrite Hissue. simpl.
  rewrite Htls. simpl. rewrite Hput. simpl.
  unfold locked, bind, put_state. simpl. rewrite dr_next_eq. simpl.
  eexists _, _. split; [reflexivity|]. simpl. apply lookup_insert_eq.
Qed.

(** C2, amended.  On a cache hit with remaining validity [E - now] greater
    than [2 * renewBefore + renewJitter + j], where [j] is the jitter
    [next] draws, [do] performs no issuance call: it returns the
    recomputed interval [E - now - renewBefore - j] and leaves behind
    nothing but the cache read. *)
Theorem do_short_circuit (dr : domainRenewal.t) (ctx : Z) (w : World Ext)
    (c : tls.Certificate) (x1 : Ext) :
  cacheGet ctx (domainRenewal.domain dr) (ext w) = (Ok c, x1) ->
  let now := fst (timeNow x1) in
  let rb := renewBefore (mgr w) in
  let j := fst (int63n renewJitter (snd (timeNow x1))) in
  let E := x509.NotAfter (tls.Leaf c) in
  0 <= rb ->
  rb + renewJitter <= GoTime.maxInt64 ->
  E - now <= GoTime.maxInt64 ->
  2 * rb + renewJitter + j < E - now ->
  exists w',
    domainRenewal.do dr ctx w = Done (E - now - rb - j, None) w' /\
    rb + renewJitter < E - now - rb - j /\
    trace w' = EvCacheGet (domainRenewal.domain dr) :: trace w /\
    mgr w' = mgr w /\
    timers w' = timers w.
Proof.
  intros Hget now rb j E Hrb Hsum Hhi Hvalid.
  pose proof (jitter_range (snd (timeNow x1))) as Hj. fold j in Hj.
  assert (HJ : renewJitter = 3600000000000) by reflexivity.
  assert (Hmin : GoTime.minInt64 = - 2 ^ 63) by reflexivity.
  assert (Hmax : GoTime.maxInt64 = 2 ^ 63 - 1) by reflexivity.
  assert (Hnext :
    domainRenewal.next dr E (after_cacheGet dr x1 w)
    = Done (E - now - rb - j)
        (set_ext (snd (int63n renewJitter (snd (timeNow x1)))) (after_cacheGet dr x1 w))).
  { rewrite dr_next_eq. simpl. fold now. fold rb. fold j.
    rewrite Sub_exact by lia.
    rewrite (wrap64_id (E - now - rb)) by lia.
    rewrite (wrap64_id (E - now - rb - j)) by lia.
    unfold clamp. destruct (Z.ltb_spec (E - now - rb - j) 0); [lia | reflexivity]. }
  eexists. split.
  - eapply do_early; [exact Hget | exact Hnext |].
    fold rb. rewrite wrap64_id by lia. lia.
  - repeat split. lia.
Qed.

End DoPaths.

(** C2, witness: a cached certificate good for 90 days, a 30-day window. *)
Lemma do_short_circuit_witness :
  let c := Scenario.cert_until (90 * Scenario.day) in
  let w := Scenario.world (Scenario.ext_cached c) Scenario.manager0 [] in
  exists w',
    domainRenewal.do Scenario.dr_idle (10 * GoTime.Minute) w
      = Done (90 * Scenario.day - 0 - 30 * Scenario.day - 0, None) w' /\
    30 * Scenario.day + renewJitter < 90 * Scenario.day - 0 - 30 * Scenario.day - 0 /\
    trace w' = EvCacheGet "example.com" :: trace w /\
    mgr w' = mgr w /\
    timers w' = timers w.
Proof.
  intros c w.
  refine (do_short_circuit Scenario.dr_idle (10 * GoTime.Minute) w c
            (Scenario.ext_cached c) _ _ _ _ _);
    vm_compute; congruence.
Defined.

(** C2 as stated fails: with a 30-day window, a cached certificate that
    is still good for 31 days and 2 hours has remaining validity above
    renewBefore + renewJitter, and [do] issues all the same. *)
Lemma do_short_circuit_counterexample :
  let c := Scenario.cert_until (31 * Scenario.day + 2 * GoTime.Hour) in
  let w := Scenario.world (Scenario.ext_cached c) Scenario.manager0 [] in
  cacheGet (10 * GoTime.Minute) "example.com" (ext w) = (Ok c, ext w) /\
  renewBefore (mgr w) + renewJitter
    < x509.NotAfter (tls.Leaf c) - fst (timeNow (ext w)) /\
  exists r w',
    domainRenewal.do Scenario.dr_idle (10 * GoTime.Minute) w = Done r w' /\
    In (EvIssue "example.com") (trace w').
Proof.
  intros c w. split; [reflexivity|]. split; [reflexivity|].
  eexists _, _. split; [vm_compute; reflexivity|].
  simpl. tauto.
Qed.

(** C1: with the cache backend unreachable, [cachePut] fails, and the
    renewal attempt still reports success and installs the new state. *)
Theorem do_installs_state_despite_cachePut_error :
  let w := Scenario.world Scenario.ext_cache_down Scenario.manager0 [] in
  let st := {| key := {| key_id := 7 |};
               cert := [[Byte.x02]];
               leaf := Scenario.leaf_until (90 * Scenario.day) |} in
  let c := {| tls.Chain := [[Byte.x02]];
              tls.PrivateKey := {| key_id := 7 |};
              tls.Leaf := Scenario.leaf_until (90 * Scenario.day) |} in
  tlscert st = Ok c /\
  cachePut (10 * GoTime.Minute) "example.com" c (ext w)
    = (Some Sim.unreachable, ext w) /\
  exists w',
    domainRenewal.do Scenario.dr_idle (10 * GoTime.Minute) w
      = Done (60 * Scenario.day, None) w' /\
    state (mgr w') !! "example.com" = Some st /\
    trace w' = [EvUnlock "stateMu"; EvLock "stateMu"; EvCachePut "example.com";
                EvIssue "example.com"; EvCacheGet "example.com"].
Proof.
  intros w st c. split; [reflexivity|]. split; [reflexivity|].
  eexists. split; [vm_compute; reflexivity|].
  split; [vm_compute; reflexivity | reflexivity].
Qed.

(** ** The timer callbacks *)

Section Callbacks.
Context {Ext : Type} `{!AutocertEnv Ext}.

Lemma backoff_eq (w : World Ext) :
  backoff w =
  Done (Z.quot renewJitter 2 + fst (int63n (Z.quot renewJitter 2) (ext w)))
       (set_ext (snd (int63n (Z.quot renewJitter 2) (ext w))) w).
Proof.
  unfold backoff, bind, ask, ret.
  pose proof (int63n_range (Z.quot renewJitter 2) (ext w) eq_refl) as Hj.
  destruct (int63n (Z.quot renewJitter 2) (ext w)) as [j x]. simpl in *.
  rewrite wrap64_id; [reflexivity|].
  rewrite half_jitter_value in *. unfold GoTime.minInt64, GoTime.maxInt64. lia.
Qed.

(** What an armed [renew] does: one attempt, then one new pending timer
    whose handle becomes [dr.timer]; the interval is the attempt's on
    success and the backoff on failure. *)
Lemma renew_armed_spec (dr : domainRenewal.t) (w : World Ext) :
  exists r w1 nxt w',
    domainRenewal.do dr (10 * GoTime.Minute) w = Done r w1 /\
    domainRenewal.renew_armed dr w
      = Done (domainRenewal.with_timer dr (Some (length (timers w)))) w' /\
    timers w' = timers w ++ [Build_Timer nxt (CbRenew (domainRenewal.domain dr)) Pending] /\
    (snd r = None -> nxt = fst r) /\
    (snd r <> None ->
     exists j, 0 <= j < Z.quot renewJitter 2 /\ nxt = Z.quot renewJitter 2 + j).
Proof.
  destruct (do_total dr (10 * GoTime.Minute) w) as (r & w1 & Hdo & Hf).
  destruct Hf as (Ht & _).
  unfold domainRenewal.renew_armed, bind. rewrite Hdo.
  destruct r as [n [e|]]; simpl.
  - rewrite backoff_eq. unfold AfterFunc, emit, ret. simpl. rewrite Ht.
    eexists _, _, _, _. split; [reflexivity|]. split; [reflexivity|].
    split; [reflexivity|]. split; [discriminate|]. intros _.
    eexists. split; [|reflexivity]. apply int63n_range. reflexivity.
  - unfold AfterFunc, emit, ret. simpl. rewrite Ht.
    eexists _, _, _, _. split; [reflexivity|]. split; [reflexivity|].
    split; [reflexivity|]. split; [reflexivity|]. intros Hc. exfalso. apply Hc. reflexivity.
Qed.

(** An armed [update] whose domain has no entry in [ocspStates] faults
    at once: before any call, any lock, any timer. *)
Lemma update_armed_absent (ou : ocspUpdater.t) (w : World Ext) :
  ocspStates (mgr w) !! ocspUpdater.domain ou = None ->
  ocspUpdater.update_armed ou w = Fault w.
Proof.
  intros Habs. unfold ocspUpdater.update_armed, bind, get_ocspState.
  rewrite Habs. reflexivity.
Qed.

(** An armed [update] whose domain has an entry: one fetch, then one new
    pending timer whose handle becomes [ou.timer]; on failure the
    interval is the backoff. *)
Lemma update_armed_present (ou : ocspUpdater.t) (w : World Ext) (st : ocspState) :
  ocspStates (mgr w) !! ocspUpdater.domain ou = Some st ->
  exists res nxt w',
    fst (updateOCSPStapling (5 * GoTime.Minute) (ocsp_leaf st) (ocsp_issuer st) (ext w))
      = res /\
    ocspUpdater.update_armed ou w
      = Done (ocspUpdater.with_timer ou (Some (length (timers w)))) w' /\
    timers w' = timers w ++ [Build_Timer nxt (CbUpdate (ocspUpdater.domain ou)) Pending] /\
    (forall e, res = Err e ->
     exists j, 0 <= j < Z.quot renewJitter 2 /\ nxt = Z.quot renewJitter 2 + j).
Proof.
  intros Hst. unfold ocspUpdater.update_armed, bind, get_ocspState, call.
  rewrite Hst.
  destruct (updateOCSPStapling (5 * GoTime.Minute) (ocsp_leaf st) (ocsp_issuer st) (ext w))
    as [[[der resp]|e] x1]; simpl.
  - unfold locked, bind, put_ocspState. simpl. rewrite ou_next_eq. simpl.
    eexists _, _, _. split; [reflexivity|]. split; [reflexivity|].
    split; [reflexivity|]. intros e He. discriminate.
  - rewrite backoff_eq. simpl.
    eexists _, _, _. split; [reflexivity|]. split; [reflexivity|].
    split; [reflexivity|]. intros e' _.
    eexists. split; [|reflexivity]. apply int63n_range. reflexivity.
Qed.

(** The same with the draw named: after a failed attempt the interval
    is [renewJitter / 2] plus what [int63n (renewJitter / 2)] returns in
    the state the attempt left the random source in. *)
Lemma renew_armed_run (dr : domainRenewal.t) (w : World Ext) :
  exists r w1 nxt w',
    domainRenewal.do dr (10 * GoTime.Minute) w = Done r w1 /\
    domainRenewal.renew_armed dr w
      = Done (domainRenewal.with_timer dr (Some (length (timers w)))) w' /\
    timers w' = timers w ++ [Build_Timer nxt (CbRenew (domainRenewal.domain dr)) Pending] /\
    (snd r = None -> nxt = fst r) /\
    (snd r <> None ->
     nxt = Z.quot renewJitter 2 + fst (int63n (Z.quot renewJitter 2) (ext w1))).
Proof.
  destruct (do_total dr (10 * GoTime.Minute) w) as (r & w1 & Hdo & Hf).
  destruct Hf as (Ht & _).
  unfold domainRenewal.renew_armed, bind. rewrite Hdo.
  destruct r as [n [e|]]; simpl.
  - rewrite backoff_eq. unfold AfterFunc, emit, ret. simpl. rewrite Ht.
    eexists _, _, _, _. split; [reflexivity|]. split; [reflexivity|].
    split; [reflexivity|]. split; [discriminate|]. intros _. reflexivity.
  - unfold AfterFunc, emit, ret. simpl. rewrite Ht.
    eexists _, _, _, _. split; [reflexivity|]. split; [reflexivity|].
    split; [reflexivity|]. split; [reflexivity|]. intros Hc. exfalso. apply Hc. reflexivity.
Qed.

Lemma update_armed_run (ou : ocspUpdater.t) (w : World Ext) (st : ocspState)
    (res : Result (bytes * ocsp.Response)) (x1 : Ext) :
  ocspStates (mgr w) !! ocspUpdater.domain ou = Some st ->
  updateOCSPStapling (5 * GoTime.Minute) (ocsp_leaf st) (ocsp_issuer st) (ext w)
    = (res, x1) ->
  exists nxt w',
    ocspUpdater.update_armed ou w
      = Done (ocspUpdater.with_timer ou (Some (length (timers w)))) w' /\
    timers w' = timers w ++ [Build_Timer nxt (CbUpdate (ocspUpdater.domain ou)) Pending] /\
    (forall e, res = Err e ->
     nxt = Z.quot renewJitter 2 + fst (int63n (Z.quot renewJitter 2) x1)).
Proof.
  intros Hst Hfetch. unfold ocspUpdater.update_armed, bind, get_ocspState, call.
  rewrite Hst, Hfetch. destruct res as [[der resp]|e]; simpl.
  - unfold locked, bind, put_ocspState. simpl. rewrite ou_next_eq. simpl.
    eexists _, _. split; [reflexivity|]. split; [reflexivity|].
    intros e He. discriminate.
  - rewrite backoff_eq. simpl.
    eexists _, _. split; [reflexivity|]. split; [reflexivity|].
    intros e' _. reflexivity.
Qed.

(** C6, amended.  In every world, every armed [renew], and every armed
    [update] whose domain has an entry in [ocspStates], returns having
    armed exactly one new pending timer, whether the attempt succeeded
    or failed; after a failed attempt the interval is [renewJitter / 2]
    plus the amount [int63n (renewJitter / 2)] draws, which lies in
    [[0, renewJitter / 2)].  The two halves stand on their own: the one
    on [renew] asks nothing of the OCSP states. *)
Theorem callbacks_rearm (w : World Ext) :
  (forall (dr : domainRenewal.t) (hd : nat),
     domainRenewal.timer dr = Some hd ->
     exists r w1 nxt dr' w',
       domainRenewal.do dr (10 * GoTime.Minute) (under_timerMu w) = Done r w1 /\
       domainRenewal.renew dr w = Done dr' w' /\
       domainRenewal.timer dr' = Some (length (timers w)) /\
       timers w' = timers w ++ [Build_Timer nxt (CbRenew (domainRenewal.domain dr)) Pending] /\
       (snd r = None -> nxt = fst r) /\
       (snd r <> None ->
        let j := fst (int63n (Z.quot renewJitter 2) (ext w1)) in
        0 <= j < Z.quot renewJitter 2 /\ nxt = Z.quot renewJitter 2 + j)) /\
  (forall (ou : ocspUpdater.t) (ho : nat) (st : ocspState),
     ocspUpdater.timer ou = Some ho ->
     ocspStates (mgr w) !! ocspUpdater.domain ou = Some st ->
     exists res x1 nxt ou' w',
       updateOCSPStapling (5 * GoTime.Minute) (ocsp_leaf st) (ocsp_issuer st) (ext w)
         = (res, x1) /\
       ocspUpdater.update ou w = Done ou' w' /\
       ocspUpdater.timer ou' = Some (length (timers w)) /\
       timers w' = timers w ++ [Build_Timer nxt (CbUpdate (ocspUpdater.domain ou)) Pending] /\
       (forall e, res = Err e ->
        let j := fst (int63n (Z.quot renewJitter 2) x1) in
        0 <= j < Z.quot renewJitter 2 /\ nxt = Z.quot renewJitter 2 + j)).
Proof.
  split.
  - intros dr hd Hdr.
    destruct (renew_armed_run dr (under_timerMu w))
      as (r & w1 & nxt & w' & Hdo & Hre & Ht & Hok & Hfail).
    unfold domainRenewal.renew, locked. rewrite Hdr.
    fold (under_timerMu w). rewrite Hre.
    eexists r, w1, nxt, _, _. split; [exact Hdo|]. split; [reflexivity|].
    split; [reflexivity|]. split; [exact Ht|]. split; [exact Hok|].
    intros Herr. split; [apply int63n_range; reflexivity | exact (Hfail Herr)].
  - intros ou ho st Hou Hst.
    destruct (updateOCSPStapling (5 * GoTime.Minute) (ocsp_leaf st) (ocsp_issuer st) (ext w))
      as [res x1] eqn:Hfetch.
    destruct (update_armed_run ou (under_timerMu w) st res x1 Hst Hfetch)
      as (nxt & w' & Hup & Ht & Hfail).
    unfold ocspUpdater.update, locked. rewrite Hou.
    fold (under_timerMu w). rewrite Hup.
    eexists res, x1, nxt, _, _. split; [reflexivity|]. split; [reflexivity|].
    split; [reflexivity|]. split; [exact Ht|].
    intros e He. split; [apply int63n_range; reflexivity | exact (Hfail e He)].
Qed.

(** C10.  An armed [update] faults exactly when [ocspStates] has no
    entry for its domain.  When it faults it has armed no timer (it
    neither returns nor backs off), has made no call to the responder
    and has taken no lock but [timerMu]. *)
Theorem update_faults_without_entry (ou : ocspUpdater.t) (w : World Ext) (h : nat) :
  ocspUpdater.timer ou = Some h ->
  (ocspStates (mgr w) !! ocspUpdater.domain ou = None ->
   exists w',
     ocspUpdater.update ou w = Fault w' /\
     timers w' = timers w /\
     mgr w' = mgr w /\
     ext w' = ext w /\
     trace w' = EvUnlock "timerMu" :: EvLock "timerMu" :: trace w) /\
  (is_Some (ocspStates (mgr w) !! ocspUpdater.domain ou) ->
   exists ou' w', ocspUpdater.update ou w = Done ou' w').
Proof.
  intros Hou. split.
  - intros Habs. unfold ocspUpdater.update, locked. rewrite Hou.
    rewrite update_armed_absent by exact Habs.
    eexists. split; [reflexivity|]. repeat split.
  - intros [st Hst].
    destruct (update_armed_present ou (under_timerMu w) st Hst)
      as (res & nxt & w' & _ & Hup & _).
    unfold ocspUpdater.update, locked. rewrite Hou.
    fold (under_timerMu w). rewrite Hup. eexists _, _. reflexivity.
Qed.

(** C8.  [start] on an armed scheduler or updater returns it as it was:
    the timer table, the Manager and the collaborators (clock and random
    source included) are untouched for every expiry; only the taking and
    the release of [timerMu] are on record. *)
Theorem start_armed_noop (dr : domainRenewal.t) (ou : ocspUpdater.t)
    (exp : Z) (w : World Ext) (hd ho : nat) :
  domainRenewal.timer dr = Some hd ->
  ocspUpdater.timer ou = Some ho ->
  domainRenewal.start dr exp w
    = Done dr (set_trace (EvUnlock "timerMu" :: EvLock "timerMu" :: trace w) w) /\
  ocspUpdater.start ou exp w
    = Done ou (set_trace (EvUnlock "timerMu" :: EvLock "timerMu" :: trace w) w) /\
  timers (set_trace (EvUnlock "timerMu" :: EvLock "timerMu" :: trace w) w) = timers w.
Proof.
  intros Hdr Hou.
  unfold domainRenewal.start, ocspUpdater.start, locked. rewrite Hdr, Hou.
  repeat split.
Qed.

End Callbacks.

(** C6, witness: the authority and the responder both fail.  [renew]
    runs in a Manager that has no OCSP state at all, [update] in one
    that has the domain's; both arm timer 1 with the backoff interval. *)
Lemma callbacks_rearm_witness :
  let w0 := Scenario.world Scenario.ext_failing Scenario.manager0
              (Scenario.fired (CbRenew "example.com")) in
  let w := Scenario.world Scenario.ext_failing Scenario.manager_ocsp
             (Scenario.fired (CbUpdate "example.com")) in
  let dr := Scenario.dr_armed in
  let ou := Scenario.ou_armed in
  let st := Scenario.ocsp0 in
  (exists r w1 nxt dr' w',
     domainRenewal.do dr (10 * GoTime.Minute) (under_timerMu w0) = Done r w1 /\
     domainRenewal.renew dr w0 = Done dr' w' /\
     domainRenewal.timer dr' = Some (length (timers w0)) /\
     timers w' = timers w0 ++ [Build_Timer nxt (CbRenew (domainRenewal.domain dr)) Pending] /\
     (snd r = None -> nxt = fst r) /\
     (snd r <> None ->
      let j := fst (int63n (Z.quot renewJitter 2) (ext w1)) in
      0 <= j < Z.quot renewJitter 2 /\ nxt = Z.quot renewJitter 2 + j)) /\
  (exists res x1 nxt ou' w',
     updateOCSPStapling (5 * GoTime.Minute) (ocsp_leaf st) (ocsp_issuer st) (ext w)
       = (res, x1) /\
     ocspUpdater.update ou w = Done ou' w' /\
     ocspUpdater.timer ou' = Some (length (timers w)) /\
     timers w' = timers w ++ [Build_Timer nxt (CbUpdate (ocspUpdater.domain ou)) Pending] /\
     (forall e, res = Err e ->
      let j := fst (int63n (Z.quot renewJitter 2) x1) in
      0 <= j < Z.quot renewJitter 2 /\ nxt = Z.quot renewJitter 2 + j)).
Proof.
  intros w0 w dr ou st. split.
  - refine (proj1 (callbacks_rearm w0) dr 0%nat _). reflexivity.
  - refine (proj2 (callbacks_rearm w) ou 0%nat st _ _); reflexivity.
Defined.

(** C6 as stated fails for [update]: an armed updater whose domain has
    no entry in [ocspStates] faults and arms nothing. *)
Lemma update_rearm_counterexample :
  let w := Scenario.world Scenario.ext_failing Scenario.manager0
             (Scenario.fired (CbUpdate "example.com")) in
  ocspUpdater.timer Scenario.ou_armed = Some 0%nat /\
  exists w',
    ocspUpdater.update Scenario.ou_armed w = Fault w' /\
    timers w' = Scenario.fired (CbUpdate "example.com").
Proof.
  intros w. split; [reflexivity|].
  eexists. split; [vm_compute; reflexivity | reflexivity].
Qed.

(** C10, witness: an armed updater, an empty [ocspStates]. *)
Lemma update_faults_without_entry_witness :
  let w := Scenario.world Scenario.ext0 Scenario.manager0
             (Scenario.fired (CbUpdate "example.com")) in
  exists w',
    ocspUpdater.update Scenario.ou_armed w = Fault w' /\
    timers w' = timers w /\
    mgr w' = mgr w /\
    ext w' = ext w /\
    trace w' = EvUnlock "timerMu" :: EvLock "timerMu" :: trace w.
Proof.
  intros w.
  exact (proj1 (update_faults_without_entry Scenario.ou_armed w 0%nat eq_refl) eq_refl).
Defined.

(** C8, witness: both armed on timer 0, a second start with a 90-day expiry. *)
Lemma start_armed_noop_witness :
  let w := Scenario.world Scenario.ext0 Scenario.manager0
             (Scenario.fired (CbRenew "example.com")) in
  domainRenewal.start Scenario.dr_armed (90 * Scenario.day) w
    = Done Scenario.dr_armed
        (set_trace (EvUnlock "timerMu" :: EvLock "timerMu" :: trace w) w) /\
  ocspUpdater.start Scenario.ou_armed (90 * Scenario.day) w
    = Done Scenario.ou_armed
        (set_trace (EvUnlock "timerMu" :: EvLock "timerMu" :: trace w) w) /\
  timers (set_trace (EvUnlock "timerMu" :: EvLock "timerMu" :: trace w) w) = timers w.
Proof.
  intros w.
  refine (start_armed_noop Scenario.dr_armed Scenario.ou_armed (90 * Scenario.day) w
            0%nat 0%nat _ _); reflexivity.
Defined.

(** ** Self-signed provisioning *)

Section Provisioning.
Context {Ext : Type} `{!ServerEnv Ext}.

(** Generating the pair always returns, starts with the key generation
    and writes nothing to the store. *)
Lemma CreateSelfSignedCertificate_total (validDays : Z) (org : list string)
    (w : World Ext) :
  exists r w' evs,
    server.CreateSelfSignedCertificate validDays org w = Done r w' /\
    trace w' = evs ++ EvGenerateKey :: trace w /\
    Forall (fun e => e = EvCreateCertificate) evs /\
    selfSignedCert w' = selfSignedCert w /\
    cfg w' = cfg w.
Proof.
  unfold server.CreateSelfSignedCertificate, bind, call, ask, ret.
  destruct (ecdsa_GenerateKey (ext w)) as [[k|e] x1]; simpl.
  - destruct (rand_Int (Z.shiftl 1 128) x1) as [[sn|e] x2]; simpl.
    + destruct (time_Now x2) as [now x3]; simpl.
      match goal with
      | |- context [x509_CreateCertificate ?t ?k ?x] =>
          destruct (x509_CreateCertificate t k x) as [[cb|e] x4]
      end; simpl.
      * eexists _, _, [EvCreateCertificate]. split; [reflexivity|].
        split; [reflexivity|]. split; [repeat constructor|]. split; reflexivity.
      * eexists _, _, [EvCreateCertificate]. split; [reflexivity|].
        split; [reflexivity|]. split; [repeat constructor|]. split; reflexivity.
    + eexists _, _, []. split; [reflexivity|].
      split; [reflexivity|]. split; [constructor|]. split; reflexivity.
  - eexists _, _, []. split; [reflexivity|].
    split; [reflexivity|]. split; [constructor|]. split; reflexivity.
Qed.

(** Generating and saving always returns; it starts with the key
    generation, every call it makes belongs to a generation, it writes
    to the store under [Cfg.SelfSigned.CertKey] only, and it does not
    touch the singleton. *)
Lemma createAndSave_total (w : World Ext) :
  exists r w' evs,
    server.createAndSaveSelfSignedCertificate w = Done r w' /\
    trace w' = evs ++ EvGenerateKey :: trace w /\
    Forall (generation_event (Cfg.CertKey (cfg w))) evs /\
    selfSignedCert w' = selfSignedCert w /\
    cfg w' = cfg w.
Proof.
  unfold server.createAndSaveSelfSignedCertificate, bind, get_world.
  destruct (CreateSelfSignedCertificate_total (Cfg.ValidDays (cfg w))
              (Cfg.Organization (cfg w)) w)
    as (r & w1 & evs & Hc & Ht & Hevs & Hs & Hcfg).
  rewrite Hc. destruct r as [[certPEM privKeyPEM] [e|]].
  - unfold ret. eexists _, _, evs. split; [reflexivity|]. split; [exact Ht|].
    split; [|split; assumption].
    eapply Forall_impl; [exact Hevs|]. intros ev Hev. right; left; exact Hev.
  - unfold call, ret.
    destruct (storage_Put (Cfg.CertKey (cfg w)) (privKeyPEM ++ certPEM) (ext w1))
      as [[pe|] x2]; simpl.
    + eexists _, _, (EvStorePut (Cfg.CertKey (cfg w)) (privKeyPEM ++ certPEM) :: evs).
      split; [reflexivity|]. simpl. rewrite Ht. split; [reflexivity|].
      split; [|split; assumption].
      constructor; [right; right; eexists; reflexivity|].
      eapply Forall_impl; [exact Hevs|]. intros ev Hev. right; left; exact Hev.
    + eexists _, _, (EvStorePut (Cfg.CertKey (cfg w)) (privKeyPEM ++ certPEM) :: evs).
      split; [reflexivity|]. simpl. rewrite Ht. split; [reflexivity|].
      split; [|split; assumption].
      constructor; [right; right; eexists; reflexivity|].
      eapply Forall_impl; [exact Hevs|]. intros ev Hev. right; left; exact Hev.
Qed.


End Provisioning.

Section Singleton.
Context {Ext : Type} `{!ServerEnv Ext}.

(** Once a value is stored in the singleton, a nil pointer included,
    every call returns it from the fast path and touches nothing. *)
Lemma fast_path (domain : string) (w : World Ext) (c : option tls.Certificate) :
  selfSignedCert w = Some c ->
  server.GetSelfSignedCertificate domain w = Done (c, None) w.
Proof.
  intros Hset. unfold server.GetSelfSignedCertificate, bind, get_world.
  rewrite Hset. reflexivity.
Qed.

(** C9.  With the singleton unset and nothing in the store, if the pair
    is generated and written to the store but the bytes just written do
    not parse, the call returns a nil certificate with a nil error, the
    nil pointer is installed as the singleton, and every later call, for
    any domain, returns nil and nil as well. *)
Theorem nil_certificate_installed (domain : string) (w : World Ext)
    (x1 x4 : Ext) (certPEM privKeyPEM : bytes) (w3 : World Ext) (perr : error) :
  selfSignedCert w = None ->
  storage_Get domain (ext w) = (Err ErrCacheMiss, x1) ->
  server.CreateSelfSignedCertificate (Cfg.ValidDays (cfg w)) (Cfg.Organization (cfg w))
    (after_lookup domain x1 w) = Done (certPEM, privKeyPEM, None) w3 ->
  storage_Put (Cfg.CertKey (cfg w)) (privKeyPEM ++ certPEM) (ext w3) = (None, x4) ->
  parseCertificate (privKeyPEM ++ certPEM) = (None, Some perr) ->
  exists w',
    server.GetSelfSignedCertificate domain w = Done (None, None) w' /\
    selfSignedCert w' = Some None /\
    In (EvStorePut (Cfg.CertKey (cfg w)) (privKeyPEM ++ certPEM)) (trace w') /\
    (forall domain' w'',
       selfSignedCert w'' = Some None ->
       server.GetSelfSignedCertificate domain' w'' = Done (None, None) w'').
Proof.
  intros Hunset Hget Hgen Hput Hparse.
  assert (Hsave : forall W, W = after_lookup domain x1 w ->
            server.createAndSaveSelfSignedCertificate W
            = Done (None, None)
                (set_ext x4 (set_trace
                   (EvStorePut (Cfg.CertKey (cfg w)) (privKeyPEM ++ certPEM) :: trace w3)
                   w3))).
  { intros W ->.
    unfold server.createAndSaveSelfSignedCertificate, bind, get_world. simpl.
    rewrite Hgen. unfold call, ret. simpl. rewrite Hput. simpl.
    rewrite Hparse. reflexivity. }
  eexists. split; [|split; [|split]].
  - unfold server.GetSelfSignedCertificate, bind, get_world. rewrite Hunset.
    unfold locked, bind. simpl. rewrite Hunset.
    unfold server.provision, server.loadCertificateFromStore, bind, call, ret.
    simpl. rewrite Hget. simpl.
    match goal with
    | |- context [server.createAndSaveSelfSignedCertificate (set_ext ?a ?b)] =>
        rewrite (Hsave (set_ext a b) eq_refl)
    end.
    simpl. reflexivity.
  - reflexivity.
  - simpl. right. left. reflexivity.
  - intros domain' w'' Hnil. apply fast_path. exact Hnil.
Qed.

End Singleton.

Section LookupKey.
Context {Ext : Type} `{!ServerEnv Ext}.

(** With the singleton unset, the one store read of a call is under the
    requested domain name, and every store write under
    [Cfg.SelfSigned.CertKey]. *)
Lemma lookup_under_domain (domain : string) (w : World Ext) :
  selfSignedCert w = None ->
  exists r w' evs,
    server.GetSelfSignedCertificate domain w = Done r w' /\
    trace w' = EvUnlock "selfSignedMu"
               :: evs ++ EvStoreGet domain :: EvLock "selfSignedMu" :: trace w /\
    Forall (generation_event (Cfg.CertKey (cfg w))) evs.
Proof.
  intros Hunset.
  unfold server.GetSelfSignedCertificate, bind, get_world. rewrite Hunset.
  unfold locked, bind. simpl. rewrite Hunset.
  unfold server.provision, server.loadCertificateFromStore, bind, call, ret. simpl.
  assert (Hgen : forall x1,
    exists r w',
      match
        (r <- server.createAndSaveSelfSignedCertificate ;;
         match r with
         | (_, Some err) => fun w => Done (None, Some err) w
         | (tlscert, None) =>
             fun w => Done (tlscert, None) (set_selfSignedCert (Some tlscert) w)
         end) (after_lookup domain x1 w)
      with
      | Done a w' => Done a (set_trace (EvUnlock "selfSignedMu" :: trace w') w')
      | Fault w' => Fault (set_trace (EvUnlock "selfSignedMu" :: trace w') w')
      end = Done r w' /\
      exists evs,
        trace w' = EvUnlock "selfSignedMu"
                   :: evs ++ EvStoreGet domain :: EvLock "selfSignedMu" :: trace w /\
        Forall (generation_event (Cfg.CertKey (cfg w))) evs).
  { intros x1.
    destruct (createAndSave_total (after_lookup domain x1 w))
      as (r & w2 & evs & Hc & Ht & Hevs & _ & _).
    unfold bind. rewrite Hc.
    assert (Hall : Forall (generation_event (Cfg.CertKey (cfg w))) (evs ++ [EvGenerateKey])).
    { apply Forall_app. split; [exact Hevs|]. constructor; [left; reflexivity | constructor]. }
    destruct r as [c [e|]]; simpl; eexists _, _; (split; [reflexivity|]);
      exists (evs ++ [EvGenerateKey]); (split; [|exact Hall]);
      simpl; rewrite Ht; rewrite <- app_assoc; reflexivity. }
  destruct (storage_Get domain (ext w)) as [[data|e] x1]; simpl.
  - destruct (parseCertificate data) as [c perr] eqn:Hparse.
    destruct perr as [pe|]; simpl.
    + destruct (bool_decide (pe <> ErrCacheMiss)); simpl.
      * eexists _, _, []. split; [reflexivity|]. split; [reflexivity | constructor].
      * destruct c as [c|]; simpl.
        -- eexists _, _, []. split; [reflexivity|]. split; [reflexivity | constructor].
        -- destruct (Hgen x1) as (r & w' & Hr & evs & Ht & Hevs).
           exists r, w', evs. split; [exact Hr|]. split; assumption.
    + destruct c as [c|]; simpl.
      * eexists _, _, []. split; [reflexivity|]. split; [reflexivity | constructor].
      * destruct (Hgen x1) as (r & w' & Hr & evs & Ht & Hevs).
        exists r, w', evs. split; [exact Hr|]. split; assumption.
  - destruct (bool_decide (e <> ErrCacheMiss)); simpl.
    + eexists _, _, []. split; [reflexivity|]. split; [reflexivity | constructor].
    + destruct (Hgen x1) as (r & w' & Hr & evs & Ht & Hevs).
      exists r, w', evs. split; [exact Hr|]. split; assumption.
Qed.

End LookupKey.

(** C5: the store is read under the requested domain name, not under
    [Cfg.SelfSigned.CertKey].  A first process asked for "test.local"
    generates a pair and saves it under "self_signed"; a restarted
    process on the same store looks up "test.local", finds nothing,
    generates a different pair and overwrites the saved one. *)
Theorem lookup_key_is_the_domain :
  let w0 := Scenario.world Scenario.ext0 Scenario.manager0 [] in
  exists c1 w1 c2 w2,
    server.GetSelfSignedCertificate "test.local" w0 = Done (Some c1, None) w1 /\
    Sim.store (ext w1) !! Cfg.CertKey (cfg w0)
      = Some [Byte.x4b; Byte.x07; Byte.x43; Byte.x00] /\
    server.GetSelfSignedCertificate "test.local" (Scenario.restarted (ext w1))
      = Done (Some c2, None) w2 /\
    trace w2 = [EvUnlock "selfSignedMu";
                EvStorePut "self_signed" [Byte.x4b; Byte.x09; Byte.x43; Byte.x05];
                EvCreateCertificate; EvGenerateKey;
                EvStoreGet "test.local"; EvLock "selfSignedMu"] /\
    tls.PrivateKey c1 = {| key_id := 7 |} /\
    tls.PrivateKey c2 = {| key_id := 9 |} /\
    Sim.store (ext w2) !! Cfg.CertKey (cfg w0)
      = Some [Byte.x4b; Byte.x09; Byte.x43; Byte.x05].
Proof.
  intros w0. eexists _, _, _, _.
  split; [vm_compute; reflexivity|].
  split; [vm_compute; reflexivity|].
  split; [vm_compute; reflexivity|].
  split; [reflexivity|]. split; [reflexivity|]. split; [reflexivity|].
  vm_compute; reflexivity.
Qed.


(** C9, witness: the generated key cannot be encoded, so the saved bytes
    hold a certificate block only and do not parse. *)
Lemma nil_certificate_installed_witness :
  let w := Scenario.world Scenario.ext_bad_key Scenario.manager0 [] in
  exists w',
    server.GetSelfSignedCertificate "test.local" w = Done (None, None) w' /\
    selfSignedCert w' = Some None /\
    In (EvStorePut (Cfg.CertKey (cfg w)) ([] ++ [Byte.x43; Byte.x00])) (trace w') /\
    (forall domain' w'',
       selfSignedCert w'' = Some None ->
       server.GetSelfSignedCertificate domain' w'' = Done (None, None) w'').
Proof.
  intros w.
  refine (nil_certificate_installed "test.local" w Scenario.ext_bad_key _
            [Byte.x43; Byte.x00] [] _ _ _ _ _ _ _);
    [reflexivity | reflexivity | vm_compute; reflexivity
    | vm_compute; reflexivity | reflexivity].
Defined.

(** ** The race between [stop] and a firing callback *)

Module RaceFacts.
Import Race.

Section Invariant.
Context {Ext Obj : Type} (L : Loop Ext Obj) (HL : LoopOk L).

Lemma in_crit_dec (pc : PC) : in_crit pc \/ (pc = AtLock \/ pc = Finished).
Proof. unfold in_crit. destruct pc; intuition congruence. Qed.

Lemma not_crit_AtLock : ~ in_crit AtLock.
Proof. unfold in_crit. intuition congruence. Qed.

Lemma not_crit_Finished : ~ in_crit Finished.
Proof. unfold in_crit. intuition congruence. Qed.

Lemma not_prework_AtUnlock : ~ prework AtUnlock.
Proof. unfold prework. intuition congruence. Qed.

Lemma not_prework_Finished : ~ prework Finished.
Proof. unfold prework. intuition congruence. Qed.

Create HintDb race.
#[local] Hint Resolve not_crit_AtLock not_crit_Finished
  not_prework_AtUnlock not_prework_Finished : race.

(** Moving callback [i] from [pc] to [pc'] inside the critical section,
    or within the part before its work, keeps the bookkeeping. *)
Lemma lookup_moved (cbs : list PC) (i j : nat) (pc' pcj : PC) :
  <[i := pc']> cbs !! j = Some pcj ->
  (i = j /\ pcj = pc') \/ (i <> j /\ cbs !! j = Some pcj).
Proof.
  intros Hl. apply list_lookup_insert_Some in Hl.
  destruct Hl as [(-> & <- & _) | (Hne & Hl)]; [left | right]; auto.
Qed.














(** The goroutine's moves, run without interruption, are the method. *)
Lemma callback_alone (o : Obj) (w : World Ext) (st : PC) (n : nat) :
  match callback L o w with
  | Done o' w' =>
      exists k,
        exec L (repeat (RunCb 0) k) (mkSys o w None st [AtLock] n false)
        = Some (mkSys o' w' None st [Finished]
                  (match loop_timer L o with Some _ => S n | None => n end) false)
  | Fault w' => True
  end.
Proof.
  unfold callback, locked.
  destruct (loop_timer L o) as [h|] eqn:Ht.
  - destruct (loop_armed L o (set_trace (EvLock "timerMu" :: trace w) w))
      as [o' w'|w'] eqn:Harm; [|exact I].
    exists 4%nat. simpl. unfold step, step_cb. simpl. rewrite Ht. simpl.
    unfold log. rewrite Harm. simpl. reflexivity.
  - exists 3%nat. simpl. unfold step, step_cb. simpl. rewrite Ht. simpl.
    reflexivity.
Qed.

Lemma stopping_alone (o : Obj) (w : World Ext) (cbs : list PC) (n : nat) :
  match stopping L o w with
  | Done o' w' =>
      exists k,
        exec L (repeat RunStop k) (mkSys o w None AtLock cbs n false)
        = Some (mkSys o' w' None Finished cbs n false)
  | Fault w' => True
  end.
Proof.
  unfold stopping, locked.
  destruct (loop_timer L o) as [h|] eqn:Ht.
  - destruct (loop_stop L o h (set_trace (EvLock "timerMu" :: trace w) w))
      as [o' w'|w'] eqn:Hst; [|exact I].
    exists 4%nat. simpl. unfold step, step_stop. simpl. rewrite Ht. simpl.
    unfold log. rewrite Ht, Hst. simpl. reflexivity.
  - exists 3%nat. simpl. unfold step, step_stop. simpl. rewrite Ht. simpl.
    reflexivity.
Qed.


End Invariant.
End RaceFacts.

(** ** Counting attempts *)

Lemma waiting_cons (pc : Race.PC) (cbs : list Race.PC) :
  waiting (pc :: cbs) = (Nat.b2n (is_prework pc) + waiting cbs)%nat.
Proof.
  unfold waiting. rewrite filter_cons.
  destruct (decide (is_prework pc = true)) as [Hp|Hp].
  - rewrite Hp. reflexivity.
  - destruct (is_prework pc); [congruence | reflexivity].
Qed.

Lemma waiting_insert (cbs : list Race.PC) (i : nat) (pc pc' : Race.PC) :
  cbs !! i = Some pc ->
  (waiting (<[i := pc']> cbs) + Nat.b2n (is_prework pc)
   = waiting cbs + Nat.b2n (is_prework pc'))%nat.
Proof.
  revert i. induction cbs as [|pc0 cbs IH]; intros i Hi; [discriminate|].
  destruct i as [|i]; simpl in Hi.
  - injection Hi as ->. simpl. rewrite !waiting_cons. lia.
  - simpl. rewrite !waiting_cons. specialize (IH i Hi). lia.
Qed.

Lemma waiting_pos (cbs : list Race.PC) (i : nat) (pc : Race.PC) :
  cbs !! i = Some pc -> is_prework pc = true -> (1 <= waiting cbs)%nat.
Proof.
  revert i. induction cbs as [|pc0 cbs IH]; intros i Hi Hp; [discriminate|].
  rewrite waiting_cons. destruct i as [|i]; simpl in Hi.
  - injection Hi as ->. rewrite Hp. simpl. lia.
  - specialize (IH i Hi Hp). lia.
Qed.

Lemma waiting_snoc (cbs : list Race.PC) :
  waiting (cbs ++ [Race.AtLock]) = (waiting cbs + 1)%nat.
Proof.
  induction cbs as [|pc cbs IH]; [reflexivity|].
  simpl. rewrite !waiting_cons, IH. lia.
Qed.

Section Budget.
Context {Ext Obj : Type} (L : Loop Ext Obj) (HL : Race.LoopOk L).

Lemma budget_step (n0 n : nat) (a : Race.Action) (s s' : Race.Sys Ext Obj) :
  within_budget n0 n s -> Race.step L a s = Some s' ->
  within_budget n0 (n + Nat.b2n (Race.is_fire a)) s'.
Proof.
  intros (Hb & Ha & Hl) Hstep. unfold Race.step in Hstep.
  destruct (Race.crashed s) eqn:Hcr; [discriminate|].
  specialize (Hb eq_refl).
  destruct a as [|i|h]; simpl Nat.b2n; rewrite ?Nat.add_0_r.
  - (* the stopper *)
    unfold Race.step_stop in Hstep. destruct (Race.stopper s).
    + destruct (Race.mutex s); [discriminate|]. injection Hstep as <-.
      unfold within_budget. simpl. auto.
    + destruct (loop_timer L (Race.obj s)); injection Hstep as <-;
        unfold within_budget; simpl; auto.
    + destruct (loop_timer L (Race.obj s)) as [h|].
      * destruct (proj2 HL (Race.obj s) h (Race.world s)) as (o' & w' & Hst & _ & Hts).
        rewrite Hst in Hstep. injection Hstep as <-.
        unfold within_budget. simpl. rewrite Hts, length_alter. auto.
      * injection Hstep as <-. unfold within_budget. simpl. auto.
    + injection Hstep as <-. unfold within_budget. simpl. auto.
    + discriminate.
  - (* a callback *)
    unfold Race.step_cb in Hstep.
    destruct (Race.callbacks s !! i) as [pc|] eqn:Hi; [|discriminate].
    destruct pc.
    + destruct (Race.mutex s); [discriminate|]. injection Hstep as <-.
      pose proof (waiting_insert _ i _ Race.AtCheck Hi) as Hw. simpl in Hw.
      unfold within_budget. simpl. repeat split; try intros _; lia.
    + destruct (loop_timer L (Race.obj s)); injection Hstep as <-.
      * pose proof (waiting_insert _ i _ Race.AtWork Hi) as Hw. simpl in Hw.
        unfold within_budget. simpl. repeat split; try intros _; lia.
      * pose proof (waiting_insert _ i _ Race.AtUnlock Hi) as Hw. simpl in Hw.
        unfold within_budget. simpl. repeat split; try intros _; lia.
    + pose proof (waiting_pos _ i _ Hi eq_refl) as Hpos.
      destruct (proj1 HL (Race.obj s) (Race.world s))
        as [(o' & w' & t & Harm & Hts & _ & _) | (w' & Harm & Hts)];
        rewrite Harm in Hstep; injection Hstep as <-.
      * pose proof (waiting_insert _ i _ Race.AtUnlock Hi) as Hw. simpl in Hw.
        unfold within_budget. simpl. rewrite Hts, length_app. simpl.
        repeat split; try intros _; lia.
      * unfold within_budget. simpl. rewrite Hts.
        repeat split; try (intros; discriminate); lia.
    + injection Hstep as <-.
      pose proof (waiting_insert _ i _ Race.Finished Hi) as Hw. simpl in Hw.
      unfold within_budget. simpl. repeat split; try intros _; lia.
    + discriminate.
  - (* a timer expires *)
    unfold Race.step_fire in Hstep.
    destruct (timers (Race.world s) !! h) as [t|]; [|discriminate].
    destruct (t_status t); try discriminate. injection Hstep as <-.
    unfold within_budget. simpl. rewrite waiting_snoc, length_insert.
    repeat split; try intros _; lia.
Qed.

Lemma fires_cons (a : Race.Action) (sched : list Race.Action) :
  fires (a :: sched) = (Nat.b2n (Race.is_fire a) + fires sched)%nat.
Proof.
  unfold fires. rewrite filter_cons.
  destruct (decide (Race.is_fire a = true)) as [Hp|Hp].
  - rewrite Hp. reflexivity.
  - destruct (Race.is_fire a); [congruence | reflexivity].
Qed.

Lemma budget_exec (n0 n : nat) (sched : list Race.Action) (s s' : Race.Sys Ext Obj) :
  within_budget n0 n s -> Race.exec L sched s = Some s' ->
  within_budget n0 (n + fires sched) s'.
Proof.
  revert n s. induction sched as [|a rest IH]; intros n s Hb Hx; simpl in Hx.
  - injection Hx as <-. unfold fires. simpl. rewrite Nat.add_0_r. exact Hb.
  - destruct (Race.step L a s) as [s1|] eqn:Hs; [|discriminate].
    rewrite fires_cons.
    replace (n + (Nat.b2n (Race.is_fire a) + fires rest))%nat
      with (n + Nat.b2n (Race.is_fire a) + fires rest)%nat by lia.
    eapply IH; [|exact Hx]. eapply budget_step; eauto.
Qed.

Lemma budget_racing (o : Obj) (w : World Ext) :
  within_budget (length (timers w)) 1 (Race.racing o w).
Proof.
  assert (Hw : waiting [Race.AtLock] = 1%nat) by (vm_compute; reflexivity).
  unfold within_budget, Race.racing. simpl. rewrite Hw.
  repeat split; try intros _; lia.
Qed.

End Budget.

(** ** The race in a process that has other timers *)

Module CancelFacts.
Import Race.

Lemma mine_spec (f : Callback) (t : Timer) :
  Cancel.mine f t = true <-> t_func t = f.
Proof. unfold Cancel.mine. apply bool_decide_eq_true. Qed.

Lemma armed_snoc (f : Callback) (ts : list Timer) (t : Timer) (h : nat) :
  (forall h', ~ Cancel.armed f ts h') -> Cancel.armed f (ts ++ [t]) h ->
  h = length ts.
Proof.
  intros Hnone (t' & Hl & Hp & Hf).
  apply lookup_app_Some in Hl. destruct Hl as [Hl | (Hge & Hl)].
  - exfalso. apply (Hnone h). exists t'. auto.
  - destruct (h - length ts)%nat as [|n] eqn:Hd; [lia | discriminate].
Qed.

Section Safety.
Context {Ext Obj : Type} (L : Loop Ext Obj) (func : Obj -> Callback)
  (HK : Cancel.OwnerOk L func).

(** Every move of this race is one of the closed race. *)
Lemma move_is_step (a : Action) (s s' : Sys Ext Obj) :
  Cancel.move L func a s = Some s' -> step L a s = Some s'.
Proof.
  unfold Cancel.move, step. destruct (crashed s); [discriminate|].
  destruct a as [|i|h]; auto.
  unfold Cancel.expire. destruct (timers (world s) !! h); [|discriminate].
  destruct (Cancel.mine _ _); [auto | discriminate].
Qed.

Lemma run_is_exec (sched : list Action) (s s' : Sys Ext Obj) :
  Cancel.run L func sched s = Some s' -> exec L sched s = Some s'.
Proof.
  revert s. induction sched as [|a rest IH]; intros s Hx; simpl in *.
  - exact Hx.
  - destruct (Cancel.move L func a s) as [s1|] eqn:Hs; [|discriminate].
    rewrite (move_is_step a s s1 Hs). apply IH. exact Hx.
Qed.

Lemma owner_loop_ok : LoopOk L.
Proof.
  destruct HK as (Harmed & Hstop). split.
  - intros o w.
    destruct (Harmed o w) as [(o' & w' & t & H1 & H2 & H3 & _ & H5 & _) | Hf].
    + left. exists o', w', t. auto.
    + right. exact Hf.
  - intros o h w. destruct (Hstop o h w) as (o' & w' & H1 & H2 & H3 & _).
    exists o', w'. auto.
Qed.

Lemma idle_when_nil (s : Sys Ext Obj) :
  Cancel.Safe L func s -> loop_timer L (obj s) = None ->
  forall h, ~ Cancel.armed (func (obj s)) (timers (world s)) h.
Proof.
  intros HI Hnil h Hp. apply (Cancel.safe_current L func s HI) in Hp. congruence.
Qed.

Lemma stopper_keeps_out (s : Sys Ext Obj) (i : nat) (pc : PC) :
  Cancel.Safe L func s -> in_crit (stopper s) ->
  callbacks s !! i = Some pc -> ~ in_crit pc.
Proof.
  intros HI Hs Hi Hc.
  apply (Cancel.safe_mutex_stop L func s HI) in Hs.
  apply (Cancel.safe_mutex_cb L func s HI i pc Hi) in Hc. congruence.
Qed.

Lemma safe_step_stop (s s' : Sys Ext Obj) :
  Cancel.Safe L func s -> step_stop L s = Some s' -> Cancel.Safe L func s'.
Proof.
  intros HI Hstep. unfold step_stop in Hstep.
  destruct (stopper s) eqn:Hpc.
  - (* AtLock *)
    destruct (mutex s) eqn:Hmu; [discriminate|].
    injection Hstep as <-.
    assert (Hfree : forall i pc, callbacks s !! i = Some pc -> ~ in_crit pc).
    { intros i pc Hi Hc. apply (Cancel.safe_mutex_cb L func s HI i pc Hi) in Hc.
      congruence. }
    constructor; simpl.
    + split; [reflexivity | intros _; unfold in_crit; auto].
    + intros i pc Hi. split; [intros Hc; exfalso; eapply Hfree; eauto | discriminate].
    + discriminate.
    + apply (Cancel.safe_token L func s HI).
    + apply (Cancel.safe_single L func s HI).
    + apply (Cancel.safe_current L func s HI).
    + unfold stop_done. simpl. intros [?|?]; discriminate.
  - (* AtCheck *)
    assert (Hcrit : in_crit (stopper s)) by (rewrite Hpc; unfold in_crit; auto).
    destruct (loop_timer L (obj s)) eqn:Ht; injection Hstep as <-.
    + constructor; simpl.
      * rewrite <- (Cancel.safe_mutex_stop L func s HI), Hpc.
        unfold in_crit. intuition congruence.
      * apply (Cancel.safe_mutex_cb L func s HI).
      * apply (Cancel.safe_holder L func s HI).
      * apply (Cancel.safe_token L func s HI).
      * apply (Cancel.safe_single L func s HI).
      * apply (Cancel.safe_current L func s HI).
      * unfold stop_done. simpl. intros [?|?]; discriminate.
    + constructor; simpl.
      * rewrite <- (Cancel.safe_mutex_stop L func s HI), Hpc.
        unfold in_crit. intuition congruence.
      * apply (Cancel.safe_mutex_cb L func s HI).
      * apply (Cancel.safe_holder L func s HI).
      * apply (Cancel.safe_token L func s HI).
      * apply (Cancel.safe_single L func s HI).
      * apply (Cancel.safe_current L func s HI).
      * intros _. split; [exact Ht|]. split; [apply idle_when_nil; assumption|].
        intros i Hi. eapply stopper_keeps_out; eauto. unfold in_crit; auto.
  - (* AtWork *)
    assert (Hcrit : in_crit (stopper s)) by (rewrite Hpc; unfold in_crit; auto).
    destruct (loop_timer L (obj s)) as [h|] eqn:Ht.
    + destruct (proj2 HK (obj s) h (world s)) as (o' & w' & Hst & Hnil & Hts & Hf).
      rewrite Hst in Hstep. injection Hstep as <-.
      assert (Hnone : forall h', ~ Cancel.armed (func o') (timers w') h').
      { intros h' (t & Hl & Hp & Ho). rewrite Hts in Hl. rewrite Hf in Ho.
        destruct (decide (h = h')) as [<-|Hne].
        - rewrite list_lookup_alter_eq in Hl.
          destruct (timers (world s) !! h) as [t0|]; [|discriminate].
          simpl in Hl. injection Hl as <-. unfold stop_timer in Hp.
          destruct (t_status t0) eqn:Hs0; simpl in Hp; congruence.
        - rewrite list_lookup_alter_ne in Hl by exact Hne.
          assert (Hp' : Cancel.armed (func (obj s)) (timers (world s)) h')
            by (exists t; auto).
          apply (Cancel.safe_current L func s HI) in Hp'. congruence. }
      constructor; simpl.
      * rewrite <- (Cancel.safe_mutex_stop L func s HI), Hpc.
        unfold in_crit. intuition congruence.
      * apply (Cancel.safe_mutex_cb L func s HI).
      * apply (Cancel.safe_holder L func s HI).
      * intros h' i pc Hp. exfalso. eapply Hnone; eauto.
      * apply (Cancel.safe_single L func s HI).
      * intros h' Hp. exfalso. eapply Hnone; eauto.
      * intros _. split; [exact Hnil|]. split; [exact Hnone|].
        intros i Hi. eapply stopper_keeps_out; eauto. unfold in_crit; auto.
    + injection Hstep as <-. constructor; simpl.
      * rewrite <- (Cancel.safe_mutex_stop L func s HI), Hpc.
        unfold in_crit. intuition congruence.
      * apply (Cancel.safe_mutex_cb L func s HI).
      * apply (Cancel.safe_holder L func s HI).
      * apply (Cancel.safe_token L func s HI).
      * apply (Cancel.safe_single L func s HI).
      * apply (Cancel.safe_current L func s HI).
      * intros _. split; [exact Ht|]. split; [apply idle_when_nil; assumption|].
        intros i Hi. eapply stopper_keeps_out; eauto. unfold in_crit; auto.
  - (* AtUnlock *)
    assert (Hcrit : in_crit (stopper s)) by (rewrite Hpc; unfold in_crit; auto).
    assert (Hdone : stop_done s) by (left; exact Hpc).
    injection Hstep as <-. constructor; simpl.
    + split; [intros Hc; exfalso; eapply RaceFacts.not_crit_Finished; eauto
             | discriminate].
    + intros i pc Hi. split; [|discriminate].
      intros Hc. exfalso. eapply stopper_keeps_out; eauto.
    + discriminate.
    + apply (Cancel.safe_token L func s HI).
    + apply (Cancel.safe_single L func s HI).
    + apply (Cancel.safe_current L func s HI).
    + intros _. apply (Cancel.safe_stopped L func s HI Hdone).
  - discriminate.
Qed.

(** A callback that holds the mutex is the holder on record. *)
Lemma holder_on_record (s : Sys Ext Obj) (i : nat) (pc : PC) :
  Cancel.Safe L func s -> callbacks s !! i = Some pc -> in_crit pc ->
  mutex s = Some (HCb i).
Proof. intros HI Hi Hc. apply (Cancel.safe_mutex_cb L func s HI i pc Hi). exact Hc. Qed.

Lemma others_kept_out (s : Sys Ext Obj) (i j : nat) (pc pcj : PC) :
  Cancel.Safe L func s -> callbacks s !! i = Some pc -> in_crit pc ->
  callbacks s !! j = Some pcj -> i <> j -> ~ in_crit pcj.
Proof.
  intros HI Hi Hc Hj Hne Hcj.
  pose proof (holder_on_record s i pc HI Hi Hc) as H1.
  pose proof (holder_on_record s j pcj HI Hj Hcj) as H2. congruence.
Qed.

Lemma stopper_kept_out (s : Sys Ext Obj) (i : nat) (pc : PC) :
  Cancel.Safe L func s -> callbacks s !! i = Some pc -> in_crit pc ->
  ~ in_crit (stopper s).
Proof.
  intros HI Hi Hc Hs. eapply stopper_keeps_out; eauto.
Qed.

Lemma single_after_a_move (s : Sys Ext Obj) (i : nat) (pc pc' : PC) :
  Cancel.Safe L func s -> callbacks s !! i = Some pc -> (prework pc' -> prework pc) ->
  forall j k pcj pck,
    <[i := pc']> (callbacks s) !! j = Some pcj ->
    <[i := pc']> (callbacks s) !! k = Some pck ->
    prework pcj -> prework pck -> j = k.
Proof.
  intros HI Hi Hback j k pcj pck Hj Hk Hpj Hpk.
  assert (Hold : forall n pcn, <[i := pc']> (callbacks s) !! n = Some pcn ->
            prework pcn -> exists pc0, callbacks s !! n = Some pc0 /\ prework pc0).
  { intros n pcn Hn Hpn. apply RaceFacts.lookup_moved in Hn.
    destruct Hn as [(<- & ->) | (_ & Hn)]; eauto. }
  destruct (Hold j pcj Hj Hpj) as (pj0 & Hj0 & Hpj0).
  destruct (Hold k pck Hk Hpk) as (pk0 & Hk0 & Hpk0).
  exact (Cancel.safe_single L func s HI j k pj0 pk0 Hj0 Hk0 Hpj0 Hpk0).
Qed.

Lemma safe_step_cb (i : nat) (s s' : Sys Ext Obj) :
  Cancel.Safe L func s -> step_cb L i s = Some s' -> Cancel.Safe L func s'.
Proof.
  intros HI Hstep. unfold step_cb in Hstep.
  destruct (callbacks s !! i) as [pc|] eqn:Hi; [|discriminate].
  destruct pc.
  - (* AtLock *)
    destruct (mutex s) eqn:Hmu; [discriminate|].
    injection Hstep as <-.
    assert (Hpre : prework AtLock) by (unfold prework; auto).
    constructor; simpl.
    + split; [|discriminate]. intros Hc.
      apply (Cancel.safe_mutex_stop L func s HI) in Hc. congruence.
    + intros j pc Hj. apply RaceFacts.lookup_moved in Hj.
      destruct Hj as [(<- & ->) | (Hne & Hj)].
      * split; [reflexivity | intros _; unfold in_crit; auto].
      * split; [|intros Hc; congruence].
        intros Hc. apply (Cancel.safe_mutex_cb L func s HI j pc Hj) in Hc. congruence.
    + intros j Hj. injection Hj as <-.
      rewrite list_lookup_insert_eq by (eapply lookup_lt_Some; eauto). eauto.
    + intros h j pc Hp Hj. exfalso.
      exact (Cancel.safe_token L func s HI h i AtLock Hp Hi Hpre).
    + apply (single_after_a_move s i AtLock AtCheck HI Hi); intros _; exact Hpre.
    + apply (Cancel.safe_current L func s HI).
    + intros Hd. destruct (Cancel.safe_stopped L func s HI Hd) as (Hn & Hp & Hw).
      split; [exact Hn|]. split; [exact Hp|].
      intros j Hj. apply RaceFacts.lookup_moved in Hj.
      destruct Hj as [(_ & Hc) | (_ & Hj)]; [discriminate | exact (Hw j Hj)].
  - (* AtCheck *)
    assert (Hpre : prework AtCheck) by (unfold prework; auto).
    assert (Hcrit : in_crit AtCheck) by (unfold in_crit; auto).
    pose proof (holder_on_record s i AtCheck HI Hi Hcrit) as Hmu.
    destruct (loop_timer L (obj s)) as [h0|] eqn:Ht; injection Hstep as <-.
    + constructor; simpl.
      * apply (Cancel.safe_mutex_stop L func s HI).
      * intros j pc Hj. apply RaceFacts.lookup_moved in Hj.
        destruct Hj as [(<- & ->) | (Hne & Hj)].
        -- split; [intros _; exact Hmu | intros _; unfold in_crit; auto].
        -- apply (Cancel.safe_mutex_cb L func s HI j pc Hj).
      * intros j Hj. rewrite Hmu in Hj. injection Hj as <-.
        rewrite list_lookup_insert_eq by (eapply lookup_lt_Some; eauto). eauto.
      * intros h j pc Hp Hj. exfalso.
        exact (Cancel.safe_token L func s HI h i AtCheck Hp Hi Hpre).
      * apply (single_after_a_move s i AtCheck AtWork HI Hi); intros _; exact Hpre.
      * apply (Cancel.safe_current L func s HI).
      * intros Hd. destruct (Cancel.safe_stopped L func s HI Hd) as (Hn & _). congruence.
    + constructor; simpl.
      * apply (Cancel.safe_mutex_stop L func s HI).
      * intros j pc Hj. apply RaceFacts.lookup_moved in Hj.
        destruct Hj as [(<- & ->) | (Hne & Hj)].
        -- split; [intros _; exact Hmu | intros _; unfold in_crit; auto].
        -- apply (Cancel.safe_mutex_cb L func s HI j pc Hj).
      * intros j Hj. rewrite Hmu in Hj. injection Hj as <-.
        rewrite list_lookup_insert_eq by (eapply lookup_lt_Some; eauto). eauto.
      * intros h j pc Hp Hj. exfalso.
        exact (Cancel.safe_token L func s HI h i AtCheck Hp Hi Hpre).
      * apply (single_after_a_move s i AtCheck AtUnlock HI Hi);
          intros Hc; exfalso; exact (RaceFacts.not_prework_AtUnlock Hc).
      * apply (Cancel.safe_current L func s HI).
      * intros Hd. destruct (Cancel.safe_stopped L func s HI Hd) as (Hn & Hp & Hw).
        split; [exact Hn|]. split; [exact Hp|].
        intros j Hj. apply RaceFacts.lookup_moved in Hj.
        destruct Hj as [(_ & Hc) | (_ & Hj)]; [discriminate | exact (Hw j Hj)].
  - (* AtWork *)
    assert (Hpre : prework AtWork) by (unfold prework; auto).
    assert (Hcrit : in_crit AtWork) by (unfold in_crit; auto).
    pose proof (holder_on_record s i AtWork HI Hi Hcrit) as Hmu.
    assert (Hnone : forall h, ~ Cancel.armed (func (obj s)) (timers (world s)) h).
    { intros h Hp. exact (Cancel.safe_token L func s HI h i AtWork Hp Hi Hpre). }
    assert (Hnotdone : ~ stop_done s).
    { intros Hd. destruct (Cancel.safe_stopped L func s HI Hd) as (_ & _ & Hw).
      exact (Hw i Hi). }
    destruct (proj1 HK (obj s) (world s))
      as [(o' & w' & t & Harm & Hts & Hst & Hown & Hcur & Hf) | (w' & Harm & Hts)];
      rewrite Harm in Hstep; injection Hstep as <-.
    + constructor; simpl.
      * apply (Cancel.safe_mutex_stop L func s HI).
      * intros j pc Hj. apply RaceFacts.lookup_moved in Hj.
        destruct Hj as [(<- & ->) | (Hne & Hj)].
        -- split; [intros _; exact Hmu | intros _; unfold in_crit; auto].
        -- apply (Cancel.safe_mutex_cb L func s HI j pc Hj).
      * intros j Hj. rewrite Hmu in Hj. injection Hj as <-.
        rewrite list_lookup_insert_eq by (eapply lookup_lt_Some; eauto). eauto.
      * intros h j pc Hp Hj Hpj. apply RaceFacts.lookup_moved in Hj.
        destruct Hj as [(<- & ->) | (Hne & Hj)].
        -- exact (RaceFacts.not_prework_AtUnlock Hpj).
        -- apply Hne.
           exact (Cancel.safe_single L func s HI i j AtWork pc Hi Hj Hpre Hpj).
      * apply (single_after_a_move s i AtWork AtUnlock HI Hi);
          intros Hc; exfalso; exact (RaceFacts.not_prework_AtUnlock Hc).
      * intros h Hp. rewrite Hts, Hf in Hp.
        apply armed_snoc in Hp; [|exact Hnone]. subst h. exact Hcur.
      * intros Hd. exfalso. apply Hnotdone. exact Hd.
    + constructor; simpl.
      * apply (Cancel.safe_mutex_stop L func s HI).
      * apply (Cancel.safe_mutex_cb L func s HI).
      * apply (Cancel.safe_holder L func s HI).
      * rewrite Hts. apply (Cancel.safe_token L func s HI).
      * apply (Cancel.safe_single L func s HI).
      * rewrite Hts. apply (Cancel.safe_current L func s HI).
      * intros Hd. exfalso. apply Hnotdone. exact Hd.
  - (* AtUnlock *)
    assert (Hcrit : in_crit AtUnlock) by (unfold in_crit; auto).
    pose proof (holder_on_record s i AtUnlock HI Hi Hcrit) as Hmu.
    injection Hstep as <-. constructor; simpl.
    + split; [|discriminate]. intros Hc. exfalso.
      eapply stopper_kept_out; eauto.
    + intros j pc Hj. apply RaceFacts.lookup_moved in Hj.
      destruct Hj as [(<- & ->) | (Hne & Hj)].
      * split; [intros Hc; exfalso; exact (RaceFacts.not_crit_Finished Hc)
               | discriminate].
      * split; [|discriminate]. intros Hc. exfalso.
        eapply (others_kept_out s i j); eauto.
    + discriminate.
    + intros h j pc Hp Hj Hpj. apply RaceFacts.lookup_moved in Hj.
      destruct Hj as [(<- & ->) | (Hne & Hj)].
      * exact (RaceFacts.not_prework_Finished Hpj).
      * exact (Cancel.safe_token L func s HI h j pc Hp Hj Hpj).
    + apply (single_after_a_move s i AtUnlock Finished HI Hi);
        intros Hc; exfalso; exact (RaceFacts.not_prework_Finished Hc).
    + apply (Cancel.safe_current L func s HI).
    + intros Hd. destruct (Cancel.safe_stopped L func s HI Hd) as (Hn & Hp & Hw).
      split; [exact Hn|]. split; [exact Hp|].
      intros j Hj. apply RaceFacts.lookup_moved in Hj.
      destruct Hj as [(_ & Hc) | (_ & Hj)]; [discriminate | exact (Hw j Hj)].
  - discriminate.
Qed.

(** When a timer of the object expires it was the one in the timer
    field, and no callback was on its way to an attempt. *)
Lemma expire_inv (h : nat) (s s' : Sys Ext Obj) :
  Cancel.expire func h s = Some s' ->
  exists t,
    timers (world s) !! h = Some t /\
    Cancel.armed (func (obj s)) (timers (world s)) h /\
    s' = mkSys (obj s)
           (set_timers (<[h := fire_timer t]> (timers (world s))) (world s))
           (mutex s) (stopper s) (callbacks s ++ [AtLock])
           (attempts s) (crashed s).
Proof.
  unfold Cancel.expire, step_fire. intros Hstep.
  destruct (timers (world s) !! h) as [t|] eqn:Hh; [|discriminate].
  destruct (Cancel.mine (func (obj s)) t) eqn:Hmine; [|discriminate].
  destruct (t_status t) eqn:Hst; try discriminate.
  injection Hstep as <-. exists t. split; [reflexivity|].
  split; [|reflexivity].
  exists t. split; [exact Hh|]. split; [exact Hst|]. apply mine_spec. exact Hmine.
Qed.

Lemma safe_expire (h : nat) (s s' : Sys Ext Obj) :
  Cancel.Safe L func s -> Cancel.expire func h s = Some s' -> Cancel.Safe L func s'.
Proof.
  intros HI Hstep.
  destruct (expire_inv h s s' Hstep) as (t & Hh & Hp & ->).
  assert (Hidle : forall j pc, callbacks s !! j = Some pc -> ~ prework pc).
  { intros j pc Hj. exact (Cancel.safe_token L func s HI h j pc Hp Hj). }
  assert (Hnone : forall h',
            ~ Cancel.armed (func (obj s)) (<[h := fire_timer t]> (timers (world s))) h').
  { intros h' (t' & Hl & Hp' & Ho'). apply list_lookup_insert_Some in Hl.
    destruct Hl as [(<- & <- & _) | (Hne & Hl)]; [discriminate|].
    assert (Hq : Cancel.armed (func (obj s)) (timers (world s)) h')
      by (exists t'; auto).
    apply (Cancel.safe_current L func s HI) in Hq.
    apply (Cancel.safe_current L func s HI) in Hp. congruence. }
  assert (Hnew : forall j pc, (callbacks s ++ [AtLock]) !! j = Some pc ->
            callbacks s !! j = Some pc \/ (j = length (callbacks s) /\ pc = AtLock)).
  { intros j pc Hj. apply lookup_app_Some in Hj.
    destruct Hj as [Hj | (Hge & Hj)]; [left; exact Hj | right].
    destruct (j - length (callbacks s))%nat as [|n] eqn:Hd; [|discriminate].
    injection Hj as <-. split; [lia | reflexivity]. }
  constructor; simpl.
  - apply (Cancel.safe_mutex_stop L func s HI).
  - intros j pc Hj. destruct (Hnew j pc Hj) as [Hold | (-> & ->)].
    + apply (Cancel.safe_mutex_cb L func s HI j pc Hold).
    + split; [intros Hc; exfalso; exact (RaceFacts.not_crit_AtLock Hc)|].
      intros Hmu. apply (Cancel.safe_holder L func s HI) in Hmu.
      destruct Hmu as [pc Hpc]. apply lookup_lt_Some in Hpc. lia.
  - intros j Hmu. apply (Cancel.safe_holder L func s HI) in Hmu.
    destruct Hmu as [pc Hpc]. exists pc. apply lookup_app_l_Some. exact Hpc.
  - intros h' j pc Hp'. exfalso. exact (Hnone h' Hp').
  - intros j k pcj pck Hj Hk Hpj Hpk.
    destruct (Hnew j pcj Hj) as [Hold | (-> & _)];
      [exfalso; exact (Hidle j pcj Hold Hpj)|].
    destruct (Hnew k pck Hk) as [Hold | (-> & _)];
      [exfalso; exact (Hidle k pck Hold Hpk) | reflexivity].
  - intros h' Hp'. exfalso. exact (Hnone h' Hp').
  - intros Hd. exfalso. destruct (Cancel.safe_stopped L func s HI Hd) as (_ & Hq & _).
    exact (Hq h Hp).
Qed.

Lemma safe_move (a : Action) (s s' : Sys Ext Obj) :
  Cancel.Safe L func s -> Cancel.move L func a s = Some s' -> Cancel.Safe L func s'.
Proof.
  intros HI Hstep. unfold Cancel.move in Hstep.
  destruct (crashed s); [discriminate|].
  destruct a; eauto using safe_step_stop, safe_step_cb, safe_expire.
Qed.

Lemma safe_run (sched : list Action) (s s' : Sys Ext Obj) :
  Cancel.Safe L func s -> Cancel.run L func sched s = Some s' -> Cancel.Safe L func s'.
Proof.
  revert s. induction sched as [|a rest IH]; intros s HI Hx; simpl in Hx.
  - injection Hx as <-. exact HI.
  - destruct (Cancel.move L func a s) as [s1|] eqn:Hs; [|discriminate].
    eapply IH; [|exact Hx]. eapply safe_move; eauto.
Qed.

(** The race starts in a state that satisfies the invariant as soon as
    no timer of the object is pending: the one that was has just
    expired.  The timers of others may be pending. *)
Lemma safe_racing (o : Obj) (w : World Ext) :
  (forall h, ~ Cancel.armed (func o) (timers w) h) ->
  Cancel.Safe L func (racing o w).
Proof.
  intros Hnone. constructor; simpl.
  - split; [intros Hc; exfalso; exact (RaceFacts.not_crit_AtLock Hc) | discriminate].
  - intros i pc Hi. split; [|discriminate].
    destruct i as [|i]; [|discriminate]. injection Hi as <-.
    intros Hc. exfalso. exact (RaceFacts.not_crit_AtLock Hc).
  - discriminate.
  - intros h i pc Hp. exfalso. exact (Hnone h Hp).
  - intros i j pci pcj Hi Hj _ _.
    destruct i as [|i]; [|discriminate]. destruct j as [|j]; [|discriminate].
    reflexivity.
  - intros h Hp. exfalso. exact (Hnone h Hp).
  - unfold stop_done. simpl. intros [?|?]; discriminate.
Qed.

(** Once [stop] has done its work nothing moves any more but
    goroutines on their way out: no callback works, no timer is created
    or expires, the timer field stays nil. *)
Lemma stopped_move (a : Action) (s s' : Sys Ext Obj) :
  Cancel.Safe L func s -> stop_done s -> Cancel.move L func a s = Some s' ->
  stop_done s' /\ obj s' = obj s /\
  timers (world s') = timers (world s) /\ attempts s' = attempts s.
Proof.
  intros HI Hd Hstep.
  destruct (Cancel.safe_stopped L func s HI Hd) as (Hnil & Hnone & Hwork).
  unfold Cancel.move in Hstep. destruct (crashed s); [discriminate|].
  destruct a as [|i|h].
  - unfold step_stop in Hstep. destruct Hd as [Hd|Hd]; rewrite Hd in Hstep.
    + injection Hstep as <-. simpl. repeat split. right; reflexivity.
    + discriminate.
  - unfold step_cb in Hstep.
    destruct (callbacks s !! i) as [pc|] eqn:Hi; [|discriminate].
    destruct pc.
    + destruct (mutex s); [discriminate|]. injection Hstep as <-.
      simpl. repeat split. exact Hd.
    + rewrite Hnil in Hstep. injection Hstep as <-. simpl. repeat split. exact Hd.
    + exfalso. exact (Hwork i Hi).
    + injection Hstep as <-. simpl. repeat split. exact Hd.
    + discriminate.
  - exfalso. destruct (expire_inv h s s' Hstep) as (t & _ & Hp & _).
    exact (Hnone h Hp).
Qed.

Lemma stopped_run (sched : list Action) (s s' : Sys Ext Obj) :
  Cancel.Safe L func s -> stop_done s -> Cancel.run L func sched s = Some s' ->
  stop_done s' /\ obj s' = obj s /\
  timers (world s') = timers (world s) /\ attempts s' = attempts s.
Proof.
  revert s. induction sched as [|a rest IH]; intros s HI Hd Hx; simpl in Hx.
  - injection Hx as <-. repeat split. exact Hd.
  - destruct (Cancel.move L func a s) as [s1|] eqn:Hs; [|discriminate].
    destruct (stopped_move a s s1 HI Hd Hs) as (Hd1 & Ho1 & Ht1 & Ha1).
    destruct (IH s1 (safe_move a s s1 HI Hs) Hd1 Hx) as (Hd' & Ho' & Ht' & Ha').
    repeat split; [exact Hd' | congruence | congruence | congruence].
Qed.

Lemma race_outcome_of_run (o : Obj) (w : World Ext) (sched : list Action)
    (s : Sys Ext Obj) :
  (forall h, ~ Cancel.armed (func o) (timers w) h) ->
  Cancel.run L func sched (racing o w) = Some s ->
  Cancel.outcome L func (timers w) sched s.
Proof.
  intros Hnone Hx.
  pose proof (safe_run sched _ s (safe_racing o w Hnone) Hx) as HI.
  assert (Hdone : stop_done s ->
    loop_timer L (obj s) = None /\
    (forall h, ~ Cancel.armed (func (obj s)) (timers (world s)) h) /\
    (forall more s', Cancel.run L func more s = Some s' ->
       loop_timer L (obj s') = None /\
       timers (world s') = timers (world s) /\
       attempts s' = attempts s)).
  { intros Hd. destruct (Cancel.safe_stopped L func s HI Hd) as (Hnil & Hp & _).
    split; [exact Hnil|]. split; [exact Hp|].
    intros more s' Hmore.
    destruct (stopped_run more s s' HI Hd Hmore) as (_ & Ho & Ht & Ha).
    rewrite Ho. auto. }
  split; [exact Hdone|]. split.
  - intros (Hfin & _).
    destruct (Hdone (or_intror Hfin)) as (Hnil & Hp & _). auto.
  - destruct (budget_exec L owner_loop_ok _ 1 sched _ s
                (budget_racing o w) (run_is_exec sched _ s Hx)) as (_ & Ha & Hl).
    split; [exact Ha | exact Hl].
Qed.

(** The goroutines of the race, run without interruption, are the
    methods. *)
Lemma loop_methods : Cancel.methods L func (callback L) (stopping L).
Proof.
  intros o w. split.
  - unfold stopping, locked.
    destruct (loop_timer L o) as [h|] eqn:Ht.
    + destruct (proj2 HK o h (set_trace (EvLock "timerMu" :: trace w) w))
        as (o' & w' & Hst & _).
      rewrite Hst. exists 4%nat. eexists _, _. split; [reflexivity|].
      simpl. unfold Cancel.move, step_stop. simpl. rewrite Ht. simpl.
      unfold log. rewrite Ht, Hst. simpl. reflexivity.
    + exists 3%nat. eexists _, _. split; [reflexivity|].
      simpl. unfold Cancel.move, step_stop. simpl. rewrite Ht. simpl.
      reflexivity.
  - unfold callback, locked.
    destruct (loop_timer L o) as [h|] eqn:Ht.
    + destruct (loop_armed L o (set_trace (EvLock "timerMu" :: trace w) w))
        as [o' w'|w'] eqn:Harm.
      * exists 4%nat. simpl. unfold Cancel.move, step_cb. simpl. rewrite Ht. simpl.
        unfold log. rewrite Harm. simpl. reflexivity.
      * exists 3%nat. exists w'. split; [reflexivity|].
        simpl. unfold Cancel.move, step_cb. simpl. rewrite Ht. simpl.
        unfold log. rewrite Harm. reflexivity.
    + exists 3%nat. simpl. unfold Cancel.move, step_cb. simpl. rewrite Ht. simpl.
      reflexivity.
Qed.

End Safety.
End CancelFacts.


Section TheLoops.
Context {Ext : Type} `{!AutocertEnv Ext}.

(** The methods of renewal.go are the goroutines of the race. *)
Lemma renew_is_callback (dr : domainRenewal.t) :
  domainRenewal.renew dr = Race.callback renewalLoop dr.
Proof. reflexivity. Qed.

Lemma update_is_callback (ou : ocspUpdater.t) :
  ocspUpdater.update ou = Race.callback ocspLoop ou.
Proof. reflexivity. Qed.

Lemma dr_stop_is_stopping (dr : domainRenewal.t) :
  domainRenewal.stop dr = Race.stopping renewalLoop dr.
Proof. reflexivity. Qed.

Lemma ou_stop_is_stopping (ou : ocspUpdater.t) :
  ocspUpdater.stop ou = Race.stopping ocspLoop ou.
Proof. reflexivity. Qed.

Lemma renewalLoop_ok : Race.LoopOk (renewalLoop (Ext := Ext)).
Proof.
  split.
  - intros dr w. left.
    destruct (renew_armed_spec dr w) as (r & w1 & nxt & w' & _ & Hre & Ht & _).
    eexists _, w', _. split; [exact Hre|]. split; [exact Ht|].
    split; reflexivity.
  - intros dr h w. eexists _, _. split; [reflexivity|]. split; reflexivity.
Qed.

Lemma ocspLoop_ok : Race.LoopOk (ocspLoop (Ext := Ext)).
Proof.
  split.
  - intros ou w. simpl.
    destruct (ocspStates (mgr w) !! ocspUpdater.domain ou) as [st|] eqn:Hst.
    + left. destruct (update_armed_present ou w st Hst)
        as (res & nxt & w' & _ & Hup & Ht & _).
      eexists _, w', _. split; [exact Hup|]. split; [exact Ht|].
      split; reflexivity.
    + right. exists w. split; [apply update_armed_absent; exact Hst | reflexivity].
  - intros ou h w. eexists _, _. split; [reflexivity|]. split; reflexivity.
Qed.

Lemma renewalFunc_ok : Cancel.OwnerOk (renewalLoop (Ext := Ext)) Cancel.renewalFunc.
Proof.
  split.
  - intros dr w. left.
    destruct (renew_armed_spec dr w) as (r & w1 & nxt & w' & _ & Hre & Ht & _).
    eexists _, w', _. split; [exact Hre|]. split; [exact Ht|].
    repeat split.
  - intros dr h w. eexists _, _. split; [reflexivity|]. repeat split.
Qed.

Lemma ocspFunc_ok : Cancel.OwnerOk (ocspLoop (Ext := Ext)) Cancel.ocspFunc.
Proof.
  split.
  - intros ou w. simpl.
    destruct (ocspStates (mgr w) !! ocspUpdater.domain ou) as [st|] eqn:Hst.
    + left. destruct (update_armed_present ou w st Hst)
        as (res & nxt & w' & _ & Hup & Ht & _).
      eexists _, w', _. split; [exact Hup|]. split; [exact Ht|].
      repeat split.
    + right. exists w. split; [apply update_armed_absent; exact Hst | reflexivity].
  - intros ou h w. eexists _, _. split; [reflexivity|]. repeat split.
Qed.

(** C7, amended.  The goroutines of the race are the methods of
    renewal.go: run alone, the moves of the stopping goroutine compute
    [stop] and those of the callback compute [renew] (or [update]).
    Take a scheduler, or an updater, whose timer has just expired (so
    none of its own timers is pending, whatever the timers of other
    objects), its callback launched and a [stop] call under way.
    Whatever the interleaving of their moves, and even if re-armed
    timers expire and launch further callbacks meanwhile: once [stop]
    has done its work the timer field is nil and no timer of the object
    is pending, and from then on no callback works and no timer is
    created, so a callback that reaches its armed-check after [stop]
    leaves without rescheduling; in particular nothing is armed once
    all have settled.  Until [stop] gets the mutex the callbacks work
    once for the one the race starts with and once more for every
    re-armed timer that expires; each attempt arms at most one timer,
    which a [stop] that comes later stops. *)
Theorem stop_race :
  (Cancel.methods renewalLoop Cancel.renewalFunc
     domainRenewal.renew domainRenewal.stop /\
   forall (dr : domainRenewal.t) (w : World Ext) (sched : list Race.Action)
          (s : Race.Sys Ext domainRenewal.t),
     (forall h, ~ Cancel.armed (Cancel.renewalFunc dr) (timers w) h) ->
     Cancel.run renewalLoop Cancel.renewalFunc sched (Race.racing dr w) = Some s ->
     Cancel.outcome renewalLoop Cancel.renewalFunc (timers w) sched s) /\
  (Cancel.methods ocspLoop Cancel.ocspFunc
     ocspUpdater.update ocspUpdater.stop /\
   forall (ou : ocspUpdater.t) (w : World Ext) (sched : list Race.Action)
          (s : Race.Sys Ext ocspUpdater.t),
     (forall h, ~ Cancel.armed (Cancel.ocspFunc ou) (timers w) h) ->
     Cancel.run ocspLoop Cancel.ocspFunc sched (Race.racing ou w) = Some s ->
     Cancel.outcome ocspLoop Cancel.ocspFunc (timers w) sched s).
Proof.
  split; split.
  - exact (CancelFacts.loop_methods renewalLoop Cancel.renewalFunc renewalFunc_ok).
  - intros dr w sched s Hnone Hrun.
    exact (CancelFacts.race_outcome_of_run renewalLoop Cancel.renewalFunc
             renewalFunc_ok dr w sched s Hnone Hrun).
  - exact (CancelFacts.loop_methods ocspLoop Cancel.ocspFunc ocspFunc_ok).
  - intros ou w sched s Hnone Hrun.
    exact (CancelFacts.race_outcome_of_run ocspLoop Cancel.ocspFunc
             ocspFunc_ok ou w sched s Hnone Hrun).
Qed.

End TheLoops.

(** C7, witness, with the timer of the domain's other object pending all
    along: on the scheduler the callback takes the mutex first, re-arms
    timer 2 with the backoff, and [stop] then stops it; on the updater
    [stop] comes first and the callback leaves without working.  Either
    way no timer of the object is pending in the end. *)
Lemma stop_race_witness :
  let w_dr := Scenario.world Scenario.ext_failing Scenario.manager_ocsp
                (Cases.beside (CbRenew "example.com") (CbUpdate "example.com")) in
  let w_ou := Scenario.world Scenario.ext_failing Scenario.manager_ocsp
                (Cases.beside (CbUpdate "example.com") (CbRenew "example.com")) in
  let sched_dr := repeat (Race.RunCb 0) 4 ++ repeat Race.RunStop 4 in
  let sched_ou := repeat Race.RunStop 4 ++ repeat (Race.RunCb 0) 3 in
  exists s_dr s_ou,
    Cancel.run renewalLoop Cancel.renewalFunc sched_dr
      (Race.racing Scenario.dr_armed w_dr) = Some s_dr /\
    Cancel.run ocspLoop Cancel.ocspFunc sched_ou
      (Race.racing Scenario.ou_armed w_ou) = Some s_ou /\
    Race.attempts s_dr = 1%nat /\
    t_status <$> timers (Race.world s_dr) = [Fired; Pending; Stopped] /\
    Race.attempts s_ou = 0%nat /\
    t_status <$> timers (Race.world s_ou) = [Fired; Pending] /\
    Cancel.outcome renewalLoop Cancel.renewalFunc (timers w_dr) sched_dr s_dr /\
    Cancel.outcome ocspLoop Cancel.ocspFunc (timers w_ou) sched_ou s_ou.
Proof.
  intros w_dr w_ou sched_dr sched_ou. eexists _, _.
  split; [vm_compute; reflexivity|].
  split; [vm_compute; reflexivity|].
  split; [reflexivity|]. split; [reflexivity|].
  split; [reflexivity|]. split; [reflexivity|].
  split.
  - refine (proj2 (proj1 stop_race) Scenario.dr_armed w_dr sched_dr _ _ _).
    + intros h (t & Hl & Hp & Hf).
      destruct h as [|[|h]]; cbv in Hl; try discriminate;
        injection Hl as <-; cbv in Hp, Hf; congruence.
    + vm_compute; reflexivity.
  - refine (proj2 (proj2 stop_race) Scenario.ou_armed w_ou sched_ou _ _ _).
    + intros h (t & Hl & Hp & Hf).
      destruct h as [|[|h]]; cbv in Hl; try discriminate;
        injection Hl as <-; cbv in Hp, Hf; congruence.
    + vm_compute; reflexivity.
Defined.

(** C7 as stated fails: a [stop] that follows does not bound the fires
    by one.  The authority issues certificates that are inside the
    renew-before window at once, so every callback re-arms with interval
    zero; with [stop] requested from the start and still waiting for the
    mutex, the callback works, its timer expires, the next callback
    works, and so does a third, before [stop] gets the mutex: three
    attempts, two of them by callbacks of timers that were armed after
    [stop] was requested. *)
Lemma stop_race_counterexample :
  let w := Scenario.world Cases.ext_short_lived Scenario.manager0
             (Scenario.fired (CbRenew "example.com")) in
  let sched := Cases.three_rounds ++ repeat Race.RunStop 4 in
  Race.stopper (Race.racing Scenario.dr_armed w) = Race.AtLock /\
  exists s,
    Cancel.run renewalLoop Cancel.renewalFunc sched
      (Race.racing Scenario.dr_armed w) = Some s /\
    Race.settled s /\
    domainRenewal.timer (Race.obj s) = None /\
    Race.attempts s = 3%nat /\
    ~ (Race.attempts s <= 1 + 1)%nat /\
    t_after <$> timers (Race.world s) = [0; 0; 0; 0] /\
    t_status <$> timers (Race.world s) = [Fired; Fired; Fired; Stopped].
Proof.
  intros w sched. split; [reflexivity|].
  eexists. split; [vm_compute; reflexivity|].
  split; [split; [reflexivity | repeat constructor]|].
  split; [reflexivity|]. split; [reflexivity|].
  split; [simpl; lia|]. split; reflexivity.
Qed.


(** * Further properties of the embedded code *)

(** ** [start] and [stop] *)

Lemma stop_timer_not_pending (t : Timer) : t_status (stop_timer t) <> Pending.
Proof.
  unfold stop_timer. destruct (t_status t) eqn:Hs; simpl; congruence.
Qed.

Lemma stopped_not_pending (ts : list Timer) (h : nat) :
  ~ Race.pending (stopped_timers (Some h) ts) h.
Proof.
  intros (t & Hl & Hp). simpl in Hl. rewrite list_lookup_alter_eq in Hl.
  destruct (ts !! h) as [t0|]; [|discriminate]. simpl in Hl.
  injection Hl as <-. exact (stop_timer_not_pending t0 Hp).
Qed.

Lemma stopped_others (ts : list Timer) (h h' : nat) :
  h <> h' -> stopped_timers (Some h) ts !! h' = ts !! h'.
Proof. intros Hne. simpl. apply list_lookup_alter_ne. exact Hne. Qed.

Lemma stopped_length (o : option nat) (ts : list Timer) :
  length (stopped_timers o ts) = length ts.
Proof. destruct o; simpl; [apply length_alter | reflexivity]. Qed.

Section StartStop.
Context {Ext : Type} `{!AutocertEnv Ext}.

Lemma dr_stop_eq (dr : domainRenewal.t) (w : World Ext) :
  domainRenewal.stop dr w
  = Done (domainRenewal.with_timer dr None)
      (set_timers (stopped_timers (domainRenewal.timer dr) (timers w))
         (lock_unlock "timerMu" w)).
Proof.
  unfold domainRenewal.stop, locked. destruct dr as [d k [h|]]; reflexivity.
Qed.

Lemma ou_stop_eq (ou : ocspUpdater.t) (w : World Ext) :
  ocspUpdater.stop ou w
  = Done (ocspUpdater.with_timer ou None)
      (set_timers (stopped_timers (ocspUpdater.timer ou) (timers w))
         (lock_unlock "timerMu" w)).
Proof.
  unfold ocspUpdater.stop, locked. destruct ou as [d [h|]]; reflexivity.
Qed.

(** X1.  [stop] always returns with the timer field nil.  It creates no
    timer, leaves the timer that was in the field not pending and every
    other timer as it was, makes no call and touches neither the Manager
    nor the collaborators; a second [stop] changes nothing but the
    record of the lock.  The same holds of the updater's [stop]. *)
Theorem stop_clears_timer (dr : domainRenewal.t) (ou : ocspUpdater.t)
    (w : World Ext) :
  (exists w1,
     domainRenewal.stop dr w = Done (domainRenewal.with_timer dr None) w1 /\
     timers w1 = stopped_timers (domainRenewal.timer dr) (timers w) /\
     length (timers w1) = length (timers w) /\
     (forall h, domainRenewal.timer dr = Some h ->
        ~ Race.pending (timers w1) h /\
        forall h', h <> h' -> timers w1 !! h' = timers w !! h') /\
     mgr w1 = mgr w /\ ext w1 = ext w /\
     trace w1 = EvUnlock "timerMu" :: EvLock "timerMu" :: trace w /\
     domainRenewal.stop (domainRenewal.with_timer dr None) w1
       = Done (domainRenewal.with_timer dr None) (lock_unlock "timerMu" w1)) /\
  (exists w1,
     ocspUpdater.stop ou w = Done (ocspUpdater.with_timer ou None) w1 /\
     timers w1 = stopped_timers (ocspUpdater.timer ou) (timers w) /\
     length (timers w1) = length (timers w) /\
     (forall h, ocspUpdater.timer ou = Some h ->
        ~ Race.pending (timers w1) h /\
        forall h', h <> h' -> timers w1 !! h' = timers w !! h') /\
     mgr w1 = mgr w /\ ext w1 = ext w /\
     trace w1 = EvUnlock "timerMu" :: EvLock "timerMu" :: trace w /\
     ocspUpdater.stop (ocspUpdater.with_timer ou None) w1
       = Done (ocspUpdater.with_timer ou None) (lock_unlock "timerMu" w1)).
Proof.
  split.
  - eexists. split; [apply dr_stop_eq|]. simpl.
    split; [reflexivity|]. split; [apply stopped_length|].
    split.
    { intros h Hh. rewrite Hh. split; [apply stopped_not_pending|].
      intros h' Hne. apply stopped_others. exact Hne. }
    split; [reflexivity|]. split; [reflexivity|]. split; [reflexivity|].
    rewrite dr_stop_eq. reflexivity.
  - eexists. split; [apply ou_stop_eq|]. simpl.
    split; [reflexivity|]. split; [apply stopped_length|].
    split.
    { intros h Hh. rewrite Hh. split; [apply stopped_not_pending|].
      intros h' Hne. apply stopped_others. exact Hne. }
    split; [reflexivity|]. split; [reflexivity|]. split; [reflexivity|].
    rewrite ou_stop_eq. reflexivity.
Qed.

End StartStop.

Section StartIdle.
Context {Ext : Type} `{!AutocertEnv Ext}.

Lemma dr_start_idle_eq (dr : domainRenewal.t) (exp : Z) (w : World Ext) (d : Z)
    (w1 : World Ext) :
  domainRenewal.timer dr = None ->
  domainRenewal.next dr exp (under_timerMu w) = Done d w1 ->
  domainRenewal.start dr exp w
  = Done (domainRenewal.with_timer dr (Some (length (timers w))))
      (set_trace (EvUnlock "timerMu" :: trace w1)
         (set_timers (timers w ++ [Build_Timer d (CbRenew (domainRenewal.domain dr)) Pending])
            w1)).
Proof.
  intros Hidle Hnext. unfold domainRenewal.start, locked. rewrite Hidle.
  fold (under_timerMu w). unfold domainRenewal.start_idle, bind. rewrite Hnext.
  rewrite dr_next_eq in Hnext. injection Hnext as _ <-. reflexivity.
Qed.

Lemma ou_start_idle_eq (ou : ocspUpdater.t) (exp : Z) (w : World Ext) (d : Z)
    (w1 : World Ext) :
  ocspUpdater.timer ou = None ->
  ocspUpdater.next ou exp (under_timerMu w) = Done d w1 ->
  ocspUpdater.start ou exp w
  = Done (ocspUpdater.with_timer ou (Some (length (timers w))))
      (set_trace (EvUnlock "timerMu" :: trace w1)
         (set_timers (timers w ++ [Build_Timer d (CbUpdate (ocspUpdater.domain ou)) Pending])
            w1)).
Proof.
  intros Hidle Hnext. unfold ocspUpdater.start, locked. rewrite Hidle.
  fold (under_timerMu w). unfold ocspUpdater.start_idle, bind. rewrite Hnext.
  rewrite ou_next_eq in Hnext. injection Hnext as _ <-. reflexivity.
Qed.

(** X2.  [start] on an idle scheduler arms exactly one timer: a new
    pending timer at the end of the table, with the scheduler's callback
    and the interval [next] computes from the expiry, which is never
    negative; its handle becomes the timer field.  No collaborator is
    called and the Manager is untouched.  A second [start], whatever its
    expiry, then changes nothing but the record of the lock. *)
Theorem start_idle_arms_one_timer (dr : domainRenewal.t) (exp exp' : Z)
    (w : World Ext) :
  domainRenewal.timer dr = None ->
  exists d w1 dr' w',
    domainRenewal.next dr exp (under_timerMu w) = Done d w1 /\
    0 <= d /\
    domainRenewal.start dr exp w = Done dr' w' /\
    domainRenewal.timer dr' = Some (length (timers w)) /\
    timers w' = timers w ++ [Build_Timer d (CbRenew (domainRenewal.domain dr)) Pending] /\
    mgr w' = mgr w /\
    trace w' = EvUnlock "timerMu" :: EvLock "timerMu" :: trace w /\
    domainRenewal.start dr' exp' w' = Done dr' (lock_unlock "timerMu" w').
Proof.
  intros Hidle.
  destruct (dr_next_nonneg dr exp (under_timerMu w)) as (d & w1 & Hnext & Hd).
  exists d, w1. eexists _, _. split; [exact Hnext|]. split; [exact Hd|].
  split; [apply (dr_start_idle_eq dr exp w d w1 Hidle Hnext)|].
  rewrite dr_next_eq in Hnext. injection Hnext as _ <-.
  split; [reflexivity|]. split; [reflexivity|]. split; [reflexivity|].
  split; reflexivity.
Qed.

(** X3.  The same for the updater: [start] on an idle updater arms one
    pending timer with the updater's callback and a non-negative
    interval, and a second [start] is a no-op. *)
Theorem ocsp_start_idle_arms_one_timer (ou : ocspUpdater.t) (exp exp' : Z)
    (w : World Ext) :
  ocspUpdater.timer ou = None ->
  exists d w1 ou' w',
    ocspUpdater.next ou exp (under_timerMu w) = Done d w1 /\
    0 <= d /\
    ocspUpdater.start ou exp w = Done ou' w' /\
    ocspUpdater.timer ou' = Some (length (timers w)) /\
    timers w' = timers w ++ [Build_Timer d (CbUpdate (ocspUpdater.domain ou)) Pending] /\
    mgr w' = mgr w /\
    trace w' = EvUnlock "timerMu" :: EvLock "timerMu" :: trace w /\
    ocspUpdater.start ou' exp' w' = Done ou' (lock_unlock "timerMu" w').
Proof.
  intros Hidle.
  assert (Hnext : ocspUpdater.next ou exp (under_timerMu w)
                  = Done _ _) by apply ou_next_eq.
  eexists _, _, _, _. split; [exact Hnext|]. split; [apply clamp_nonneg|].
  split; [apply (ou_start_idle_eq ou exp w _ _ Hidle Hnext)|].
  split; [reflexivity|]. split; [reflexivity|]. split; [reflexivity|].
  split; reflexivity.
Qed.

(** X4.  [stop] right after [start] cancels what [start] armed: the
    timer [start] appended is stopped without having fired, the field is
    nil again, and the table is otherwise as before [start]. *)
Theorem stop_cancels_start (dr : domainRenewal.t) (exp : Z) (w : World Ext) :
  domainRenewal.timer dr = None ->
  exists d dr1 w1 w2,
    domainRenewal.start dr exp w = Done dr1 w1 /\
    domainRenewal.stop dr1 w1 = Done dr w2 /\
    timers w2 = timers w ++ [Build_Timer d (CbRenew (domainRenewal.domain dr)) Stopped] /\
    mgr w2 = mgr w.
Proof.
  intros Hidle.
  assert (Hnext : domainRenewal.next dr exp (under_timerMu w) = Done _ _)
    by apply dr_next_eq.
  eexists _, _, _, _.
  split; [apply (dr_start_idle_eq dr exp w _ _ Hidle Hnext)|].
  rewrite dr_stop_eq. simpl.
  split; [f_equal; destruct dr as [dm k t]; simpl in *; subst t; reflexivity|].
  split; [|reflexivity].
  rewrite alter_app_r_alt by lia. rewrite Nat.sub_diag. reflexivity.
Qed.

(** X5.  A callback that fires after [stop] is inert: [renew] on a
    stopped scheduler and [update] on a stopped updater return at the
    armed check, with no cache read, no issuance or OCSP call, no timer
    created and the timer field still nil. *)
Theorem callback_after_stop_is_inert (dr : domainRenewal.t) (ou : ocspUpdater.t)
    (w : World Ext) :
  (exists dr1 w1,
     domainRenewal.stop dr w = Done dr1 w1 /\
     domainRenewal.renew dr1 w1 = Done dr1 (lock_unlock "timerMu" w1) /\
     domainRenewal.timer dr1 = None) /\
  (exists ou1 w1,
     ocspUpdater.stop ou w = Done ou1 w1 /\
     ocspUpdater.update ou1 w1 = Done ou1 (lock_unlock "timerMu" w1) /\
     ocspUpdater.timer ou1 = None).
Proof.
  split.
  - eexists _, _. split; [apply dr_stop_eq|]. split; reflexivity.
  - eexists _, _. split; [apply ou_stop_eq|]. split; reflexivity.
Qed.

End StartIdle.

(** ** One renewal attempt, case by case *)

Section DoOutcomes.
Context {Ext : Type} `{!AutocertEnv Ext}.

(** The three ways [do] can end: at the stale check, with an error from
    the authority or from the assembly of the certificate, or with the
    new state installed. *)
Lemma do_issue_outcomes (dr : domainRenewal.t) (ctx : Z) (w : World Ext) :
  exists r w',
    domainRenewal.do_issue dr ctx w = Done r w' /\
    0 <= fst r /\
    timers w' = timers w /\
    ((exists e, r = (0, Some e) /\
        trace w' = EvIssue (domainRenewal.domain dr) :: trace w /\
        mgr w' = mgr w) \/
     (exists der lf,
        snd r = None /\
        trace w' = EvUnlock "stateMu" :: EvLock "stateMu"
                   :: EvCachePut (domainRenewal.domain dr)
                   :: EvIssue (domainRenewal.domain dr) :: trace w /\
        state (mgr w') = <[domainRenewal.domain dr :=
                            Build_certState (domainRenewal.key dr) der lf]>
                           (state (mgr w)) /\
        ocspStates (mgr w') = ocspStates (mgr w) /\
        renewBefore (mgr w') = renewBefore (mgr w))).
Proof.
  unfold domainRenewal.do_issue, bind, call, ret.
  destruct (authorizedCert ctx (domainRenewal.key dr) (domainRenewal.domain dr) (ext w))
    as [[[der lf]|e] x1]; simpl.
  - destruct (tlscert _) as [c|e]; simpl.
    + destruct (cachePut ctx (domainRenewal.domain dr) c x1) as [pe x2]; simpl.
      unfold locked, bind, put_state. simpl. rewrite dr_next_eq. simpl.
      eexists _, _. split; [reflexivity|]. simpl.
      split; [apply clamp_nonneg|]. split; [reflexivity|]. right.
      exists der, lf. repeat split.
    + eexists _, _. split; [reflexivity|]. simpl. split; [lia|].
      split; [reflexivity|]. left. eexists. repeat split.
  - eexists _, _. split; [reflexivity|]. simpl. split; [lia|].
    split; [reflexivity|]. left. eexists. repeat split.
Qed.

Lemma do_outcomes (dr : domainRenewal.t) (ctx : Z) (w : World Ext) :
  exists r w',
    domainRenewal.do dr ctx w = Done r w' /\
    0 <= fst r /\
    timers w' = timers w /\
    ((snd r = None /\
      trace w' = EvCacheGet (domainRenewal.domain dr) :: trace w /\
      mgr w' = mgr w) \/
     (exists e, r = (0, Some e) /\
        trace w' = EvIssue (domainRenewal.domain dr)
                   :: EvCacheGet (domainRenewal.domain dr) :: trace w /\
        mgr w' = mgr w) \/
     (exists der lf,
        snd r = None /\
        trace w' = EvUnlock "stateMu" :: EvLock "stateMu"
                   :: EvCachePut (domainRenewal.domain dr)
                   :: EvIssue (domainRenewal.domain dr)
                   :: EvCacheGet (domainRenewal.domain dr) :: trace w /\
        state (mgr w') = <[domainRenewal.domain dr :=
                            Build_certState (domainRenewal.key dr) der lf]>
                           (state (mgr w)) /\
        ocspStates (mgr w') = ocspStates (mgr w) /\
        renewBefore (mgr w') = renewBefore (mgr w))).
Proof.
  assert (Hissue : forall wi,
    trace wi = EvCacheGet (domainRenewal.domain dr) :: trace w ->
    timers wi = timers w -> mgr wi = mgr w ->
    exists r w',
      domainRenewal.do_issue dr ctx wi = Done r w' /\
      0 <= fst r /\
      timers w' = timers w /\
      ((snd r = None /\
        trace w' = EvCacheGet (domainRenewal.domain dr) :: trace w /\
        mgr w' = mgr w) \/
       (exists e, r = (0, Some e) /\
          trace w' = EvIssue (domainRenewal.domain dr)
                     :: EvCacheGet (domainRenewal.domain dr) :: trace w /\
          mgr w' = mgr w) \/
       (exists der lf,
          snd r = None /\
          trace w' = EvUnlock "stateMu" :: EvLock "stateMu"
                     :: EvCachePut (domainRenewal.domain dr)
                     :: EvIssue (domainRenewal.domain dr)
                     :: EvCacheGet (domainRenewal.domain dr) :: trace w /\
          state (mgr w') = <[domainRenewal.domain dr :=
                              Build_certState (domainRenewal.key dr) der lf]>
                             (state (mgr w)) /\
          ocspStates (mgr w') = ocspStates (mgr w) /\
          renewBefore (mgr w') = renewBefore (mgr w)))).
  { intros wi Htr Hts Hm.
    destruct (do_issue_outcomes dr ctx wi) as (r & w' & Hr & Hpos & Ht & Hcase).
    exists r, w'. split; [exact Hr|]. split; [exact Hpos|].
    split; [congruence|]. right.
    destruct Hcase as [(e & -> & Htr' & Hm') | (der & lf & Hs & Htr' & Hst & Ho & Hrb)].
    - left. exists e. split; [reflexivity|]. split; congruence.
    - right. exists der, lf. rewrite Htr', Htr, Hst, Ho, Hrb, Hm. repeat split; assumption. }
  unfold domainRenewal.do, bind, call.
  destruct (cacheGet ctx (domainRenewal.domain dr) (ext w)) as [[c|e] x1]; simpl.
  - rewrite dr_next_eq. simpl. unfold get_world, ret.
    match goal with |- context [if ?b then _ else _] => destruct b end; simpl.
    + eexists _, _. split; [reflexivity|]. simpl. split; [apply clamp_nonneg|].
      split; [reflexivity|]. left. repeat split.
    + apply Hissue; reflexivity.
  - unfold ret. apply Hissue; reflexivity.
Qed.

End DoOutcomes.

Section DoProperties.
Context {Ext : Type} `{!AutocertEnv Ext}.

(** What the issuing half does with the answer of the authority. *)
Lemma do_issue_cases (dr : domainRenewal.t) (ctx : Z) (w : World Ext) :
  exists r w',
    domainRenewal.do_issue dr ctx w = Done r w' /\
    timers w' = timers w /\
    match fst (authorizedCert ctx (domainRenewal.key dr) (domainRenewal.domain dr) (ext w)) with
    | Err e =>
        r = (0, Some e) /\ mgr w' = mgr w /\
        trace w' = EvIssue (domainRenewal.domain dr) :: trace w
    | Ok (der, lf) =>
        match tlscert (Build_certState (domainRenewal.key dr) der lf) with
        | Err e =>
            r = (0, Some e) /\ mgr w' = mgr w /\
            trace w' = EvIssue (domainRenewal.domain dr) :: trace w
        | Ok _ =>
            snd r = None /\
            mgr w' = {| state := <[domainRenewal.domain dr :=
                                    Build_certState (domainRenewal.key dr) der lf]>
                                   (state (mgr w));
                        ocspStates := ocspStates (mgr w);
                        renewBefore := renewBefore (mgr w) |} /\
            trace w' = EvUnlock "stateMu" :: EvLock "stateMu"
                       :: EvCachePut (domainRenewal.domain dr)
                       :: EvIssue (domainRenewal.domain dr) :: trace w
        end
    end.
Proof.
  unfold domainRenewal.do_issue, bind, call, ret.
  destruct (authorizedCert ctx (domainRenewal.key dr) (domainRenewal.domain dr) (ext w))
    as [[[der lf]|e] x1]; simpl.
  - destruct (tlscert _) as [c|e]; simpl.
    + destruct (cachePut ctx (domainRenewal.domain dr) c x1) as [pe x2]; simpl.
      unfold locked, bind, put_state. simpl. rewrite dr_next_eq. simpl.
      eexists _, _. split; [reflexivity|]. repeat split.
    + eexists _, _. split; [reflexivity|]. repeat split.
  - eexists _, _. split; [reflexivity|]. repeat split.
Qed.

(** Where the issuing half starts: [do] either stops at the stale check,
    which takes a cache hit, or hands over to [do_issue] in a world that
    differs from the initial one by the cache read only. *)
Lemma do_splits (dr : domainRenewal.t) (ctx : Z) (w : World Ext) :
  (exists c nxt w',
     fst (cacheGet ctx (domainRenewal.domain dr) (ext w)) = Ok c /\
     domainRenewal.do dr ctx w = Done (nxt, None) w' /\
     trace w' = EvCacheGet (domainRenewal.domain dr) :: trace w /\
     mgr w' = mgr w /\ timers w' = timers w) \/
  (exists w1,
     domainRenewal.do dr ctx w = domainRenewal.do_issue dr ctx w1 /\
     trace w1 = EvCacheGet (domainRenewal.domain dr) :: trace w /\
     mgr w1 = mgr w /\ timers w1 = timers w).
Proof.
  unfold domainRenewal.do, bind, call.
  destruct (cacheGet ctx (domainRenewal.domain dr) (ext w)) as [[c|e] x1]; simpl.
  - rewrite dr_next_eq. simpl. unfold get_world, ret.
    match goal with |- context [if ?b then _ else _] => destruct b end; simpl.
    + left. eexists c, _, _. split; [reflexivity|]. split; [reflexivity|]. repeat split.
    + right. eexists. split; [reflexivity|]. repeat split.
  - right. eexists. split; [reflexivity|]. repeat split.
Qed.

(** X6.  One attempt always returns, and in one of three ways.  At the
    stale check, which takes a cache hit: only the cache read is on
    record, the Manager is as it was, the error is nil.  With an error,
    which is the authority's or that of the assembly of what it issued:
    the cache read and one call to the authority are on record, the
    duration is zero and the Manager is as it was.  Or after the
    authority has issued a certificate that assembled: then, and only
    then, the cache is written and [stateMu] taken, once each, the
    Manager's map gets the state made of the scheduler's key and what
    the authority answered, under the scheduler's domain, and nothing
    else of the Manager changes.  No timer is touched. *)
Theorem do_calls_authority_at_most_once (dr : domainRenewal.t) (ctx : Z)
    (w : World Ext) :
  exists r w',
    domainRenewal.do dr ctx w = Done r w' /\
    timers w' = timers w /\
    ((exists c,
        fst (cacheGet ctx (domainRenewal.domain dr) (ext w)) = Ok c /\
        snd r = None /\
        trace w' = [EvCacheGet (domainRenewal.domain dr)] ++ trace w /\
        mgr w' = mgr w) \/
     (exists w1,
        domainRenewal.do dr ctx w = domainRenewal.do_issue dr ctx w1 /\
        trace w1 = EvCacheGet (domainRenewal.domain dr) :: trace w /\
        let answer :=
          fst (authorizedCert ctx (domainRenewal.key dr) (domainRenewal.domain dr)
                 (ext w1)) in
        (exists e,
           (answer = Err e \/
            exists der lf,
              answer = Ok (der, lf) /\
              tlscert (Build_certState (domainRenewal.key dr) der lf) = Err e) /\
           r = (0, Some e) /\
           trace w' = [EvIssue (domainRenewal.domain dr);
                       EvCacheGet (domainRenewal.domain dr)] ++ trace w /\
           mgr w' = mgr w) \/
        (exists der lf c,
           answer = Ok (der, lf) /\
           tlscert (Build_certState (domainRenewal.key dr) der lf) = Ok c /\
           snd r = None /\
           trace w' = [EvUnlock "stateMu"; EvLock "stateMu";
                       EvCachePut (domainRenewal.domain dr);
                       EvIssue (domainRenewal.domain dr);
                       EvCacheGet (domainRenewal.domain dr)] ++ trace w /\
           state (mgr w') = <[domainRenewal.domain dr :=
                               Build_certState (domainRenewal.key dr) der lf]>
                              (state (mgr w)) /\
           ocspStates (mgr w') = ocspStates (mgr w) /\
           renewBefore (mgr w') = renewBefore (mgr w)))).
Proof.
  destruct (do_splits dr ctx w)
    as [(c & nxt & w' & Hget & Hdo & Htr & Hm & Ht) | (w1 & Hdo & Htr1 & Hm1 & Ht1)].
  - exists (nxt, None), w'. split; [exact Hdo|]. split; [exact Ht|].
    left. exists c. repeat split; assumption.
  - destruct (do_issue_cases dr ctx w1) as (r & w' & Hiss & Ht & Hcase).
    exists r, w'. split; [rewrite Hdo; exact Hiss|]. split; [congruence|].
    right. exists w1. split; [exact Hdo|]. split; [exact Htr1|]. simpl.
    destruct (fst (authorizedCert ctx (domainRenewal.key dr) (domainRenewal.domain dr)
                     (ext w1))) as [[der lf]|e] eqn:Hans.
    + destruct (tlscert (Build_certState (domainRenewal.key dr) der lf)) as [c|e] eqn:Hasm.
      * right. destruct Hcase as (Hs & Hm & Htr). exists der, lf, c.
        split; [reflexivity|]. split; [exact Hasm|]. split; [exact Hs|].
        split; [rewrite Htr, Htr1; reflexivity|].
        rewrite Hm, Hm1. repeat split.
      * left. destruct Hcase as (Hr & Hm & Htr). exists e.
        split; [right; exists der, lf; split; [reflexivity | exact Hasm]|].
        split; [exact Hr|]. split; [rewrite Htr, Htr1; reflexivity | congruence].
    + left. destruct Hcase as (Hr & Hm & Htr). exists e.
      split; [left; reflexivity|].
      split; [exact Hr|]. split; [rewrite Htr, Htr1; reflexivity | congruence].
Qed.

(** X7.  An attempt that returns an error returns the zero duration and
    leaves the Manager as it was: the state that was being served stays
    in the map, and no timer is touched. *)
Theorem do_error_leaves_manager (dr : domainRenewal.t) (ctx : Z)
    (w w' : World Ext) (d : Z) (e : error) :
  domainRenewal.do dr ctx w = Done (d, Some e) w' ->
  d = 0 /\ mgr w' = mgr w /\ timers w' = timers w.
Proof.
  intros Hdo.
  destruct (do_outcomes dr ctx w) as (r & w0 & Hdo0 & _ & Ht & Hcase).
  rewrite Hdo in Hdo0. injection Hdo0 as <- <-.
  destruct Hcase as [(Hs & _) | [(e0 & Hr & _ & Hm) | (der & lf & Hs & _)]];
    try discriminate.
  injection Hr as -> _. auto.
Qed.

(** X8.  Whatever its outcome, an attempt writes no entry of the
    Manager's map but its own domain's, leaves [ocspStates] and the
    renew-before window alone, and creates or stops no timer; when it
    does write its entry, the new state carries the scheduler's own key
    and the attempt reports success. *)
Theorem do_writes_only_its_domain (dr : domainRenewal.t) (ctx : Z)
    (w w' : World Ext) (r : Z * option error) (other : string) :
  domainRenewal.do dr ctx w = Done r w' ->
  other <> domainRenewal.domain dr ->
  state (mgr w') !! other = state (mgr w) !! other /\
  ocspStates (mgr w') = ocspStates (mgr w) /\
  renewBefore (mgr w') = renewBefore (mgr w) /\
  timers w' = timers w /\
  (state (mgr w') = state (mgr w) \/
   exists st, state (mgr w') !! domainRenewal.domain dr = Some st /\
              key st = domainRenewal.key dr /\ snd r = None).
Proof.
  intros Hdo Hne.
  destruct (do_outcomes dr ctx w) as (r0 & w0 & Hdo0 & _ & Ht & Hcase).
  rewrite Hdo in Hdo0. injection Hdo0 as <- <-.
  destruct Hcase as [(_ & _ & Hm) | [(e & _ & _ & Hm) | (der & lf & Hs & _ & Hst & Ho & Hrb)]].
  - rewrite Hm. repeat split; auto.
  - rewrite Hm. repeat split; auto.
  - rewrite Hst, Ho, Hrb. split; [apply lookup_insert_ne; congruence|].
    repeat split; [exact Ht|]. right.
    eexists. split; [apply lookup_insert_eq|]. split; [reflexivity | exact Hs].
Qed.

Lemma renew_armed_interval (dr : domainRenewal.t) (w : World Ext) :
  exists nxt w',
    domainRenewal.renew_armed dr w
      = Done (domainRenewal.with_timer dr (Some (length (timers w)))) w' /\
    timers w' = timers w ++ [Build_Timer nxt (CbRenew (domainRenewal.domain dr)) Pending] /\
    0 <= nxt.
Proof.
  destruct (do_outcomes dr (10 * GoTime.Minute) w) as (r & w1 & Hdo & Hpos & Ht & _).
  unfold domainRenewal.renew_armed, bind. rewrite Hdo.
  destruct r as [n [e|]]; simpl in *.
  - rewrite backoff_eq. unfold AfterFunc, emit, ret. simpl. rewrite Ht.
    eexists _, _. split; [reflexivity|]. split; [reflexivity|].
    pose proof (int63n_range (Z.quot renewJitter 2) (ext w1) eq_refl) as Hj.
    rewrite half_jitter_value in *. lia.
  - unfold AfterFunc, emit, ret. simpl. rewrite Ht.
    eexists _, _. split; [reflexivity|]. split; [reflexivity | exact Hpos].
Qed.

Lemma update_armed_interval (ou : ocspUpdater.t) (w : World Ext) (st : ocspState) :
  ocspStates (mgr w) !! ocspUpdater.domain ou = Some st ->
  exists nxt w',
    ocspUpdater.update_armed ou w
      = Done (ocspUpdater.with_timer ou (Some (length (timers w)))) w' /\
    timers w' = timers w ++ [Build_Timer nxt (CbUpdate (ocspUpdater.domain ou)) Pending] /\
    0 <= nxt.
Proof.
  intros Hst. unfold ocspUpdater.update_armed, bind, get_ocspState, call.
  rewrite Hst.
  destruct (updateOCSPStapling (5 * GoTime.Minute) (ocsp_leaf st) (ocsp_issuer st) (ext w))
    as [[[der resp]|e] x1]; simpl.
  - unfold locked, bind, put_ocspState. simpl. rewrite ou_next_eq. simpl.
    eexists _, _. split; [reflexivity|]. split; [reflexivity | apply clamp_nonneg].
  - rewrite backoff_eq. simpl.
    eexists _, _. split; [reflexivity|]. split; [reflexivity|].
    match goal with
    | |- context [int63n ?n ?x] => pose proof (int63n_range n x eq_refl) as Hj
    end.
    rewrite half_jitter_value in *. lia.
Qed.

(** X9.  No timer is ever armed with a negative interval.  In every
    world, the timer an armed [renew] appends carries the scheduler's
    callback and an interval of at least zero; and so does, with the
    updater's callback, the one an armed [update] appends when its
    domain has an OCSP state; whatever the expiry dates, the clock and
    the outcome of the attempt.  The half on [renew] asks nothing of the
    OCSP states. *)
Theorem rearmed_interval_never_negative (w : World Ext) :
  (forall (dr : domainRenewal.t) (hd : nat),
     domainRenewal.timer dr = Some hd ->
     exists nxt dr' w',
       domainRenewal.renew dr w = Done dr' w' /\
       timers w' = timers w ++ [Build_Timer nxt (CbRenew (domainRenewal.domain dr)) Pending] /\
       0 <= nxt) /\
  (forall (ou : ocspUpdater.t) (ho : nat) (st : ocspState),
     ocspUpdater.timer ou = Some ho ->
     ocspStates (mgr w) !! ocspUpdater.domain ou = Some st ->
     exists nxt ou' w',
       ocspUpdater.update ou w = Done ou' w' /\
       timers w' = timers w ++ [Build_Timer nxt (CbUpdate (ocspUpdater.domain ou)) Pending] /\
       0 <= nxt).
Proof.
  split.
  - intros dr hd Hdr.
    destruct (renew_armed_interval dr (under_timerMu w)) as (nxt & w' & Hre & Ht & Hpos).
    unfold domainRenewal.renew, locked. rewrite Hdr. fold (under_timerMu w).
    rewrite Hre. eexists nxt, _, _. split; [reflexivity|]. split; [exact Ht | exact Hpos].
  - intros ou ho st Hou Hst.
    destruct (update_armed_interval ou (under_timerMu w) st Hst)
      as (nxt & w' & Hup & Ht & Hpos).
    unfold ocspUpdater.update, locked. rewrite Hou. fold (under_timerMu w).
    rewrite Hup. eexists nxt, _, _. split; [reflexivity|]. split; [exact Ht | exact Hpos].
Qed.

End DoProperties.

Section MoreRenewal.
Context {Ext : Type} `{!AutocertEnv Ext}.

Lemma do_issue_calls_authority (dr : domainRenewal.t) (ctx : Z) (w : World Ext) :
  exists r w',
    domainRenewal.do_issue dr ctx w = Done r w' /\
    In (EvIssue (domainRenewal.domain dr)) (trace w').
Proof.
  destruct (do_issue_outcomes dr ctx w) as (r & w' & Hr & _ & _ & Hcase).
  exists r, w'. split; [exact Hr|].
  destruct Hcase as [(e & _ & Htr & _) | (der & lf & _ & Htr & _)]; rewrite Htr; simpl; auto.
Qed.

(** X10.  The converse of the stale check.  An attempt calls the
    authority whenever the cache cannot be read, for whatever reason,
    and whenever the cached certificate's remaining validity [E - now]
    is at most [2 * renewBefore + renewJitter + j], [j] being the jitter
    [next] draws; in particular a certificate inside the renew-before
    window is always re-issued. *)
Theorem do_issues_when_due (dr : domainRenewal.t) (ctx : Z) (w : World Ext)
    (x1 : Ext) (res : Result tls.Certificate) :
  cacheGet ctx (domainRenewal.domain dr) (ext w) = (res, x1) ->
  match res with
  | Err _ => True
  | Ok c =>
      let now := fst (timeNow x1) in
      let rb := renewBefore (mgr w) in
      let j := fst (int63n renewJitter (snd (timeNow x1))) in
      let E := x509.NotAfter (tls.Leaf c) in
      0 <= rb /\ rb + renewJitter <= GoTime.maxInt64 /\
      GoTime.minInt64 <= E - now <= GoTime.maxInt64 /\
      GoTime.minInt64 <= E - now - rb - renewJitter /\
      E - now <= 2 * rb + renewJitter + j
  end ->
  exists r w',
    domainRenewal.do dr ctx w = Done r w' /\
    In (EvIssue (domainRenewal.domain dr)) (trace w').
Proof.
  intros Hget Hdue. destruct res as [c|e].
  - destruct Hdue as (Hrb & Hsum & Hlo & Hlo' & Hdue).
    pose proof (jitter_range (snd (timeNow x1))) as Hj.
    assert (HJ : renewJitter = 3600000000000) by reflexivity.
    assert (Hmin : GoTime.minInt64 = - 2 ^ 63) by reflexivity.
    assert (Hmax : GoTime.maxInt64 = 2 ^ 63 - 1) by reflexivity.
    set (now := fst (timeNow x1)) in *.
    set (rb := renewBefore (mgr w)) in *.
    set (j := fst (int63n renewJitter (snd (timeNow x1)))) in *.
    set (E := x509.NotAfter (tls.Leaf c)) in *.
    assert (Hnext :
      domainRenewal.next dr E (after_cacheGet dr x1 w)
      = Done (clamp (E - now - rb - j))
          (set_ext (snd (int63n renewJitter (snd (timeNow x1)))) (after_cacheGet dr x1 w))).
    { rewrite dr_next_eq. simpl. fold now. fold rb. fold j.
      rewrite Sub_exact by lia.
      rewrite (wrap64_id (E - now - rb)) by lia.
      rewrite (wrap64_id (E - now - rb - j)) by lia. reflexivity. }
    rewrite (do_due dr ctx w c x1 _ _ Hget Hnext).
    + apply do_issue_calls_authority.
    + fold rb. rewrite wrap64_id by lia. rewrite clamp_max. lia.
  - rewrite (do_uncached dr ctx w e x1 Hget). apply do_issue_calls_authority.
Qed.

Lemma update_armed_effect (ou : ocspUpdater.t) (w : World Ext)
    (st : ocspState) (res : Result (bytes * ocsp.Response)) (x1 : Ext) :
  ocspStates (mgr w) !! ocspUpdater.domain ou = Some st ->
  updateOCSPStapling (5 * GoTime.Minute) (ocsp_leaf st) (ocsp_issuer st) (ext w)
    = (res, x1) ->
  exists ou' w',
    ocspUpdater.update_armed ou w = Done ou' w' /\
    state (mgr w') = state (mgr w) /\
    renewBefore (mgr w') = renewBefore (mgr w) /\
    match res with
    | Ok (der, response) =>
        ocspStates (mgr w')
        = <[ocspUpdater.domain ou :=
              {| ocsp_leaf := ocsp_leaf st; ocsp_issuer := ocsp_issuer st;
                 ocspDER := der; nextUpdate := ocsp.NextUpdate response |}]>
            (ocspStates (mgr w)) /\
        In (EvDidUpdateLoop (ocsp_interval (ocsp.NextUpdate response) x1) None)
           (trace w')
    | Err e => mgr w' = mgr w
    end.
Proof.
  intros Hst Hfetch.
  unfold ocspUpdater.update_armed, bind, get_ocspState, call.
  rewrite Hst, Hfetch. destruct res as [[der resp]|e]; simpl.
  - unfold locked, bind, put_ocspState. simpl. rewrite ou_next_eq. simpl.
    eexists _, _. split; [reflexivity|]. simpl.
    split; [reflexivity|]. split; [reflexivity|]. split; [reflexivity|].
    right. left. reflexivity.
  - rewrite backoff_eq. simpl.
    eexists _, _. split; [reflexivity|]. simpl.
    split; [reflexivity|]. split; [reflexivity|]. reflexivity.
Qed.

(** X11.  What an armed [update] does to the Manager when its domain has
    an OCSP state.  If the fetch succeeds, the domain's entry of
    [ocspStates] gets the new staple and its next-update time and keeps
    its leaf and issuer, every other entry and the certificate states
    are untouched, and the interval reported is the one [next] computes
    from the response's next-update time.  If the fetch fails, the
    Manager is left as it was: the old staple stays. *)
Theorem update_refreshes_staple (ou : ocspUpdater.t) (w : World Ext) (h : nat)
    (st : ocspState) (res : Result (bytes * ocsp.Response)) (x1 : Ext) :
  ocspUpdater.timer ou = Some h ->
  ocspStates (mgr w) !! ocspUpdater.domain ou = Some st ->
  updateOCSPStapling (5 * GoTime.Minute) (ocsp_leaf st) (ocsp_issuer st) (ext w)
    = (res, x1) ->
  exists ou' w',
    ocspUpdater.update ou w = Done ou' w' /\
    state (mgr w') = state (mgr w) /\
    renewBefore (mgr w') = renewBefore (mgr w) /\
    match res with
    | Ok (der, response) =>
        ocspStates (mgr w')
        = <[ocspUpdater.domain ou :=
              {| ocsp_leaf := ocsp_leaf st; ocsp_issuer := ocsp_issuer st;
                 ocspDER := der; nextUpdate := ocsp.NextUpdate response |}]>
            (ocspStates (mgr w)) /\
        In (EvDidUpdateLoop (ocsp_interval (ocsp.NextUpdate response) x1) None)
           (trace w')
    | Err e => mgr w' = mgr w
    end.
Proof.
  intros Hou Hst Hfetch.
  destruct (update_armed_effect ou (under_timerMu w) st res x1 Hst Hfetch)
    as (ou' & w' & Hup & Hs & Hrb & Hres).
  unfold ocspUpdater.update, locked. rewrite Hou. fold (under_timerMu w).
  rewrite Hup. eexists _, _. split; [reflexivity|]. simpl.
  split; [exact Hs|]. split; [exact Hrb|].
  destruct res as [[der resp]|e]; [|exact Hres].
  destruct Hres as (Ho & Hin). split; [exact Ho|]. right. exact Hin.
Qed.

(** X12.  The updater's [next], where the int64 arithmetic does not
    overflow: it returns [max 0 (E - now - 48h - j)] for the jitter [j]
    drawn from [[0, renewJitter)], so it refreshes a staple between 48
    and 49 hours before its next-update time, and at once when that
    moment has passed. *)
Theorem ocsp_next_clamped_bounds (ou : ocspUpdater.t) (E : Z) (w : World Ext) :
  let now := fst (timeNow (ext w)) in
  GoTime.minInt64 <= E - now <= GoTime.maxInt64 ->
  GoTime.minInt64 <= E - now - 48 * GoTime.Hour - renewJitter ->
  exists d j w',
    ocspUpdater.next ou E w = Done d w' /\
    0 <= j < renewJitter /\
    d = Z.max 0 (E - now - 48 * GoTime.Hour - j) /\
    0 <= d /\
    (E - now <= 48 * GoTime.Hour -> d = 0) /\
    (49 * GoTime.Hour <= E - now ->
     E - now - 49 * GoTime.Hour < d <= E - now - 48 * GoTime.Hour).
Proof.
  intros now Hsub Hlo.
  rewrite ou_next_eq. fold now.
  pose proof (jitter_range (snd (timeNow (ext w)))) as Hj.
  set (j := fst (int63n renewJitter (snd (timeNow (ext w))))) in *.
  assert (HJ : renewJitter = 3600000000000) by reflexivity.
  assert (HH : GoTime.Hour = 3600000000000) by reflexivity.
  assert (Hmin : GoTime.minInt64 = - 2 ^ 63) by reflexivity.
  assert (Hmax : GoTime.maxInt64 = 2 ^ 63 - 1) by reflexivity.
  eexists _, j, _. split; [reflexivity|].
  rewrite Sub_exact by assumption.
  rewrite (wrap64_id (E - now - 48 * GoTime.Hour)) by lia.
  rewrite wrap64_id by lia.
  rewrite clamp_max. repeat split; lia.
Qed.

End MoreRenewal.

(** ** Generating the self-signed pair *)

Section Generation.
Context {Ext : Type} `{!ServerEnv Ext}.

(** [CreateSelfSignedCertificate], step by step: the key, the serial
    number below [2^128], the clock, the certificate. *)
Lemma CreateSelfSignedCertificate_eq (validDays : Z) (org : list string)
    (w : World Ext) :
  server.CreateSelfSignedCertificate validDays org w =
  let w1 := set_ext (snd (ecdsa_GenerateKey (ext w)))
              (set_trace (EvGenerateKey :: trace w) w) in
  match fst (ecdsa_GenerateKey (ext w)) with
  | Err e =>
      Done ([], [], Some (Errorf "self_singed: failed generate private key: %v" e)) w1
  | Ok privKey =>
      let w2 := set_ext (snd (rand_Int (Z.shiftl 1 128) (ext w1))) w1 in
      match fst (rand_Int (Z.shiftl 1 128) (ext w1)) with
      | Err e =>
          Done ([], [], Some (Errorf "self_signed: failed generate serial number: %v" e)) w2
      | Ok serialNumber =>
          let w3 := set_ext (snd (time_Now (ext w2))) w2 in
          let tmpl := selfSignedTemplate validDays org serialNumber
                        (fst (time_Now (ext w2))) in
          let w4 := set_ext (snd (x509_CreateCertificate tmpl privKey (ext w3)))
                      (set_trace (EvCreateCertificate :: trace w3) w3) in
          match fst (x509_CreateCertificate tmpl privKey (ext w3)) with
          | Err e =>
              Done ([], [], Some (Errorf "self_signed: failed create certificate: %v" e)) w4
          | Ok certBytes =>
              Done (pem_EncodeToMemory "CERTIFICATE" certBytes,
                    EncodeECDSAKey privKey, None) w4
          end
      end
  end.
Proof.
  unfold server.CreateSelfSignedCertificate, bind, call, ask, ret. simpl.
  destruct (ecdsa_GenerateKey (ext w)) as [[k|e] x1]; simpl; [|reflexivity].
  destruct (rand_Int (Z.shiftl 1 128) x1) as [[sn|e] x2]; simpl; [|reflexivity].
  destruct (time_Now x2) as [now x3]; simpl.
  unfold selfSignedTemplate.
  match goal with
  | |- context [x509_CreateCertificate ?t ?k ?x] =>
      destruct (x509_CreateCertificate t k x) as [[cb|e] x4]
  end; reflexivity.
Qed.

End Generation.

Lemma key_usage_value :
  Z.lor (Z.lor x509.KeyUsageDigitalSignature x509.KeyUsageKeyEncipherment)
        x509.KeyUsageCertSign = 37.
Proof. reflexivity. Qed.

Lemma testbit_37 (n : Z) : Z.testbit 37 n = true <-> n = 0 \/ n = 2 \/ n = 5.
Proof.
  split.
  - intros Hb. destruct (Z.ltb_spec n 0) as [Hneg|Hpos].
    + rewrite Z.testbit_neg_r in Hb by exact Hneg. discriminate.
    + destruct (Z.ltb_spec n 6) as [Hlt|Hge].
      * assert (Hn : n = 0 \/ n = 1 \/ n = 2 \/ n = 3 \/ n = 4 \/ n = 5) by lia.
        destruct Hn as [-> | [-> | [-> | [-> | [-> | ->]]]]];
          simpl in Hb; try discriminate; auto.
      * rewrite Z.bits_above_log2 in Hb; [discriminate | lia |].
        change (Z.log2 37) with 5. lia.
  - intros [-> | [-> | ->]]; reflexivity.
Qed.

(** The arithmetic of the template: the validity, which wraps beyond
    106751 days, and the bits of the key usage. *)
Lemma template_facts (validDays : Z) (org : list string) (serial now : Z) :
  let t := selfSignedTemplate validDays org serial now in
  (0 <= validDays <= 106751 ->
   x509.NotBefore t = now /\
   x509.NotAfter t - x509.NotBefore t = validDays * (24 * GoTime.Hour)) /\
  (106751 < validDays <= 213503 -> x509.NotAfter t < x509.NotBefore t) /\
  (forall n, Z.testbit (x509.KeyUsage t) n = true <-> n = 0 \/ n = 2 \/ n = 5) /\
  x509.Organization t = org /\
  x509.SerialNumber t = serial /\
  x509.ExtKeyUsages t = [x509.ExtKeyUsageClientAuth; x509.ExtKeyUsageServerAuth] /\
  x509.BasicConstraintsValid t = true.
Proof.
  intros t.
  assert (HH : GoTime.Hour = 3600000000000) by reflexivity.
  split; [|split; [|split]].
  - intros Hv. split; [reflexivity|]. simpl. unfold GoTime.Add.
    rewrite (wrap64_id (validDays * 24))
      by (unfold GoTime.minInt64, GoTime.maxInt64; lia).
    rewrite wrap64_id by (unfold GoTime.minInt64, GoTime.maxInt64; lia). lia.
  - intros Hv. simpl. unfold GoTime.Add.
    rewrite (wrap64_id (validDays * 24))
      by (unfold GoTime.minInt64, GoTime.maxInt64; lia).
    unfold GoTime.wrap64.
    assert (Hm : (validDays * 24 * GoTime.Hour + 2 ^ 63) mod 2 ^ 64
                 = validDays * 24 * GoTime.Hour + 2 ^ 63 - 2 ^ 64).
    { symmetry. apply Z.mod_unique with (q := 1); lia. }
    rewrite Hm. lia.
  - intros n. simpl. rewrite key_usage_value. apply testbit_37.
  - repeat split.
Qed.

Section Template.
Context {Ext : Type} `{!ServerEnv Ext}.

(** X13.  The certificate [CreateSelfSignedCertificate] asks for.  Once
    the key is generated and the serial number drawn, what the function
    returns is the answer of [x509.CreateCertificate] to one request,
    made with the generated key for a certificate [t] of which the
    following holds.  Its [NotBefore] is the reading of the clock; for a
    validity of 0 to 106751 days its [NotAfter] is exactly that many
    days later; from 106752 to 213503 days the int64 duration wraps and
    [NotAfter] lies before [NotBefore].  Its key usage has the bits of
    digital signature, key encipherment and certificate signing and no
    other; it carries the organization given and the serial number
    drawn, both extended usages, and valid basic constraints. *)
Theorem template_validity_and_usage (validDays : Z) (org : list string)
    (w : World Ext) (privKey : Signer) (serial : Z) (x1 x2 : Ext) :
  ecdsa_GenerateKey (ext w) = (Ok privKey, x1) ->
  rand_Int (2 ^ 128) x1 = (Ok serial, x2) ->
  exists t : x509.Certificate,
    server.CreateSelfSignedCertificate validDays org w
    = (let answer := x509_CreateCertificate t privKey (snd (time_Now x2)) in
       let w' := set_ext (snd answer)
                   (set_trace (EvCreateCertificate :: EvGenerateKey :: trace w) w) in
       match fst answer with
       | Ok der =>
           Done (pem_EncodeToMemory "CERTIFICATE" der, EncodeECDSAKey privKey, None) w'
       | Err e =>
           Done ([], [], Some (Errorf "self_signed: failed create certificate: %v" e)) w'
       end) /\
    x509.NotBefore t = fst (time_Now x2) /\
    (0 <= validDays <= 106751 ->
     x509.NotAfter t - x509.NotBefore t = validDays * (24 * GoTime.Hour)) /\
    (106751 < validDays <= 213503 -> x509.NotAfter t < x509.NotBefore t) /\
    (forall n, Z.testbit (x509.KeyUsage t) n = true <-> n = 0 \/ n = 2 \/ n = 5) /\
    x509.Organization t = org /\
    x509.SerialNumber t = serial /\
    x509.ExtKeyUsages t = [x509.ExtKeyUsageClientAuth; x509.ExtKeyUsageServerAuth] /\
    x509.BasicConstraintsValid t = true.
Proof.
  intros Hkey Hserial.
  change (2 ^ 128) with (Z.shiftl 1 128) in Hserial.
  exists (selfSignedTemplate validDays org serial (fst (time_Now x2))).
  split.
  - rewrite CreateSelfSignedCertificate_eq. cbv zeta. simpl.
    rewrite Hkey. simpl. rewrite Hserial. simpl.
    destruct (x509_CreateCertificate
                (selfSignedTemplate validDays org serial (fst (time_Now x2)))
                privKey (snd (time_Now x2))) as [[der|e] x4]; reflexivity.
  - destruct (template_facts validDays org serial (fst (time_Now x2)))
      as (Hok & Hwrap & Hbits & Hrest).
    split; [reflexivity|]. split; [intros Hv; exact (proj2 (Hok Hv))|].
    split; [exact Hwrap|]. split; [exact Hbits | exact Hrest].
Qed.

End Template.

Section Provision.
Context {Ext : Type} `{!ServerEnv Ext}.

(** X14.  A pair that [CreateSelfSignedCertificate] returns without
    error comes from one key: the key it generated is the one the
    certificate was created with and the one whose encoding it returns,
    the certificate asked for is [selfSignedTemplate] with a serial
    number drawn below [2^128], and the certificate block is the PEM
    encoding, of type CERTIFICATE, of the bytes the creation returned. *)
Theorem created_pair_shares_its_key (validDays : Z) (org : list string)
    (w w' : World Ext) (certPEM privKeyPEM : bytes) :
  server.CreateSelfSignedCertificate validDays org w
    = Done (certPEM, privKeyPEM, None) w' ->
  exists privKey serial now der x1 x2 x3,
    fst (ecdsa_GenerateKey (ext w)) = Ok privKey /\
    rand_Int (2 ^ 128) x1 = (Ok serial, x2) /\
    fst (time_Now x2) = now /\
    fst (x509_CreateCertificate (selfSignedTemplate validDays org serial now)
           privKey x3) = Ok der /\
    certPEM = pem_EncodeToMemory "CERTIFICATE" der /\
    privKeyPEM = EncodeECDSAKey privKey /\
    trace w' = EvCreateCertificate :: EvGenerateKey :: trace w.
Proof.
  rewrite CreateSelfSignedCertificate_eq. cbv zeta. simpl.
  destruct (ecdsa_GenerateKey (ext w)) as [[k|e] x1]; simpl; [|discriminate].
  destruct (rand_Int (Z.shiftl 1 128) x1) as [[sn|e] x2] eqn:Hsn; simpl; [|discriminate].
  destruct (time_Now x2) as [now x3] eqn:Hnow; simpl.
  destruct (x509_CreateCertificate (selfSignedTemplate validDays org sn now) k x3)
    as [[der|e] x4] eqn:Hcreate; simpl; [|discriminate].
  intros Heq. injection Heq as <- <- <-.
  exists k, sn, now, der, x1, x2, x3.
  split; [reflexivity|]. split; [exact Hsn|]. split; [rewrite Hnow; reflexivity|].
  split; [rewrite Hcreate; reflexivity|]. repeat split.
Qed.

(** X15.  When [CreateSelfSignedCertificate] returns an error, both
    byte slices it returns are nil, the error is the collaborator's
    wrapped in one of its three messages, and when the key could not be
    generated no certificate creation was attempted. *)
Theorem create_error_returns_nothing (validDays : Z) (org : list string)
    (w w' : World Ext) (certPEM privKeyPEM : bytes) (err : error) :
  server.CreateSelfSignedCertificate validDays org w
    = Done (certPEM, privKeyPEM, Some err) w' ->
  certPEM = [] /\ privKeyPEM = [] /\
  ((exists e, err = Errorf "self_singed: failed generate private key: %v" e /\
              fst (ecdsa_GenerateKey (ext w)) = Err e /\
              trace w' = EvGenerateKey :: trace w) \/
   (exists e, err = Errorf "self_signed: failed generate serial number: %v" e /\
              trace w' = EvGenerateKey :: trace w) \/
   (exists e, err = Errorf "self_signed: failed create certificate: %v" e /\
              trace w' = EvCreateCertificate :: EvGenerateKey :: trace w)).
Proof.
  rewrite CreateSelfSignedCertificate_eq. cbv zeta. simpl.
  destruct (ecdsa_GenerateKey (ext w)) as [[k|e] x1]; simpl.
  - destruct (rand_Int (Z.shiftl 1 128) x1) as [[sn|e] x2]; simpl.
    + destruct (time_Now x2) as [now x3]; simpl.
      destruct (x509_CreateCertificate (selfSignedTemplate validDays org sn now) k x3)
        as [[der|e] x4]; simpl; [discriminate|].
      intros Heq. injection Heq as <- <- <- <-.
      split; [reflexivity|]. split; [reflexivity|]. right. right. eauto.
    + intros Heq. injection Heq as <- <- <- <-.
      split; [reflexivity|]. split; [reflexivity|]. right. left. eauto.
  - intros Heq. injection Heq as <- <- <- <-.
    split; [reflexivity|]. split; [reflexivity|]. left. eauto.
Qed.

Lemma createAndSave_eq (w w1 : World Ext)
    (r : bytes * bytes * option error) :
  server.CreateSelfSignedCertificate (Cfg.ValidDays (cfg w))
    (Cfg.Organization (cfg w)) w = Done r w1 ->
  server.createAndSaveSelfSignedCertificate w
  = match r with
    | (_, _, Some err) => Done (None, Some err) w1
    | (certPEM, privKeyPEM, None) =>
        let data := privKeyPEM ++ certPEM in
        let w2 := set_ext (snd (storage_Put (Cfg.CertKey (cfg w)) data (ext w1)))
                    (set_trace (EvStorePut (Cfg.CertKey (cfg w)) data :: trace w1) w1) in
        match fst (storage_Put (Cfg.CertKey (cfg w)) data (ext w1)) with
        | Some e =>
            Done (None, Some (Errorf "self_signed: failed put certificate: %v" e)) w2
        | None => Done (fst (parseCertificate data), None) w2
        end
    end.
Proof.
  intros Hgen.
  unfold server.createAndSaveSelfSignedCertificate, bind, get_world.
  rewrite Hgen. destruct r as [[certPEM privKeyPEM] [e|]]; [reflexivity|].
  unfold call, ret. cbv zeta.
  destruct (storage_Put (Cfg.CertKey (cfg w)) (privKeyPEM ++ certPEM) (ext w1))
    as [[pe|] x2]; reflexivity.
Qed.

(** X16.  What ends up in the store.  When
    [createAndSaveSelfSignedCertificate] returns a nil error it has made
    exactly one store write, after generating the key and creating the
    certificate: under [Cfg.SelfSigned.CertKey], of the encoding of the
    generated key immediately followed by the CERTIFICATE block of the
    certificate created from [selfSignedTemplate] with the configured
    validity and organization; and the certificate it returns is the
    parse of exactly those bytes. *)
Theorem saved_blob_is_key_then_certificate (w w' : World Ext)
    (c : option tls.Certificate) :
  server.createAndSaveSelfSignedCertificate w = Done (c, None) w' ->
  exists privKey serial now der x3,
    fst (ecdsa_GenerateKey (ext w)) = Ok privKey /\
    fst (x509_CreateCertificate
           (selfSignedTemplate (Cfg.ValidDays (cfg w)) (Cfg.Organization (cfg w))
              serial now) privKey x3) = Ok der /\
    trace w' = EvStorePut (Cfg.CertKey (cfg w))
                 (EncodeECDSAKey privKey ++ pem_EncodeToMemory "CERTIFICATE" der)
               :: EvCreateCertificate :: EvGenerateKey :: trace w /\
    c = fst (parseCertificate
               (EncodeECDSAKey privKey ++ pem_EncodeToMemory "CERTIFICATE" der)).
Proof.
  intros Hsave.
  destruct (CreateSelfSignedCertificate_total (Cfg.ValidDays (cfg w))
              (Cfg.Organization (cfg w)) w) as (r & w1 & evs & Hgen & _).
  rewrite (createAndSave_eq w w1 r Hgen) in Hsave.
  rewrite CreateSelfSignedCertificate_eq in Hgen. cbv zeta in Hgen. simpl in Hgen.
  destruct (ecdsa_GenerateKey (ext w)) as [[k|e] x1]; simpl in Hgen;
    [|injection Hgen as <- <-; discriminate].
  destruct (rand_Int (Z.shiftl 1 128) x1) as [[sn|e] x2]; simpl in Hgen;
    [|injection Hgen as <- <-; discriminate].
  destruct (time_Now x2) as [now x3]; simpl in Hgen.
  destruct (x509_CreateCertificate
              (selfSignedTemplate (Cfg.ValidDays (cfg w)) (Cfg.Organization (cfg w))
                 sn now) k x3) as [[der|e] x4] eqn:Hcreate; simpl in Hgen;
    [|injection Hgen as <- <-; discriminate].
  injection Hgen as <- <-. cbv zeta in Hsave. simpl in Hsave.
  destruct (storage_Put (Cfg.CertKey (cfg w))
              (EncodeECDSAKey k ++ pem_EncodeToMemory "CERTIFICATE" der) x4)
    as [[pe|] x5]; simpl in Hsave; [discriminate|].
  injection Hsave as <- <-.
  exists k, sn, now, der, x3. split; [reflexivity|].
  split; [rewrite Hcreate; reflexivity|]. split; reflexivity.
Qed.

End Provision.

(** ** The singleton and the gate *)

Section SingletonFacts.
Context {Ext : Type} `{!ServerEnv Ext}.

Lemma slow_path_eq (domain : string) (w : World Ext) :
  selfSignedCert w = None ->
  server.GetSelfSignedCertificate domain w
  = locked "selfSignedMu" (server.provision domain) w.
Proof.
  intros Hunset. unfold server.GetSelfSignedCertificate, bind, get_world.
  rewrite Hunset. unfold locked, bind. simpl. rewrite Hunset. reflexivity.
Qed.

(** What the slow path leaves in the singleton. *)
Lemma provision_outcome (domain : string) (w : World Ext) :
  exists c err w',
    server.provision domain w = Done (c, err) w' /\
    cfg w' = cfg w /\
    (err = None -> selfSignedCert w' = Some c) /\
    (err <> None -> c = None /\ selfSignedCert w' = selfSignedCert w).
Proof.
  unfold server.provision, server.loadCertificateFromStore, bind, call, ret.
  assert (Hgen : forall w1, selfSignedCert w1 = selfSignedCert w -> cfg w1 = cfg w ->
    exists c err w',
      (r <- server.createAndSaveSelfSignedCertificate ;;
       match r with
       | (_, Some err) => fun w => Done (None, Some err) w
       | (tlscert, None) =>
           fun w => Done (tlscert, None) (set_selfSignedCert (Some tlscert) w)
       end) w1 = Done (c, err) w' /\
      cfg w' = cfg w /\
      (err = None -> selfSignedCert w' = Some c) /\
      (err <> None -> c = None /\ selfSignedCert w' = selfSignedCert w)).
  { intros w1 Hs1 Hc1.
    destruct (createAndSave_total w1) as (r & w2 & evs & Hc & _ & _ & Hs & Hcfg).
    unfold bind. rewrite Hc. destruct r as [c [e|]]; simpl.
    - exists None, (Some e), w2. split; [reflexivity|]. split; [congruence|].
      split; [discriminate|]. intros _. split; [reflexivity | congruence].
    - exists c, None, (set_selfSignedCert (Some c) w2). split; [reflexivity|].
      split; [simpl; congruence|]. split; [reflexivity|].
      intros Hc'. exfalso. apply Hc'. reflexivity. }
  destruct (storage_Get domain (ext w)) as [[data|e] x1]; simpl.
  - destruct (parseCertificate data) as [c perr].
    assert (Hinstall : forall c0 : tls.Certificate,
      exists c' err w',
        Done (Some c0, @None error)
          (set_selfSignedCert (Some (Some c0))
             (set_ext x1 (set_trace (EvStoreGet domain :: trace w) w)))
        = Done (c', err) w' /\
        cfg w' = cfg w /\
        (err = None -> selfSignedCert w' = Some c') /\
        (err <> None -> c' = None /\ selfSignedCert w' = selfSignedCert w)).
    { intros c0. eexists _, _, _. split; [reflexivity|]. split; [reflexivity|].
      split; [reflexivity|]. intros Hc'. exfalso. apply Hc'. reflexivity. }
    destruct perr as [pe|]; simpl.
    + destruct (bool_decide (pe <> ErrCacheMiss)); simpl.
      * eexists _, _, _. split; [reflexivity|]. split; [reflexivity|].
        split; [discriminate|]. intros _. split; reflexivity.
      * destruct c as [c|]; simpl; [apply Hinstall | apply Hgen; reflexivity].
    + destruct c as [c|]; simpl; [apply Hinstall | apply Hgen; reflexivity].
  - destruct (bool_decide (e <> ErrCacheMiss)); simpl.
    + eexists _, _, _. split; [reflexivity|]. split; [reflexivity|].
      split; [discriminate|]. intros _. split; reflexivity.
    + apply Hgen; reflexivity.
Qed.

(** X17.  [GetSelfSignedCertificate] always returns, and what it returns
    is what the singleton holds: with a nil error the singleton holds
    the certificate returned, and every later call, for any domain,
    returns that same certificate without taking the lock or touching
    the store; with a non-nil error the certificate returned is nil and
    the singleton is left unset, so the next call tries again. *)
Theorem singleton_holds_what_was_returned (domain : string) (w : World Ext) :
  exists c err w',
    server.GetSelfSignedCertificate domain w = Done (c, err) w' /\
    cfg w' = cfg w /\
    (err = None ->
     selfSignedCert w' = Some c /\
     forall domain', server.GetSelfSignedCertificate domain' w' = Done (c, None) w') /\
    (err <> None -> c = None /\ selfSignedCert w' = None).
Proof.
  destruct (selfSignedCert w) as [c0|] eqn:Hs.
  - exists c0, None, w. split; [apply fast_path; exact Hs|]. split; [reflexivity|].
    split.
    + intros _. split; [exact Hs|]. intros domain'. apply fast_path. exact Hs.
    + intros Hc. exfalso. apply Hc. reflexivity.
  - rewrite (slow_path_eq domain w Hs). unfold locked.
    destruct (provision_outcome domain (set_trace (EvLock "selfSignedMu" :: trace w) w))
      as (c & err & w' & Hp & Hcfg & Hok & Herr).
    rewrite Hp. eexists c, err, _. split; [reflexivity|]. split; [exact Hcfg|].
    split.
    + intros He. specialize (Hok He). split; [exact Hok|].
      intros domain'. subst err. apply fast_path. exact Hok.
    + intros He. destruct (Herr He) as (-> & Hs'). split; [reflexivity|].
      simpl. rewrite Hs'. exact Hs.
Qed.

(** X18.  Reuse of stored material.  With the singleton unset, if the
    lookup under the requested domain comes back with a certificate (and
    no error, or the not-found one), that certificate is installed as
    the singleton and returned: nothing is generated and nothing is
    written to the store. *)
Theorem stored_certificate_is_reused (domain : string) (w w2 : World Ext)
    (c : tls.Certificate) (err : option error) :
  selfSignedCert w = None ->
  server.loadCertificateFromStore domain
    (set_trace (EvLock "selfSignedMu" :: trace w) w) = Done (Some c, err) w2 ->
  err = None \/ err = Some ErrCacheMiss ->
  exists w',
    server.GetSelfSignedCertificate domain w = Done (Some c, None) w' /\
    selfSignedCert w' = Some (Some c) /\
    trace w' = EvUnlock "selfSignedMu" :: trace w2 /\
    ext w' = ext w2.
Proof.
  intros Hunset Hload Herr.
  rewrite (slow_path_eq domain w Hunset). unfold locked, server.provision, bind.
  rewrite Hload.
  destruct Herr as [-> | ->]; simpl.
  - eexists. split; [reflexivity|]. repeat split.
  - eexists. split; [reflexivity|]. repeat split.
Qed.

(** X19.  The gate.  [IsSelfSignedAllowed] is false whenever
    self-signing is disabled, and then the validator is not consulted;
    when it is enabled without the SNI check it is true, again without
    consulting the validator; with the SNI check it is true exactly when
    the validator accepts the domain.  It logs no call, takes no lock
    and never touches the singleton. *)
Theorem gate_decision (domain : string) (w : World Ext) :
  exists b w',
    server.IsSelfSignedAllowed domain w = Done b w' /\
    trace w' = trace w /\ selfSignedCert w' = selfSignedCert w /\ cfg w' = cfg w /\
    (Cfg.Enable (cfg w) = false -> b = false /\ w' = w) /\
    (Cfg.Enable (cfg w) = true -> Cfg.CheckSNI (cfg w) = false -> b = true /\ w' = w) /\
    (Cfg.Enable (cfg w) = true -> Cfg.CheckSNI (cfg w) = true ->
     (b = true <-> fst (checkHostIsValid domain (ext w)) = None) /\
     ext w' = snd (checkHostIsValid domain (ext w))).
Proof.
  unfold server.IsSelfSignedAllowed, bind, get_world, ask, ret.
  destruct (Cfg.Enable (cfg w)) eqn:He; simpl.
  - destruct (Cfg.CheckSNI (cfg w)) eqn:Hc; simpl.
    + destruct (checkHostIsValid domain (ext w)) as [[e|] x1]; simpl.
      * eexists _, _. split; [reflexivity|]. repeat split; try discriminate.
      * eexists _, _. split; [reflexivity|]. repeat split; try discriminate.
    + eexists _, _. split; [reflexivity|]. repeat split; try discriminate.
  - eexists _, _. split; [reflexivity|]. repeat split; try discriminate.
Qed.

End SingletonFacts.

(** ** More on the race *)

Section RaceInvariants.
Context {Ext : Type} `{!AutocertEnv Ext}.


End RaceInvariants.

Section BudgetOfTheLoops.
Context {Ext : Type} `{!AutocertEnv Ext}.

(** X22.  Every attempt is paid for by a timer expiry.  Along every
    interleaving of the race, on the scheduler and on the updater, the
    number of attempts made (armed callback bodies run) is at most one,
    for the callback the race starts with, plus the number of timers
    that expired since; and the number of timers created is at most the
    number of attempts. *)
Theorem attempts_bounded_by_expiries (dr : domainRenewal.t) (ou : ocspUpdater.t)
    (w : World Ext) (sched_dr sched_ou : list Race.Action)
    (s_dr : Race.Sys Ext domainRenewal.t) (s_ou : Race.Sys Ext ocspUpdater.t) :
  Race.exec renewalLoop sched_dr (Race.racing dr w) = Some s_dr ->
  Race.exec ocspLoop sched_ou (Race.racing ou w) = Some s_ou ->
  ((Race.attempts s_dr <= 1 + fires sched_dr)%nat /\
   (length (timers (Race.world s_dr)) <= length (timers w) + Race.attempts s_dr)%nat) /\
  ((Race.attempts s_ou <= 1 + fires sched_ou)%nat /\
   (length (timers (Race.world s_ou)) <= length (timers w) + Race.attempts s_ou)%nat).
Proof.
  intros Hdr Hou. split.
  - destruct (budget_exec renewalLoop renewalLoop_ok _ 1 sched_dr _ s_dr
                (budget_racing dr w) Hdr) as (_ & Ha & Hl).
    split; [exact Ha | exact Hl].
  - destruct (budget_exec ocspLoop ocspLoop_ok _ 1 sched_ou _ s_ou
                (budget_racing ou w) Hou) as (_ & Ha & Hl).
    split; [exact Ha | exact Hl].
Qed.

End BudgetOfTheLoops.

(** ** The further properties at concrete inputs *)

(** X2, at an idle scheduler and a certificate good for 90 days: the
    timer is set to 60 days. *)
Lemma start_idle_arms_one_timer_witness :
  let w := Scenario.world Scenario.ext0 Scenario.manager0 [] in
  let dr := Scenario.dr_idle in
  exists d w1 dr' w',
    domainRenewal.next dr (90 * Scenario.day) (under_timerMu w) = Done d w1 /\
    0 <= d /\
    domainRenewal.start dr (90 * Scenario.day) w = Done dr' w' /\
    domainRenewal.timer dr' = Some (length (timers w)) /\
    timers w' = timers w ++ [Build_Timer d (CbRenew (domainRenewal.domain dr)) Pending] /\
    mgr w' = mgr w /\
    trace w' = EvUnlock "timerMu" :: EvLock "timerMu" :: trace w /\
    domainRenewal.start dr' 0 w' = Done dr' (lock_unlock "timerMu" w').
Proof.
  intros w dr.
  refine (start_idle_arms_one_timer dr (90 * Scenario.day) 0 w _). reflexivity.
Defined.

(** X3, at an idle updater and a staple good for 7 days. *)
Lemma ocsp_start_idle_arms_one_timer_witness :
  let w := Scenario.world Scenario.ext0 Scenario.manager_ocsp [] in
  let ou := Cases.ou_idle in
  exists d w1 ou' w',
    ocspUpdater.next ou (7 * Scenario.day) (under_timerMu w) = Done d w1 /\
    0 <= d /\
    ocspUpdater.start ou (7 * Scenario.day) w = Done ou' w' /\
    ocspUpdater.timer ou' = Some (length (timers w)) /\
    timers w' = timers w ++ [Build_Timer d (CbUpdate (ocspUpdater.domain ou)) Pending] /\
    mgr w' = mgr w /\
    trace w' = EvUnlock "timerMu" :: EvLock "timerMu" :: trace w /\
    ocspUpdater.start ou' 0 w' = Done ou' (lock_unlock "timerMu" w').
Proof.
  intros w ou.
  refine (ocsp_start_idle_arms_one_timer ou (7 * Scenario.day) 0 w _). reflexivity.
Defined.

(** X4, at an idle scheduler. *)
Lemma stop_cancels_start_witness :
  let w := Scenario.world Scenario.ext0 Scenario.manager0 [] in
  let dr := Scenario.dr_idle in
  exists d dr1 w1 w2,
    domainRenewal.start dr (90 * Scenario.day) w = Done dr1 w1 /\
    domainRenewal.stop dr1 w1 = Done dr w2 /\
    timers w2 = timers w ++ [Build_Timer d (CbRenew (domainRenewal.domain dr)) Stopped] /\
    mgr w2 = mgr w.
Proof.
  intros w dr.
  refine (stop_cancels_start dr (90 * Scenario.day) w _). reflexivity.
Defined.

(** X7, with an authority that refuses. *)
Lemma do_error_leaves_manager_witness :
  let w := Scenario.world Scenario.ext_failing Scenario.manager0 [] in
  exists e w',
    domainRenewal.do Scenario.dr_idle (10 * GoTime.Minute) w = Done (0, Some e) w' /\
    0 = 0 /\ mgr w' = mgr w /\ timers w' = timers w.
Proof.
  intros w. eexists _, _. split; [vm_compute; reflexivity|].
  refine (do_error_leaves_manager Scenario.dr_idle (10 * GoTime.Minute) w _ 0 _ _).
  vm_compute; reflexivity.
Defined.

(** X8, with an authority that issues: the entry of another domain is
    not touched. *)
Lemma do_writes_only_its_domain_witness :
  let w := Scenario.world Scenario.ext0 Scenario.manager0 [] in
  let dr := Scenario.dr_idle in
  let other := "other.org"%string in
  exists r w',
    domainRenewal.do dr (10 * GoTime.Minute) w = Done r w' /\
    state (mgr w') !! other = state (mgr w) !! other /\
    ocspStates (mgr w') = ocspStates (mgr w) /\
    renewBefore (mgr w') = renewBefore (mgr w) /\
    timers w' = timers w /\
    (state (mgr w') = state (mgr w) \/
     exists st, state (mgr w') !! domainRenewal.domain dr = Some st /\
                key st = domainRenewal.key dr /\ snd r = None).
Proof.
  intros w dr other. eexists _, _. split; [vm_compute; reflexivity|].
  refine (do_writes_only_its_domain dr (10 * GoTime.Minute) w _ _ other _ _).
  - vm_compute; reflexivity.
  - discriminate.
Defined.

(** X9, with the authority and the responder failing; [renew] in a
    Manager that has no OCSP state, [update] in one that has. *)
Lemma rearmed_interval_never_negative_witness :
  let w0 := Scenario.world Scenario.ext_failing Scenario.manager0
              (Scenario.fired (CbRenew "example.com")) in
  let w := Scenario.world Scenario.ext_failing Scenario.manager_ocsp
             (Scenario.fired (CbUpdate "example.com")) in
  let dr := Scenario.dr_armed in
  let ou := Scenario.ou_armed in
  (exists nxt dr' w',
     domainRenewal.renew dr w0 = Done dr' w' /\
     timers w' = timers w0 ++ [Build_Timer nxt (CbRenew (domainRenewal.domain dr)) Pending] /\
     0 <= nxt) /\
  (exists nxt ou' w',
     ocspUpdater.update ou w = Done ou' w' /\
     timers w' = timers w ++ [Build_Timer nxt (CbUpdate (ocspUpdater.domain ou)) Pending] /\
     0 <= nxt).
Proof.
  intros w0 w dr ou. split.
  - refine (proj1 (rearmed_interval_never_negative w0) dr 0%nat _). reflexivity.
  - refine (proj2 (rearmed_interval_never_negative w) ou 0%nat Scenario.ocsp0 _ _);
      reflexivity.
Defined.

(** X10, with a cached certificate good for 31 days under a 30-day
    window. *)
Lemma do_issues_when_due_witness :
  let c := Scenario.cert_until (31 * Scenario.day) in
  let w := Scenario.world (Scenario.ext_cached c) Scenario.manager0 [] in
  let dr := Scenario.dr_idle in
  exists r w',
    domainRenewal.do dr (10 * GoTime.Minute) w = Done r w' /\
    In (EvIssue (domainRenewal.domain dr)) (trace w').
Proof.
  intros c w dr.
  refine (do_issues_when_due dr (10 * GoTime.Minute) w (Scenario.ext_cached c) (Ok c) _ _).
  - vm_compute; reflexivity.
  - vm_compute. repeat split; congruence.
Defined.

(** X11, with a responder that answers with a staple good for 7 days. *)
Lemma update_refreshes_staple_witness :
  let w := Scenario.world Scenario.ext0 Scenario.manager_ocsp
             (Scenario.fired (CbUpdate "example.com")) in
  let ou := Scenario.ou_armed in
  let st := Scenario.ocsp0 in
  exists ou' w',
    ocspUpdater.update ou w = Done ou' w' /\
    state (mgr w') = state (mgr w) /\
    renewBefore (mgr w') = renewBefore (mgr w) /\
    ocspStates (mgr w')
    = <[ocspUpdater.domain ou :=
          {| ocsp_leaf := ocsp_leaf st; ocsp_issuer := ocsp_issuer st;
             ocspDER := [Byte.x03]; nextUpdate := 7 * Scenario.day |}]>
        (ocspStates (mgr w)) /\
    In (EvDidUpdateLoop (ocsp_interval (7 * Scenario.day) Scenario.ext0) None)
       (trace w').
Proof.
  intros w ou st.
  refine (update_refreshes_staple ou w 0%nat st
            (Ok ([Byte.x03], {| ocsp.NextUpdate := 7 * Scenario.day |}))
            Scenario.ext0 _ _ _); reflexivity.
Defined.

(** X12, for a staple good for 7 days. *)
Lemma ocsp_next_clamped_bounds_witness :
  let w := Scenario.world Scenario.ext0 Scenario.manager_ocsp [] in
  let E := 7 * Scenario.day in
  let now := fst (timeNow (ext w)) in
  exists d j w',
    ocspUpdater.next Scenario.ou_armed E w = Done d w' /\
    0 <= j < renewJitter /\
    d = Z.max 0 (E - now - 48 * GoTime.Hour - j) /\
    0 <= d /\
    (E - now <= 48 * GoTime.Hour -> d = 0) /\
    (49 * GoTime.Hour <= E - now ->
     E - now - 49 * GoTime.Hour < d <= E - now - 48 * GoTime.Hour).
Proof.
  intros w E now.
  apply (ocsp_next_clamped_bounds Scenario.ou_armed E w);
    vm_compute; try split; congruence.
Defined.

(** X13, with the configured validity of 3650 days. *)
Lemma template_validity_and_usage_witness :
  let w := Scenario.world Scenario.ext0 Scenario.manager0 [] in
  let org := ["SSL Cert Server Self-Signed"%string] in
  let privKey := {| key_id := 7 |} in
  let x2 := Scenario.ext0 in
  exists t : x509.Certificate,
    server.CreateSelfSignedCertificate 3650 org w
    = (let answer := x509_CreateCertificate t privKey (snd (time_Now x2)) in
       let w' := set_ext (snd answer)
                   (set_trace (EvCreateCertificate :: EvGenerateKey :: trace w) w) in
       match fst answer with
       | Ok der =>
           Done (pem_EncodeToMemory "CERTIFICATE" der, EncodeECDSAKey privKey, None) w'
       | Err e =>
           Done ([], [], Some (Errorf "self_signed: failed create certificate: %v" e)) w'
       end) /\
    x509.NotBefore t = fst (time_Now x2) /\
    (0 <= 3650 <= 106751 ->
     x509.NotAfter t - x509.NotBefore t = 3650 * (24 * GoTime.Hour)) /\
    (106751 < 3650 <= 213503 -> x509.NotAfter t < x509.NotBefore t) /\
    (forall n, Z.testbit (x509.KeyUsage t) n = true <-> n = 0 \/ n = 2 \/ n = 5) /\
    x509.Organization t = org /\
    x509.SerialNumber t = 0 /\
    x509.ExtKeyUsages t = [x509.ExtKeyUsageClientAuth; x509.ExtKeyUsageServerAuth] /\
    x509.BasicConstraintsValid t = true.
Proof.
  intros w org privKey x2.
  refine (template_validity_and_usage 3650 org w privKey 0 Scenario.ext0 x2 _ _);
    reflexivity.
Defined.

(** X14, with a key generator that works. *)
Lemma created_pair_shares_its_key_witness :
  let w := Scenario.world Scenario.ext0 Scenario.manager0 [] in
  let org := ["SSL Cert Server Self-Signed"%string] in
  let certPEM := [Byte.x43; Byte.x00] in
  let privKeyPEM := [Byte.x4b; Byte.x07] in
  exists w',
    server.CreateSelfSignedCertificate 3650 org w
      = Done (certPEM, privKeyPEM, None) w' /\
    exists privKey serial now der x1 x2 x3,
      fst (ecdsa_GenerateKey (ext w)) = Ok privKey /\
      rand_Int (2 ^ 128) x1 = (Ok serial, x2) /\
      fst (time_Now x2) = now /\
      fst (x509_CreateCertificate (selfSignedTemplate 3650 org serial now)
             privKey x3) = Ok der /\
      certPEM = pem_EncodeToMemory "CERTIFICATE" der /\
      privKeyPEM = EncodeECDSAKey privKey /\
      trace w' = EvCreateCertificate :: EvGenerateKey :: trace w.
Proof.
  intros w org certPEM privKeyPEM. eexists. split; [vm_compute; reflexivity|].
  refine (created_pair_shares_its_key 3650 org w _ certPEM privKeyPEM _).
  vm_compute; reflexivity.
Defined.

(** X15, with a key generator that fails. *)
Lemma create_error_returns_nothing_witness :
  let w := Scenario.world Cases.ext_no_keygen Scenario.manager0 [] in
  let org := ["SSL Cert Server Self-Signed"%string] in
  exists certPEM privKeyPEM err w',
    server.CreateSelfSignedCertificate 3650 org w
      = Done (certPEM, privKeyPEM, Some err) w' /\
    certPEM = [] /\ privKeyPEM = [] /\
    ((exists e, err = Errorf "self_singed: failed generate private key: %v" e /\
                fst (ecdsa_GenerateKey (ext w)) = Err e /\
                trace w' = EvGenerateKey :: trace w) \/
     (exists e, err = Errorf "self_signed: failed generate serial number: %v" e /\
                trace w' = EvGenerateKey :: trace w) \/
     (exists e, err = Errorf "self_signed: failed create certificate: %v" e /\
                trace w' = EvCreateCertificate :: EvGenerateKey :: trace w)).
Proof.
  intros w org. eexists _, _, _, _. split; [vm_compute; reflexivity|].
  refine (create_error_returns_nothing 3650 org w _ _ _ _ _).
  vm_compute; reflexivity.
Defined.

(** X16, with a store that accepts the pair. *)
Lemma saved_blob_is_key_then_certificate_witness :
  let w := Scenario.world Scenario.ext0 Scenario.manager0 [] in
  exists c w',
    server.createAndSaveSelfSignedCertificate w = Done (c, None) w' /\
    exists privKey serial now der x3,
      fst (ecdsa_GenerateKey (ext w)) = Ok privKey /\
      fst (x509_CreateCertificate
             (selfSignedTemplate (Cfg.ValidDays (cfg w)) (Cfg.Organization (cfg w))
                serial now) privKey x3) = Ok der /\
      trace w' = EvStorePut (Cfg.CertKey (cfg w))
                   (EncodeECDSAKey privKey ++ pem_EncodeToMemory "CERTIFICATE" der)
                 :: EvCreateCertificate :: EvGenerateKey :: trace w /\
      c = fst (parseCertificate
                 (EncodeECDSAKey privKey ++ pem_EncodeToMemory "CERTIFICATE" der)).
Proof.
  intros w. eexists _, _. split; [vm_compute; reflexivity|].
  refine (saved_blob_is_key_then_certificate w _ _ _).
  vm_compute; reflexivity.
Defined.

(** X18, with a pair in the store under the name of the domain. *)
Lemma stored_certificate_is_reused_witness :
  let w := Scenario.world Cases.ext_stored Scenario.manager0 [] in
  exists c w2,
    server.loadCertificateFromStore "test.local"
      (set_trace (EvLock "selfSignedMu" :: trace w) w) = Done (Some c, None) w2 /\
    exists w',
      server.GetSelfSignedCertificate "test.local" w = Done (Some c, None) w' /\
      selfSignedCert w' = Some (Some c) /\
      trace w' = EvUnlock "selfSignedMu" :: trace w2 /\
      ext w' = ext w2.
Proof.
  intros w. eexists _, _. split; [vm_compute; reflexivity|].
  refine (stored_certificate_is_reused "test.local" w _ _ None _ _ _).
  - reflexivity.
  - vm_compute; reflexivity.
  - left; reflexivity.
Defined.


(** X22, over two rounds of each loop: two attempts, one expiry, two
    timers more than at the start. *)
Lemma attempts_bounded_by_expiries_witness :
  let w := Scenario.world Scenario.ext_failing Scenario.manager_ocsp
             (Scenario.fired (CbRenew "example.com")) in
  let sched := Cases.two_rounds in
  exists s_dr s_ou,
    Race.exec renewalLoop sched (Race.racing Scenario.dr_armed w) = Some s_dr /\
    Race.exec ocspLoop sched (Race.racing Scenario.ou_armed w) = Some s_ou /\
    Race.attempts s_dr = 2%nat /\ Race.attempts s_ou = 2%nat /\
    ((Race.attempts s_dr <= 1 + fires sched)%nat /\
     (length (timers (Race.world s_dr)) <= length (timers w) + Race.attempts s_dr)%nat) /\
    ((Race.attempts s_ou <= 1 + fires sched)%nat /\
     (length (timers (Race.world s_ou)) <= length (timers w) + Race.attempts s_ou)%nat).
Proof.
  intros w sched. eexists _, _.
  split; [vm_compute; reflexivity|].
  split; [vm_compute; reflexivity|].
  split; [reflexivity|]. split; [reflexivity|].
  refine (attempts_bounded_by_expiries Scenario.dr_armed Scenario.ou_armed w sched sched _ _ _ _);
    vm_compute; reflexivity.
Defined.
